(** * HOBBYTAN office: the workflow orchestration core

    A shallow embedding of the orchestration core of the HOBBYTAN
    "virtual office" (the React component [App], the client library
    [lib/llm.ts], the roster [data/council.ts] and the Cloud Functions
    dispatch layer) together with the properties its specification states.

    Conventions.
    - A JavaScript string is the list of its UTF-16 code units.
    - React state is a record threaded through a state-and-exception
      monad; every [setX(previous => ...)] updater is a pure function on
      the corresponding field.
    - Everything outside the process (the generation proxy, the provider
      backends, Firestore, Storage, the clock, the identity token) is a
      script indexed by a global tick: one tick per external interaction.
    - Builtins of the JavaScript host that have no finite description
      (JSON, Unicode case mapping) are operations of the class [Host]. *)

From Stdlib Require Import NArith ZArith String Ascii Lia.
From stdpp Require Import base numbers list option gmap.

#[local] Set Warnings "-register-all".

(* ===================================================================== *)
(** * JavaScript strings *)
(* ===================================================================== *)

Module Js.

(** A string value: its UTF-16 code units. *)
Definition jsstring := list N.

(** Source literals are written in UTF-8; [utf16] decodes the bytes of a
    literal into code units (a code point above U+FFFF becomes a surrogate
    pair, a malformed sequence U+FFFD). *)
Fixpoint utf16 (bs : list N) : jsstring :=
  match bs with
  | [] => []
  | b0 :: r0 =>
    if (b0 <? 128)%N then b0 :: utf16 r0
    else if (b0 <? 224)%N then
      match r0 with
      | b1 :: r1 =>
        N.lor (N.shiftl (N.land b0 31) 6) (N.land b1 63) :: utf16 r1
      | [] => [65533%N]
      end
    else if (b0 <? 240)%N then
      match r0 with
      | b1 :: b2 :: r2 =>
        N.lor (N.shiftl (N.land b0 15) 12)
              (N.lor (N.shiftl (N.land b1 63) 6) (N.land b2 63)) :: utf16 r2
      | _ => [65533%N]
      end
    else
      match r0 with
      | b1 :: b2 :: b3 :: r3 =>
        let cp := N.lor (N.shiftl (N.land b0 7) 18)
                   (N.lor (N.shiftl (N.land b1 63) 12)
                     (N.lor (N.shiftl (N.land b2 63) 6) (N.land b3 63))) in
        let v := (cp - 65536)%N in
        (55296 + N.shiftr v 10)%N :: (56320 + N.land v 1023)%N :: utf16 r3
      | _ => [65533%N]
      end
  end.

Definition js (s : string) : jsstring :=
  utf16 (map N_of_ascii (list_ascii_of_string s)).
Arguments js s%_string : simpl never.

(** The double quote, for literals that contain one. *)
Definition dquote : jsstring := [34%N].

(** [a === b] on strings. *)
Definition streq (a b : jsstring) : bool := bool_decide (a = b).

(** ** Whitespace and [String.prototype.trim]

    [trim] strips WhiteSpace and LineTerminator code points: TAB, LF, VT,
    FF, CR, SP, NBSP, U+1680, U+2000..U+200A, U+2028, U+2029, U+202F,
    U+205F, U+3000 and U+FEFF. *)
Definition isWhiteSpace (c : N) : bool :=
  ((9 <=? c) && (c <=? 13) || (c =? 32) || (c =? 160) || (c =? 5760)
   || (8192 <=? c) && (c <=? 8202) || (c =? 8232) || (c =? 8233)
   || (c =? 8239) || (c =? 8287) || (c =? 12288) || (c =? 65279))%N.

Fixpoint trimStart (s : jsstring) : jsstring :=
  match s with
  | [] => []
  | c :: r => if isWhiteSpace c then trimStart r else s
  end.

Definition trimEnd (s : jsstring) : jsstring := rev (trimStart (rev s)).

Definition trim (s : jsstring) : jsstring := trimEnd (trimStart s).

(** Truthiness of a string: [!s] holds exactly for the empty string. *)
Definition truthy (s : jsstring) : bool :=
  match s with [] => false | _ => true end.

(** [a || b] on strings. *)
Definition orElse (a b : jsstring) : jsstring := if truthy a then a else b.

(** ** Searching *)

(** [s.startsWith(p)]. *)
Fixpoint startsWith (s p : jsstring) : bool :=
  match p, s with
  | [], _ => true
  | _ :: _, [] => false
  | a :: p', b :: s' => (a =? b)%N && startsWith s' p'
  end.

(** [s.includes(x)]. *)
Fixpoint includes (s x : jsstring) : bool :=
  startsWith s x ||
  match s with
  | [] => false
  | _ :: s' => includes s' x
  end.

(** [s.endsWith(p)]. *)
Definition endsWith (s p : jsstring) : bool := startsWith (rev s) (rev p).

(** [s.indexOf(c)] and [s.lastIndexOf(c)] for a one-unit needle; [None]
    stands for -1. *)
Fixpoint indexOf (s : jsstring) (c : N) : option nat :=
  match s with
  | [] => None
  | d :: r => if (d =? c)%N then Some 0 else S <$> indexOf r c
  end.

Definition lastIndexOf (s : jsstring) (c : N) : option nat :=
  (fun i => length s - 1 - i) <$> indexOf (rev s) c.

(** [s.slice(a, b)] for [0 <= a], [0 <= b]. *)
Definition slice (s : jsstring) (a b : nat) : jsstring := take (b - a) (drop a s).

(** [parts.join(sep)]. *)
Fixpoint join (sep : jsstring) (parts : list jsstring) : jsstring :=
  match parts with
  | [] => []
  | [p] => p
  | p :: rest => p ++ sep ++ join sep rest
  end.

(** [s.replace(/\/+$/, "")]: drop the trailing slashes. *)
Fixpoint dropSlashes (s : jsstring) : jsstring :=
  match s with
  | [] => []
  | c :: r => if (c =? 47)%N then dropSlashes r else s
  end.

Definition trimSlash (value : jsstring) : jsstring := rev (dropSlashes (rev value)).

(** ** Numbers in template literals: the decimal rendering of a natural. *)
Fixpoint digits (fuel : nat) (n : N) (acc : jsstring) : jsstring :=
  match fuel with
  | O => acc
  | S f =>
    let acc' := (48 + n mod 10)%N :: acc in
    if (n <? 10)%N then acc' else digits f (n / 10)%N acc'
  end.

Definition decimal (n : N) : jsstring := digits (S (N.to_nat (N.log2 n))) n [].

Definition decimalNat (n : nat) : jsstring := decimal (N.of_nat n).

(** ** ASCII case folding, the part of case mapping that has a table here. *)
Definition asciiUpper (c : N) : N :=
  if ((97 <=? c) && (c <=? 122))%N then (c - 32)%N else c.

Definition asciiLower (c : N) : N :=
  if ((65 <=? c) && (c <=? 90))%N then (c + 32)%N else c.

Definition isAscii (s : jsstring) : bool := forallb (fun c => (c <? 128)%N) s.

(** [s] contains [x] when ASCII letters are compared without case and all
    other units exactly: the matching of a literal alternative of a regular
    expression with the [i] flag (and no [u] flag), whose canonicalisation
    never maps a unit at or above 128 to one below. *)
Fixpoint startsWithCI (s p : jsstring) : bool :=
  match p, s with
  | [], _ => true
  | _ :: _, [] => false
  | a :: p', b :: s' => (asciiUpper a =? asciiUpper b)%N && startsWithCI s' p'
  end.

Fixpoint includesCI (s x : jsstring) : bool :=
  startsWithCI s x ||
  match s with
  | [] => false
  | _ :: s' => includesCI s' x
  end.

End Js.

Import Js.

(* ===================================================================== *)
(** * The JavaScript host *)
(* ===================================================================== *)

(** A JSON value. A number is carried by its canonical rendering
    ([Number::toString], which identifies a double up to the sign of
    zero); an object by its own properties in insertion order, keys
    distinct. *)
Inductive JsValue :=
| JNull
| JBool (b : bool)
| JNum (repr : jsstring)
| JStr (s : jsstring)
| JArr (items : list JsValue)
| JObj (fields : list (jsstring * JsValue)).

(** A thrown value: an [Error] with its message, or anything else. *)
Inductive Exn :=
| JsError (message : jsstring)
| JsNonError.

(** [error instanceof Error ? error.message : fallback]. *)
Definition messageOr (error : Exn) (fallback : jsstring) : jsstring :=
  match error with
  | JsError message => message
  | JsNonError => fallback
  end.

(** What the embedding takes from the host and the build: the JSON codec,
    Unicode case mapping, the message of the engine's own TypeError, and
    the [import.meta.env] overrides of the default models (the empty
    string when unset). [JSON_parse] is [None] where [JSON.parse] throws. *)
Class Host := {
  JSON_parse : jsstring -> option JsValue;
  JSON_stringify : JsValue -> jsstring;
  toUpperCase : jsstring -> jsstring;
  toLowerCase : jsstring -> jsstring;
  typeErrorMessage : jsstring;
  VITE_DEFAULT_OPENAI_MODEL : jsstring;
  VITE_DEFAULT_OPENAI_DEV_MODEL : jsstring;
  VITE_DEFAULT_ANTHROPIC_MODEL : jsstring;
  VITE_DEFAULT_XAI_MODEL : jsstring;
  VITE_DEFAULT_GEMINI_TEXT_MODEL : jsstring
}.

Module Value.

(** Truthiness of a parsed value. *)
Definition truthy (v : JsValue) : bool :=
  match v with
  | JNull => false
  | JBool b => b
  | JNum repr => negb (streq repr (js "0") || streq repr (js "NaN"))
  | JStr s => Js.truthy s
  | JArr _ | JObj _ => true
  end.

(** Own property lookup on an object; every other non-null value has none
    of the properties read here. *)
Fixpoint lookup (fields : list (jsstring * JsValue)) (key : jsstring) : option JsValue :=
  match fields with
  | [] => None
  | (k, v) :: rest => if streq k key then Some v else lookup rest key
  end.

Definition prop (v : JsValue) (key : jsstring) : option JsValue :=
  match v with
  | JObj fields => lookup fields key
  | _ => None
  end.

(** [delete o[key]]. *)
Definition delete (fields : list (jsstring * JsValue)) (key : jsstring)
  : list (jsstring * JsValue) :=
  filter (fun kv => streq (fst kv) key = false) fields.

(** [String(v)]. An array joins the renderings of its elements with a
    comma, [null] elements rendering empty; an object renders as
    [[object Object]] unless it has an own [toString] property, which no
    JSON value makes callable: the conversion then throws ([None]). *)
Fixpoint toString (v : JsValue) : option jsstring :=
  match v with
  | JNull => Some (js "null")
  | JBool true => Some (js "true")
  | JBool false => Some (js "false")
  | JNum repr => Some repr
  | JStr s => Some s
  | JArr items =>
    (fix go (l : list JsValue) : option (list jsstring) :=
       match l with
       | [] => Some []
       | JNull :: r => cons [] <$> go r
       | x :: r =>
         match toString x with
         | Some s => cons s <$> go r
         | None => None
         end
       end) items ≫= fun parts => Some (join (js ",") parts)
  | JObj fields =>
    match lookup fields (js "toString") with
    | Some _ => None
    | None => Some (js "[object Object]")
    end
  end.

End Value.

(* ===================================================================== *)
(** * The roster ([data/council.ts]) *)
(* ===================================================================== *)

(** Record fields carry a short prefix naming their type ([m_id] is the
    [id] of a [CouncilMember]): several types of the source share field
    names. *)

Inductive Room := roomBrainstorming | roomCollaboration.

Inductive OfficeZone := zoneDesk | zoneRoom (room : Room) | zoneCeo.

Inductive LlmProvider := openai | anthropic | xai | gemini.

#[global] Instance LlmProvider_eq_dec : EqDecision LlmProvider.
Proof. solve_decision. Defined.

Record RoleRuntimeConfig := {
  rc_provider : LlmProvider;
  rc_model : jsstring;
  rc_apiKey : jsstring;
  rc_baseUrl : jsstring
}.

Record CouncilMember := {
  m_id : jsstring;
  m_displayName : jsstring;
  m_callSign : jsstring;
  m_role : jsstring;
  m_department : jsstring;
  m_color : jsstring;
  m_image : jsstring;
  m_seat : Z * Z;
  m_identityPrompt : jsstring;
  m_defaultProvider : LlmProvider;
  m_defaultModel : jsstring
}.

Section Council.
Context `{Host}.

Definition DEFAULT_OPENAI_CONVERSATION_MODEL : jsstring :=
  orElse VITE_DEFAULT_OPENAI_MODEL (js "gpt-5.2").

Definition DEFAULT_OPENAI_DEV_MODEL : jsstring :=
  orElse VITE_DEFAULT_OPENAI_DEV_MODEL (js "gpt-5.2-codex").

Definition DEFAULT_OPENAI_MODEL : jsstring := DEFAULT_OPENAI_CONVERSATION_MODEL.

Definition DEFAULT_ANTHROPIC_MODEL : jsstring :=
  orElse VITE_DEFAULT_ANTHROPIC_MODEL (js "claude-3-7-sonnet-latest").

Definition DEFAULT_XAI_MODEL : jsstring := orElse VITE_DEFAULT_XAI_MODEL (js "grok-4").

Definition DEFAULT_GEMINI_TEXT_MODEL : jsstring :=
  orElse VITE_DEFAULT_GEMINI_TEXT_MODEL (js "gemini-2.5-pro").

Definition getDefaultModelForProvider (provider : LlmProvider) : jsstring :=
  match provider with
  | openai => DEFAULT_OPENAI_CONVERSATION_MODEL
  | anthropic => DEFAULT_ANTHROPIC_MODEL
  | xai => DEFAULT_XAI_MODEL
  | gemini => DEFAULT_GEMINI_TEXT_MODEL
  end.

Definition member (id displayName callSign role department color image : string)
    (seat : Z * Z) (identityPrompt : string) (defaultModel : jsstring) : CouncilMember :=
  {| m_id := js id; m_displayName := js displayName; m_callSign := js callSign;
     m_role := js role; m_department := js department; m_color := js color;
     m_image := js image; m_seat := seat; m_identityPrompt := js identityPrompt;
     m_defaultProvider := openai; m_defaultModel := defaultModel |}.

Definition COUNCIL_MEMBERS : list CouncilMember := [
  member "CEO-HOBBY" "CEO HOBBY" "CEO" "Final Decision Maker" "Executive"
    "#f4d35e" "/assets/profiles/ceo.png" (50, 10)%Z
    "당신은 CEO HOBBY다. 모든 산출물의 최종 수신자이며 의사결정을 내린다. 보고서는 짧고 명확해야 하며 실행 가능해야 한다."
    DEFAULT_OPENAI_CONVERSATION_MODEL;
  member "HOST-TAN" "HOST-TAN" "HOST" "Office Host" "Operations"
    "#ffd166" "/assets/profiles/host.png" (11, 16)%Z
    "당신은 HOST-TAN이다. 오피스 로그, 의사결정 타임라인, 전달 상태를 정리한다. 빠르고 실무적으로 보고한다."
    DEFAULT_OPENAI_CONVERSATION_MODEL;
  member "ATTENDANT-TAN" "ATTENDANT-TAN" "ATD" "DEO / Executive Attendant" "Operations"
    "#e5e5e5" "/assets/profiles/attendant.png" (24, 16)%Z
    "당신은 ATTENDANT-TAN이다. 완벽주의 집행관으로서 전 TAN을 오케스트레이션한다. 독단적으로 결정하지 말고 역할을 위임해 최적안을 만든다."
    DEFAULT_OPENAI_CONVERSATION_MODEL;
  member "PO-TAN" "PO-TAN" "PO" "Product Owner" "Product"
    "#69a4ff" "/assets/profiles/po.png" (37, 16)%Z
    "당신은 PO-TAN이다. 비즈니스 가치와 고객 가치 기준으로 우선순위를 결정한다. 수치/가설/검증 기준을 반드시 포함한다."
    DEFAULT_OPENAI_CONVERSATION_MODEL;
  member "PM-TAN" "PM-TAN" "PM" "Project Manager" "Product"
    "#9fa8da" "/assets/profiles/pm.png" (63, 16)%Z
    "당신은 PM-TAN이다. 일정, 병목, 공정률을 관리한다. 단계 전환 조건과 마감 리스크를 명확히 제시한다."
    DEFAULT_OPENAI_CONVERSATION_MODEL;
  member "BA-TAN" "BA-TAN" "BA" "Business Analyst" "Strategy"
    "#5ec8e5" "/assets/profiles/ba.png" (76, 16)%Z
    "당신은 BA-TAN이다. ROI, 전환율, 실험 지표를 숫자로 설계하고 해석한다. 팩트 기반으로 우선순위를 제안한다."
    DEFAULT_OPENAI_CONVERSATION_MODEL;
  member "DEV-TAN" "DEV-TAN" "DEV" "Engineering Lead" "Engineering"
    "#57cc99" "/assets/profiles/dev.png" (89, 16)%Z
    "당신은 DEV-TAN이다. 품질과 아키텍처 무결성을 최우선으로 둔다. 구현 계획은 모호성이 없어야 하며 테스트 전략을 포함한다. 또한 GitHub 소스와 배포 버전의 정합성을 지속 점검하고 불일치 시 즉시 복구 계획을 보고한다."
    DEFAULT_OPENAI_DEV_MODEL;
  member "QA-TAN" "QA-TAN" "QA" "Quality Assurance" "Engineering"
    "#ff6b6b" "/assets/profiles/qa.png" (11, 84)%Z
    "당신은 QA-TAN이다. 테스트 시나리오, 엣지 케이스, 승인 기준을 작성한다. 출시 전 리스크를 엄격히 차단한다."
    DEFAULT_OPENAI_CONVERSATION_MODEL;
  member "UX-TAN" "UX-TAN" "UX" "Design Lead" "Design"
    "#ff9ecf" "/assets/profiles/ux.png" (24, 84)%Z
    "당신은 UX-TAN이다. 미학적 완성도와 사용 흐름의 정합성을 책임진다. 1px 기준의 레이아웃 명세와 예외 케이스를 제시한다."
    DEFAULT_OPENAI_CONVERSATION_MODEL;
  member "HR-TAN" "HR-TAN" "HR" "People Governance" "Governance"
    "#ffb366" "/assets/profiles/hr.png" (37, 84)%Z
    "당신은 HR-TAN이다. 역할 준수 여부와 팀 운영 질서를 감사한다. 인력 배치와 업무 적합도를 근거와 함께 판단한다."
    DEFAULT_OPENAI_CONVERSATION_MODEL;
  member "LEGAL-TAN" "LEGAL-TAN" "LEGAL" "Legal Advisor" "Governance"
    "#f7d154" "/assets/profiles/legal.png" (63, 84)%Z
    "당신은 LEGAL-TAN이다. 정책, 컴플라이언스, 데이터 보안 리스크를 선제 차단한다. 법적 문구와 승인 조건을 명시한다."
    DEFAULT_OPENAI_CONVERSATION_MODEL;
  member "MARKETING-TAN" "MARKETING-TAN" "MKT" "Growth & Marketing" "Growth"
    "#c084fc" "/assets/profiles/marketing.png" (76, 84)%Z
    "당신은 MARKETING-TAN이다. 시장 흐름과 바이럴 루프 중심으로 확산 전략을 수립한다. 채널, 카피, 측정 지표를 함께 제안한다."
    DEFAULT_OPENAI_CONVERSATION_MODEL;
  member "CS-TAN" "CS-TAN" "CS" "Customer Success" "Growth"
    "#61d095" "/assets/profiles/cs.png" (89, 84)%Z
    "당신은 CS-TAN이다. 고객 질문, 페인포인트, 온보딩 장애물을 찾아낸다. 고객 언어로 실행 개선안을 제시한다."
    DEFAULT_OPENAI_CONVERSATION_MODEL;
  member "RESEARCHER-TAN" "RESEARCHER-TAN" "RSRCH" "Market Researcher" "Strategy"
    "#9d7df2" "/assets/profiles/researcher.png" (50, 84)%Z
    "당신은 RESEARCHER-TAN이다. 감이 아니라 데이터로 시장성을 판단한다. 근거 수치와 출처 가정, 한계점을 명시한다."
    DEFAULT_OPENAI_CONVERSATION_MODEL
].

(** [MEMBER_BY_ID.get(memberId)]: the roster ids are pairwise distinct, so
    the map built from the roster holds each member under its id. *)
Definition getMember (memberId : jsstring) : option CouncilMember :=
  find (fun m => streq (m_id m) memberId) COUNCIL_MEMBERS.

(** [MEMBER_BY_ID.has(memberId)]. *)
Definition isMember (memberId : jsstring) : bool :=
  match getMember memberId with Some _ => true | None => false end.

Definition CEO_REPORT_POINT : Z * Z := (50, 12)%Z.

Definition DEFAULT_COLLABORATION_TEAM : list jsstring := [
  js "ATTENDANT-TAN"; js "PO-TAN"; js "PM-TAN"; js "DEV-TAN"; js "UX-TAN";
  js "QA-TAN"; js "BA-TAN"; js "LEGAL-TAN"; js "MARKETING-TAN"; js "CS-TAN";
  js "RESEARCHER-TAN"
].

Definition getRoleDefaultModel (memberId : jsstring) (provider : LlmProvider) : jsstring :=
  match getMember memberId with
  | None => getDefaultModelForProvider provider
  | Some m =>
    if bool_decide (provider = m_defaultProvider m) then m_defaultModel m
    else getDefaultModelForProvider provider
  end.

End Council.

(* ===================================================================== *)
(** * The data model of the office ([App]) *)
(* ===================================================================== *)

Inductive WorkflowPhase := idle | brainstorming | collaboration | execution | reporting.

Inductive StoreSource := cloud | local.

Inductive PlanSource := workflow | management | manual.

Inductive TurnSource := turnWorkflow | turnChat.

Inductive OfficeMessageKind := kindChat | kindReport | kindImage | kindSystem.

Inductive Checker := LEGAL_TAN | HR_TAN.

Inductive AlertStatus := ok | warning.

(** Where an agent is heading. Desk seats and the report line before the
    CEO have integer coordinates; the ring spots of a meeting room are
    cos/sin-derived and stay symbolic: spot [index] of the room's ring. *)
Inductive Target :=
| AtPoint (x y : Z)
| AtSpot (room : Room) (index : nat).

(** [AgentState] without the animated current position [x], [y], which the
    orchestrator copies and only the rendering loop changes. *)
Record AgentState := {
  ag_target : Target;
  ag_zone : OfficeZone;
  ag_status : jsstring;
  ag_active : bool
}.

Record FileAsset := {
  fa_id : jsstring;
  fa_name : jsstring;
  fa_url : jsstring;
  fa_mimeType : jsstring;
  fa_size : N;
  fa_uploadedAt : jsstring;
  fa_source : StoreSource;
  fa_path : option jsstring
}.

(** A browser [File]: name, media type and text content. *)
Record File := {
  f_name : jsstring;
  f_type : jsstring;
  f_content : jsstring
}.

Record ReportItem := {
  rp_id : jsstring;
  rp_threadId : jsstring;
  rp_title : jsstring;
  rp_body : jsstring;
  rp_participants : list jsstring;
  rp_createdAt : jsstring;
  rp_assets : list FileAsset;
  rp_source : StoreSource
}.

Record ActivityLog := {
  lg_id : jsstring;
  lg_threadId : jsstring;
  lg_createdAt : jsstring;
  lg_phase : WorkflowPhase;
  lg_message : jsstring
}.

Record BrainstormPlan := {
  bp_strategy : jsstring;
  bp_participants : list jsstring;
  bp_handoff : jsstring
}.

Record CollaborationNote := {
  cn_memberId : jsstring;
  cn_note : jsstring
}.

Record ActionPlanItem := {
  ap_id : jsstring;
  ap_threadId : jsstring;
  ap_memberId : jsstring;
  ap_memberName : jsstring;
  ap_plan : jsstring;
  ap_source : PlanSource;
  ap_createdAt : jsstring;
  ap_updatedAt : jsstring;
  ap_lastExecutedAt : option jsstring;
  ap_lastExecutionSummary : option jsstring
}.

Record OfficeMessage := {
  om_id : jsstring;
  om_threadId : jsstring;
  om_senderId : jsstring;
  om_senderName : jsstring;
  om_senderRole : jsstring;
  om_kind : OfficeMessageKind;
  om_text : jsstring;
  om_targetIds : list jsstring;
  om_attachments : list FileAsset;
  om_createdAt : jsstring;
  om_source : StoreSource
}.

Record MeetingTurn := {
  mt_id : jsstring;
  mt_threadId : jsstring;
  mt_sessionId : jsstring;
  mt_room : Room;
  mt_speakerId : jsstring;
  mt_speakerName : jsstring;
  mt_text : jsstring;
  mt_createdAt : jsstring;
  mt_source : TurnSource
}.

Record CollaborationSessionResult := {
  cs_sessionId : jsstring;
  cs_notes : list CollaborationNote;
  cs_transcript : list MeetingTurn
}.

Record ThreadGoal := {
  tg_id : jsstring;
  tg_title : jsstring;
  tg_description : jsstring
}.

Record ThreadItem := {
  th_id : jsstring;
  th_title : jsstring;
  th_createdAt : jsstring;
  th_updatedAt : jsstring;
  th_vision : jsstring;
  th_goals : list ThreadGoal
}.

Record GovernanceAlert := {
  ga_id : jsstring;
  ga_threadId : jsstring;
  ga_source : Checker;
  ga_status : AlertStatus;
  ga_message : jsstring;
  ga_createdAt : jsstring
}.

(** The signed-in user, as far as the core reads it. *)
Record User := { u_uid : jsstring }.

(** The request of [requestLlmText] ([lib/llm.ts]); numbers by their
    rendering. *)
Record LlmTextRequest := {
  rq_provider : LlmProvider;
  rq_model : jsstring;
  rq_input : jsstring;
  rq_instructions : option jsstring;
  rq_maxOutputTokens : option jsstring;
  rq_temperature : option jsstring;
  rq_baseUrl : option jsstring;
  rq_useWebSearch : option bool;
  rq_authToken : option jsstring
}.

(** [array.findIndex(test)]; [None] stands for -1. *)
Fixpoint findIndex {A} (test : A -> bool) (l : list A) : option nat :=
  match l with
  | [] => None
  | x :: r => if test x then Some 0 else S <$> findIndex test r
  end.

(* ===================================================================== *)
(** * The plan registry: the state updaters over [actionPlans] *)
(* ===================================================================== *)

Module Registry.

Definition sameKey (threadId memberId : jsstring) (item : ActionPlanItem) : bool :=
  streq (ap_threadId item) threadId && streq (ap_memberId item) memberId.

(** The updater passed to [setActionPlans] by [upsertActionPlan], for a
    roster member [member] and a plan whose trimmed text is not empty.
    [now] is the clock reading the updater takes and [freshId] the id it
    draws when it creates a record. *)
Definition upsertUpdater (member : CouncilMember) (memberId plan : jsstring)
    (source : PlanSource) (threadId now freshId : jsstring)
    (previous : list ActionPlanItem) : list ActionPlanItem :=
  match findIndex (sameKey threadId memberId) previous with
  | None =>
    let next :=
      {| ap_id := freshId; ap_threadId := threadId; ap_memberId := memberId;
         ap_memberName := m_displayName member; ap_plan := trim plan;
         ap_source := source; ap_createdAt := now; ap_updatedAt := now;
         ap_lastExecutedAt := None; ap_lastExecutionSummary := None |} in
    take 220 (next :: previous)
  | Some existingIndex =>
    alter (fun item =>
      {| ap_id := ap_id item; ap_threadId := ap_threadId item;
         ap_memberId := ap_memberId item; ap_memberName := ap_memberName item;
         ap_plan := trim plan; ap_source := source;
         ap_createdAt := ap_createdAt item; ap_updatedAt := now;
         ap_lastExecutedAt := ap_lastExecutedAt item;
         ap_lastExecutionSummary := ap_lastExecutionSummary item |})
      existingIndex previous
  end.

(** The updater of [executeActionPlan]: the record whose id is [planId]
    gets its execution stamp and summary, and a new [updatedAt]. *)
Definition executedUpdater (planId reply executedAt updatedAt : jsstring)
    (previous : list ActionPlanItem) : list ActionPlanItem :=
  map (fun item =>
    if streq (ap_id item) planId then
      {| ap_id := ap_id item; ap_threadId := ap_threadId item;
         ap_memberId := ap_memberId item; ap_memberName := ap_memberName item;
         ap_plan := ap_plan item; ap_source := ap_source item;
         ap_createdAt := ap_createdAt item; ap_updatedAt := updatedAt;
         ap_lastExecutedAt := Some executedAt;
         ap_lastExecutionSummary := Some (slice reply 0 360) |}
    else item) previous.

(** One call on the registry together with what it draws from the clock
    and the id generator. *)
Inductive Op :=
| Upsert (memberId plan : jsstring) (source : PlanSource)
         (threadId now freshId : jsstring)
| Execute (planId reply executedAt updatedAt : jsstring).

Section Ops.
Context `{Host}.

(** [upsertActionPlan]: nothing happens for an id outside the roster or a
    plan that is blank. *)
Definition upsertActionPlan (memberId plan : jsstring) (source : PlanSource)
    (threadId now freshId : jsstring) (previous : list ActionPlanItem)
  : list ActionPlanItem :=
  match getMember memberId with
  | None => previous
  | Some member =>
    if Js.truthy (trim plan)
    then upsertUpdater member memberId plan source threadId now freshId previous
    else previous
  end.

Definition apply (previous : list ActionPlanItem) (op : Op) : list ActionPlanItem :=
  match op with
  | Upsert memberId plan source threadId now freshId =>
    upsertActionPlan memberId plan source threadId now freshId previous
  | Execute planId reply executedAt updatedAt =>
    executedUpdater planId reply executedAt updatedAt previous
  end.

(** The registry after a sequence of calls, from the empty state of a
    freshly mounted [App]. *)
Definition run (ops : list Op) : list ActionPlanItem := foldl apply [] ops.

(** An upsert changes the registry: its member is on the roster and its
    plan is not blank. *)
Definition effective (op : Op) : bool :=
  match op with
  | Upsert memberId plan _ _ _ _ => isMember memberId && Js.truthy (trim plan)
  | Execute _ _ _ _ => false
  end.

Definition targets (threadId memberId : jsstring) (op : Op) : bool :=
  match op with
  | Upsert m _ _ t _ _ => streq t threadId && streq m memberId
  | Execute _ _ _ _ => false
  end.

(** The text supplied by the most recent upsert for a key, and by the most
    recent effective one. *)
Definition lastSupplied (threadId memberId : jsstring) (ops : list Op) : option jsstring :=
  match filter (fun op => targets threadId memberId op = true) ops with
  | [] => None
  | l => match last l with
         | Some (Upsert _ plan _ _ _ _) => Some plan
         | _ => None
         end
  end.

Definition lastEffective (threadId memberId : jsstring) (ops : list Op) : option jsstring :=
  match last (filter (fun op => targets threadId memberId op && effective op = true) ops) with
  | Some (Upsert _ plan _ _ _ _) => Some plan
  | _ => None
  end.

(** The records held for a key. *)
Definition plansFor (threadId memberId : jsstring) (reg : list ActionPlanItem)
  : list ActionPlanItem :=
  filter (fun item => sameKey threadId memberId item = true) reg.

(** The keys that the upserts of a sequence name. *)
Definition upsertKeys (ops : list Op) : list (jsstring * jsstring) :=
  omap (fun op => match op with
                  | Upsert m _ _ t _ _ => Some (t, m)
                  | Execute _ _ _ _ => None
                  end) ops.

End Ops.

End Registry.

(* ===================================================================== *)
(** * A reference host

    A concrete [Host] for running the embedding on concrete inputs. Its
    JSON reader decides the JSON grammar on the fragment whose values have
    a finite description here: numbers are decimals without exponent, of at
    most 15 significant digits and no smaller than 1e-6 in magnitude, and
    no object key is an array index. Outside the fragment it reports a
    syntax error. Case mapping is the ASCII one, which is the Unicode one on
    ASCII text and on scripts without case. No build override is set. *)
(* ===================================================================== *)

Module RefHost.

Definition isDigit (c : N) : bool := ((48 <=? c) && (c <=? 57))%N.

Definition isJsonSpace (c : N) : bool :=
  ((c =? 32) || (c =? 9) || (c =? 10) || (c =? 13))%N.

Fixpoint skipSpace (s : jsstring) : jsstring :=
  match s with
  | c :: r => if isJsonSpace c then skipSpace r else s
  | [] => []
  end.

Definition hexValue (c : N) : option N :=
  if isDigit c then Some (c - 48)%N
  else if ((97 <=? c) && (c <=? 102))%N then Some (c - 87)%N
  else if ((65 <=? c) && (c <=? 70))%N then Some (c - 55)%N
  else None.

(** The characters of a string literal after its opening quote. *)
Fixpoint readString (s acc : jsstring) : option (jsstring * jsstring) :=
  match s with
  | [] => None
  | 34%N :: r => Some (rev acc, r)
  | 92%N :: 117%N :: a :: b :: c :: d :: r =>
    match hexValue a, hexValue b, hexValue c, hexValue d with
    | Some x, Some y, Some z, Some w =>
      readString r ((x * 4096 + y * 256 + z * 16 + w)%N :: acc)
    | _, _, _, _ => None
    end
  | 92%N :: e :: r =>
    match e with
    | 34%N => readString r (34%N :: acc)
    | 92%N => readString r (92%N :: acc)
    | 47%N => readString r (47%N :: acc)
    | 98%N => readString r (8%N :: acc)
    | 102%N => readString r (12%N :: acc)
    | 110%N => readString r (10%N :: acc)
    | 114%N => readString r (13%N :: acc)
    | 116%N => readString r (9%N :: acc)
    | _ => None
    end
  | c :: r => if (c <? 32)%N then None else readString r (c :: acc)
  end.

Fixpoint spanDigits (s acc : jsstring) : jsstring * jsstring :=
  match s with
  | c :: r => if isDigit c then spanDigits r (c :: acc) else (rev acc, s)
  | [] => (rev acc, [])
  end.

Fixpoint dropZeros (s : jsstring) : jsstring :=
  match s with
  | 48%N :: r => dropZeros r
  | _ => s
  end.

(** A number of the fragment, as its canonical rendering. *)
Definition readNumber (s : jsstring) : option (jsstring * jsstring) :=
  let '(negative, s1) :=
    match s with 45%N :: r => (true, r) | _ => (false, s) end in
  let '(int, s2) := spanDigits s1 [] in
  let intOk :=
    match int with
    | [] => false
    | [48%N] => true
    | 48%N :: _ => false
    | _ => true
    end in
  let '(fracOk, frac, s3) :=
    match s2 with
    | 46%N :: r =>
      let '(f, r') := spanDigits r [] in (Js.truthy f, f, r')
    | _ => (true, [], s2)
    end in
  let noExponent :=
    match s3 with
    | 101%N :: _ | 69%N :: _ => false
    | _ => true
    end in
  let frac' := rev (dropZeros (rev frac)) in
  let significant :=
    if streq int (js "0") then length (dropZeros frac') else length int + length frac' in
  let notTiny :=
    negb (streq int (js "0")) || (length frac' - length (dropZeros frac') <? 6) || negb (Js.truthy frac') in
  if intOk && fracOk && noExponent && (significant <=? 15) && notTiny then
    let body := int ++ (if Js.truthy frac' then 46%N :: frac' else []) in
    Some (if negative && negb (streq body (js "0")) then 45%N :: body else body, s3)
  else None.

(** A key that is a canonical array index: ["0"], or digits without a
    leading zero. *)
Definition isIndexKey (k : jsstring) : bool :=
  match k with
  | [] => false
  | [48%N] => true
  | 48%N :: _ => false
  | _ => forallb isDigit k
  end.

(** [o[k] = v] on the own properties: a present key keeps its place. *)
Fixpoint setField (fields : list (jsstring * JsValue)) (k : jsstring) (v : JsValue)
  : list (jsstring * JsValue) :=
  match fields with
  | [] => [(k, v)]
  | (k', v') :: rest =>
    if streq k' k then (k', v) :: rest else (k', v') :: setField rest k v
  end.

Fixpoint readValue (fuel : nat) (s : jsstring) : option (JsValue * jsstring) :=
  match fuel with
  | O => None
  | S f =>
    match skipSpace s with
    | 110%N :: 117%N :: 108%N :: 108%N :: r => Some (JNull, r)
    | 116%N :: 114%N :: 117%N :: 101%N :: r => Some (JBool true, r)
    | 102%N :: 97%N :: 108%N :: 115%N :: 101%N :: r => Some (JBool false, r)
    | 34%N :: r =>
      '(str, r') ← readString r []; Some (JStr str, r')
    | 91%N :: r =>
      match skipSpace r with
      | 93%N :: r' => Some (JArr [], r')
      | _ => readElements f r []
      end
    | 123%N :: r =>
      match skipSpace r with
      | 125%N :: r' => Some (JObj [], r')
      | _ => readMembers f r []
      end
    | _ => '(repr, r') ← readNumber (skipSpace s); Some (JNum repr, r')
    end
  end
with readElements (fuel : nat) (s : jsstring) (acc : list JsValue)
  : option (JsValue * jsstring) :=
  match fuel with
  | O => None
  | S f =>
    '(v, r) ← readValue f s;
    match skipSpace r with
    | 44%N :: r' => readElements f r' (v :: acc)
    | 93%N :: r' => Some (JArr (rev (v :: acc)), r')
    | _ => None
    end
  end
with readMembers (fuel : nat) (s : jsstring) (acc : list (jsstring * JsValue))
  : option (JsValue * jsstring) :=
  match fuel with
  | O => None
  | S f =>
    match skipSpace s with
    | 34%N :: r =>
      '(k, r1) ← readString r [];
      if isIndexKey k then None else
      match skipSpace r1 with
      | 58%N :: r2 =>
        '(v, r3) ← readValue f r2;
        match skipSpace r3 with
        | 44%N :: r4 => readMembers f r4 (setField acc k v)
        | 125%N :: r4 => Some (JObj (setField acc k v), r4)
        | _ => None
        end
      | _ => None
      end
    | _ => None
    end
  end.

Definition parse (text : jsstring) : option JsValue :=
  '(v, r) ← readValue (2 * length text + 2) text;
  match skipSpace r with
  | [] => Some v
  | _ => None
  end.

Definition hexDigit (n : N) : N := if (n <? 10)%N then (48 + n)%N else (87 + n)%N.

Definition escapeUnit (c : N) : jsstring :=
  js "\u" ++ [hexDigit (c / 4096); hexDigit (c / 256 mod 16);
              hexDigit (c / 16 mod 16); hexDigit (c mod 16)].

Definition isHighSurrogate (c : N) : bool := ((55296 <=? c) && (c <=? 56319))%N.
Definition isLowSurrogate (c : N) : bool := ((56320 <=? c) && (c <=? 57343))%N.

(** The body of a quoted string: the short escapes, [\u00xx] for the other
    control characters and [\udxxx] for a surrogate without its partner. *)
Fixpoint quoteUnits (s : jsstring) : jsstring :=
  match s with
  | [] => []
  | c :: r =>
    if (c =? 34)%N then js "\" ++ [34%N] ++ quoteUnits r
    else if (c =? 92)%N then js "\\" ++ quoteUnits r
    else if (c =? 8)%N then js "\b" ++ quoteUnits r
    else if (c =? 12)%N then js "\f" ++ quoteUnits r
    else if (c =? 10)%N then js "\n" ++ quoteUnits r
    else if (c =? 13)%N then js "\r" ++ quoteUnits r
    else if (c =? 9)%N then js "\t" ++ quoteUnits r
    else if (c <? 32)%N then escapeUnit c ++ quoteUnits r
    else if isHighSurrogate c then
      match r with
      | d :: r' =>
        if isLowSurrogate d then c :: d :: quoteUnits r'
        else escapeUnit c ++ quoteUnits r
      | [] => escapeUnit c
      end
    else if isLowSurrogate c then escapeUnit c ++ quoteUnits r
    else c :: quoteUnits r
  end.

Definition quote (s : jsstring) : jsstring := [34%N] ++ quoteUnits s ++ [34%N].

Fixpoint stringify (v : JsValue) : jsstring :=
  match v with
  | JNull => js "null"
  | JBool true => js "true"
  | JBool false => js "false"
  | JNum repr => repr
  | JStr s => quote s
  | JArr items => js "[" ++ join (js ",") (map stringify items) ++ js "]"
  | JObj fields =>
    js "{" ++
    join (js ",")
      (map (fun kv => quote (fst kv) ++ js ":" ++ stringify (snd kv)) fields)
    ++ js "}"
  end.

#[export] Instance host : Host := {|
  JSON_parse := parse;
  JSON_stringify := stringify;
  toUpperCase := map asciiUpper;
  toLowerCase := map asciiLower;
  typeErrorMessage := js "Cannot convert object to primitive value";
  VITE_DEFAULT_OPENAI_MODEL := [];
  VITE_DEFAULT_OPENAI_DEV_MODEL := [];
  VITE_DEFAULT_ANTHROPIC_MODEL := [];
  VITE_DEFAULT_XAI_MODEL := [];
  VITE_DEFAULT_GEMINI_TEXT_MODEL := []
|}.

End RefHost.

(* ===================================================================== *)
(** * The office: state, the outside world, and the effect monad *)
(* ===================================================================== *)

(** [Omit<ReportItem, "id" | "source">] and
    [Omit<OfficeMessage, "id" | "createdAt" | "source">]: what the
    persistence functions are handed. *)
Record ReportData := {
  rd_threadId : jsstring;
  rd_title : jsstring;
  rd_body : jsstring;
  rd_participants : list jsstring;
  rd_assets : list FileAsset;
  rd_createdAt : jsstring
}.

Record MessageData := {
  md_threadId : jsstring;
  md_senderId : jsstring;
  md_senderName : jsstring;
  md_senderRole : jsstring;
  md_kind : OfficeMessageKind;
  md_text : jsstring;
  md_targetIds : list jsstring;
  md_attachments : list FileAsset
}.

(** The React state of [App] that the core reads or writes. *)
Record AppState := {
  phase : WorkflowPhase;
  running : bool;
  workflowError : jsstring;
  agents : gmap jsstring AgentState;
  activeMembers : list jsstring;
  activityLogs : list ActivityLog;
  localReports : list ReportItem;
  localMessages : list OfficeMessage;
  meetingTurns : list MeetingTurn;
  actionPlans : list ActionPlanItem;
  governanceAlerts : list GovernanceAlert;
  threads : list ThreadItem;
  activeThreadId : jsstring;
  workflowAttachmentFile : option File;
  user : option User;
  devMockEnabled : bool;
  roleConfig : gmap jsstring RoleRuntimeConfig
}.

(** One updater per state variable the core writes: [setX(f)]. *)
Definition over_phase (f : WorkflowPhase -> WorkflowPhase) (s : AppState) : AppState :=
  {| phase := f (phase s); running := running s; workflowError := workflowError s;
     agents := agents s; activeMembers := activeMembers s;
     activityLogs := activityLogs s; localReports := localReports s;
     localMessages := localMessages s; meetingTurns := meetingTurns s;
     actionPlans := actionPlans s; governanceAlerts := governanceAlerts s;
     threads := threads s; activeThreadId := activeThreadId s;
     workflowAttachmentFile := workflowAttachmentFile s; user := user s;
     devMockEnabled := devMockEnabled s; roleConfig := roleConfig s |}.

Definition over_running (f : bool -> bool) (s : AppState) : AppState :=
  {| phase := phase s; running := f (running s); workflowError := workflowError s;
     agents := agents s; activeMembers := activeMembers s;
     activityLogs := activityLogs s; localReports := localReports s;
     localMessages := localMessages s; meetingTurns := meetingTurns s;
     actionPlans := actionPlans s; governanceAlerts := governanceAlerts s;
     threads := threads s; activeThreadId := activeThreadId s;
     workflowAttachmentFile := workflowAttachmentFile s; user := user s;
     devMockEnabled := devMockEnabled s; roleConfig := roleConfig s |}.

Definition over_workflowError (f : jsstring -> jsstring) (s : AppState) : AppState :=
  {| phase := phase s; running := running s; workflowError := f (workflowError s);
     agents := agents s; activeMembers := activeMembers s;
     activityLogs := activityLogs s; localReports := localReports s;
     localMessages := localMessages s; meetingTurns := meetingTurns s;
     actionPlans := actionPlans s; governanceAlerts := governanceAlerts s;
     threads := threads s; activeThreadId := activeThreadId s;
     workflowAttachmentFile := workflowAttachmentFile s; user := user s;
     devMockEnabled := devMockEnabled s; roleConfig := roleConfig s |}.

Definition over_agents (f : gmap jsstring AgentState -> gmap jsstring AgentState) (s : AppState) : AppState :=
  {| phase := phase s; running := running s; workflowError := workflowError s;
     agents := f (agents s); activeMembers := activeMembers s;
     activityLogs := activityLogs s; localReports := localReports s;
     localMessages := localMessages s; meetingTurns := meetingTurns s;
     actionPlans := actionPlans s; governanceAlerts := governanceAlerts s;
     threads := threads s; activeThreadId := activeThreadId s;
     workflowAttachmentFile := workflowAttachmentFile s; user := user s;
     devMockEnabled := devMockEnabled s; roleConfig := roleConfig s |}.

Definition over_activeMembers (f : list jsstring -> list jsstring) (s : AppState) : AppState :=
  {| phase := phase s; running := running s; workflowError := workflowError s;
     agents := agents s; activeMembers := f (activeMembers s);
     activityLogs := activityLogs s; localReports := localReports s;
     localMessages := localMessages s; meetingTurns := meetingTurns s;
     actionPlans := actionPlans s; governanceAlerts := governanceAlerts s;
     threads := threads s; activeThreadId := activeThreadId s;
     workflowAttachmentFile := workflowAttachmentFile s; user := user s;
     devMockEnabled := devMockEnabled s; roleConfig := roleConfig s |}.

Definition over_activityLogs (f : list ActivityLog -> list ActivityLog) (s : AppState) : AppState :=
  {| phase := phase s; running := running s; workflowError := workflowError s;
     agents := agents s; activeMembers := activeMembers s;
     activityLogs := f (activityLogs s); localReports := localReports s;
     localMessages := localMessages s; meetingTurns := meetingTurns s;
     actionPlans := actionPlans s; governanceAlerts := governanceAlerts s;
     threads := threads s; activeThreadId := activeThreadId s;
     workflowAttachmentFile := workflowAttachmentFile s; user := user s;
     devMockEnabled := devMockEnabled s; roleConfig := roleConfig s |}.

Definition over_localReports (f : list ReportItem -> list ReportItem) (s : AppState) : AppState :=
  {| phase := phase s; running := running s; workflowError := workflowError s;
     agents := agents s; activeMembers := activeMembers s;
     activityLogs := activityLogs s; localReports := f (localReports s);
     localMessages := localMessages s; meetingTurns := meetingTurns s;
     actionPlans := actionPlans s; governanceAlerts := governanceAlerts s;
     threads := threads s; activeThreadId := activeThreadId s;
     workflowAttachmentFile := workflowAttachmentFile s; user := user s;
     devMockEnabled := devMockEnabled s; roleConfig := roleConfig s |}.

Definition over_localMessages (f : list OfficeMessage -> list OfficeMessage) (s : AppState) : AppState :=
  {| phase := phase s; running := running s; workflowError := workflowError s;
     agents := agents s; activeMembers := activeMembers s;
     activityLogs := activityLogs s; localReports := localReports s;
     localMessages := f (localMessages s); meetingTurns := meetingTurns s;
     actionPlans := actionPlans s; governanceAlerts := governanceAlerts s;
     threads := threads s; activeThreadId := activeThreadId s;
     workflowAttachmentFile := workflowAttachmentFile s; user := user s;
     devMockEnabled := devMockEnabled s; roleConfig := roleConfig s |}.

Definition over_meetingTurns (f : list MeetingTurn -> list MeetingTurn) (s : AppState) : AppState :=
  {| phase := phase s; running := running s; workflowError := workflowError s;
     agents := agents s; activeMembers := activeMembers s;
     activityLogs := activityLogs s; localReports := localReports s;
     localMessages := localMessages s; meetingTurns := f (meetingTurns s);
     actionPlans := actionPlans s; governanceAlerts := governanceAlerts s;
     threads := threads s; activeThreadId := activeThreadId s;
     workflowAttachmentFile := workflowAttachmentFile s; user := user s;
     devMockEnabled := devMockEnabled s; roleConfig := roleConfig s |}.

Definition over_actionPlans (f : list ActionPlanItem -> list ActionPlanItem) (s : AppState) : AppState :=
  {| phase := phase s; running := running s; workflowError := workflowError s;
     agents := agents s; activeMembers := activeMembers s;
     activityLogs := activityLogs s; localReports := localReports s;
     localMessages := localMessages s; meetingTurns := meetingTurns s;
     actionPlans := f (actionPlans s); governanceAlerts := governanceAlerts s;
     threads := threads s; activeThreadId := activeThreadId s;
     workflowAttachmentFile := workflowAttachmentFile s; user := user s;
     devMockEnabled := devMockEnabled s; roleConfig := roleConfig s |}.

Definition over_governanceAlerts (f : list GovernanceAlert -> list GovernanceAlert) (s : AppState) : AppState :=
  {| phase := phase s; running := running s; workflowError := workflowError s;
     agents := agents s; activeMembers := activeMembers s;
     activityLogs := activityLogs s; localReports := localReports s;
     localMessages := localMessages s; meetingTurns := meetingTurns s;
     actionPlans := actionPlans s; governanceAlerts := f (governanceAlerts s);
     threads := threads s; activeThreadId := activeThreadId s;
     workflowAttachmentFile := workflowAttachmentFile s; user := user s;
     devMockEnabled := devMockEnabled s; roleConfig := roleConfig s |}.

Definition over_threads (f : list ThreadItem -> list ThreadItem) (s : AppState) : AppState :=
  {| phase := phase s; running := running s; workflowError := workflowError s;
     agents := agents s; activeMembers := activeMembers s;
     activityLogs := activityLogs s; localReports := localReports s;
     localMessages := localMessages s; meetingTurns := meetingTurns s;
     actionPlans := actionPlans s; governanceAlerts := governanceAlerts s;
     threads := f (threads s); activeThreadId := activeThreadId s;
     workflowAttachmentFile := workflowAttachmentFile s; user := user s;
     devMockEnabled := devMockEnabled s; roleConfig := roleConfig s |}.

Definition over_workflowAttachmentFile (f : option File -> option File) (s : AppState) : AppState :=
  {| phase := phase s; running := running s; workflowError := workflowError s;
     agents := agents s; activeMembers := activeMembers s;
     activityLogs := activityLogs s; localReports := localReports s;
     localMessages := localMessages s; meetingTurns := meetingTurns s;
     actionPlans := actionPlans s; governanceAlerts := governanceAlerts s;
     threads := threads s; activeThreadId := activeThreadId s;
     workflowAttachmentFile := f (workflowAttachmentFile s); user := user s;
     devMockEnabled := devMockEnabled s; roleConfig := roleConfig s |}.
(** What [fetch] of the generation proxy comes back with, by the cases
    [requestLlmText] tells apart: the request or the decoding of the body
    threw; a status outside 2xx with its body text; a decoded payload
    [{ text?: string }]. *)
Inductive ProxyReply :=
| FetchRejected (error : Exn)
| NotOk (status : N) (errorBody : jsstring)
| BodyRejected (error : Exn)
| Payload (text : option jsstring).

(** The outside world as a script. The first argument of every entry is
    the tick at which the core asks. *)
Record Env := {
  getIdToken : nat -> Exn + jsstring;
  fetchLlmText : nat -> LlmTextRequest -> ProxyReply;
  uploadBytes : nat -> jsstring -> File -> option Exn;
  getDownloadURL : nat -> jsstring -> Exn + jsstring;
  createObjectURL : nat -> File -> jsstring;
  addDoc : nat -> option Exn;
  Date_now : nat -> N;
  toISOString : nat -> jsstring;
  Math_random36 : nat -> jsstring;
  toLocaleTimeString : nat -> jsstring;
  formatTime : jsstring -> jsstring
}.

(** The state of a run: the React state, the tick, and what has left the
    process so far: the phases set, in order; the generation requests
    sent, in order; the documents Firestore accepted, each under the uid
    of its owner. *)
Record World := {
  app : AppState;
  tick : nat;
  phaseTrace : list WorkflowPhase;
  generated : list LlmTextRequest;
  ceoReports : list (jsstring * ReportData);
  officeMessages : list (jsstring * MessageData)
}.

Definition on_app (f : AppState -> AppState) (w : World) : World :=
  {| app := f (app w); tick := tick w; phaseTrace := phaseTrace w;
     generated := generated w; ceoReports := ceoReports w;
     officeMessages := officeMessages w |}.

Definition on_tick (f : nat -> nat) (w : World) : World :=
  {| app := app w; tick := f (tick w); phaseTrace := phaseTrace w;
     generated := generated w; ceoReports := ceoReports w;
     officeMessages := officeMessages w |}.

Definition on_phaseTrace (f : list WorkflowPhase -> list WorkflowPhase) (w : World) : World :=
  {| app := app w; tick := tick w; phaseTrace := f (phaseTrace w);
     generated := generated w; ceoReports := ceoReports w;
     officeMessages := officeMessages w |}.

Definition on_generated (f : list LlmTextRequest -> list LlmTextRequest) (w : World) : World :=
  {| app := app w; tick := tick w; phaseTrace := phaseTrace w;
     generated := f (generated w); ceoReports := ceoReports w;
     officeMessages := officeMessages w |}.

Definition on_ceoReports (f : list (jsstring * ReportData) -> list (jsstring * ReportData)) (w : World) : World :=
  {| app := app w; tick := tick w; phaseTrace := phaseTrace w; generated := generated w;
     ceoReports := f (ceoReports w); officeMessages := officeMessages w |}.

Definition on_officeMessages (f : list (jsstring * MessageData) -> list (jsstring * MessageData)) (w : World) : World :=
  {| app := app w; tick := tick w; phaseTrace := phaseTrace w; generated := generated w;
     ceoReports := ceoReports w; officeMessages := f (officeMessages w) |}.
(** ** The effect monad: state with exceptions *)

Inductive Outcome (A : Type) :=
| Return (a : A)
| Throw (error : Exn).
Arguments Return {A} a.
Arguments Throw {A} error.

Definition ST (S A : Type) : Type := S -> Outcome A * S.

#[global] Instance ST_ret {S} : MRet (ST S) := fun A a w => (Return a, w).

#[global] Instance ST_bind {S} : MBind (ST S) := fun A B k m w =>
  match m w with
  | (Return a, w') => k a w'
  | (Throw error, w') => (Throw error, w')
  end.

Definition throw {S A} (error : Exn) : ST S A := fun w => (Throw error, w).

(** [try { body } catch (error) { handler }]. *)
Definition tryCatch {S A} (body : ST S A) (handler : Exn -> ST S A) : ST S A := fun w =>
  match body w with
  | (Return a, w') => (Return a, w')
  | (Throw error, w') => handler error w'
  end.

Definition getState {S} : ST S S := fun w => (Return w, w).

Definition modify {S} (f : S -> S) : ST S unit := fun w => (Return tt, f w).

(** [for (const x of xs) { body }], [xs.forEach(body)]. *)
Fixpoint forEach {S A} (xs : list A) (body : A -> ST S unit) : ST S unit :=
  match xs with
  | [] => mret tt
  | x :: rest => body x ;; forEach rest body
  end.

(** A sequential [map] with effects. *)
Fixpoint mapM {S A B} (f : A -> ST S B) (xs : list A) : ST S (list B) :=
  match xs with
  | [] => mret []
  | x :: rest => y ← f x; ys ← mapM f rest; mret (y :: ys)
  end.

(** [for (const x of xs)] threading the loop's local variables. *)
Fixpoint foldM {S A B} (step : B -> A -> ST S B) (acc : B) (xs : list A) : ST S B :=
  match xs with
  | [] => mret acc
  | x :: rest => acc' ← step acc x; foldM step acc' rest
  end.

(** The effects of the office. *)
Abbreviation M := (ST World).

Definition getWorld : M World := getState.

(** A state setter called with an updater. *)
Definition setState (f : AppState -> AppState) : M unit := modify (on_app f).

(** One interaction with the outside: the tick it happens at. *)
Definition external : M nat := fun w => (Return (tick w), on_tick S w).

(** [Array.from(new Set(xs))]: the first occurrence of each element, in
    order. *)
Fixpoint uniqueFrom (seen xs : list jsstring) : list jsstring :=
  match xs with
  | [] => []
  | x :: rest =>
    if bool_decide (x ∈ seen) then uniqueFrom seen rest
    else x :: uniqueFrom (x :: seen) rest
  end.

Definition unique (xs : list jsstring) : list jsstring := uniqueFrom [] xs.

(** The length in bytes of the UTF-8 encoding of a string: [Blob.size]. *)
Fixpoint utf8Length (s : jsstring) : N :=
  match s with
  | [] => 0
  | c :: r =>
    if (c <? 128)%N then (1 + utf8Length r)%N
    else if (c <? 2048)%N then (2 + utf8Length r)%N
    else if RefHost.isHighSurrogate c then
      match r with
      | d :: r' =>
        if RefHost.isLowSurrogate d then (4 + utf8Length r')%N
        else (3 + utf8Length r)%N
      | [] => 3%N
      end
    else (3 + utf8Length r)%N
  end.

(** The [type] a [File] is constructed with: lower-cased, and empty when
    it has a character outside U+0020..U+007E. *)
Definition fileType (t : jsstring) : jsstring :=
  if forallb (fun c => (32 <=? c) && (c <=? 126))%N t then map asciiLower t else [].

Definition fileSize (f : File) : N := utf8Length (f_content f).

Section Office.
Context `{Host} (env : Env).

(** ** Clock and identifiers *)

Definition now : M N := n ← external; mret (Date_now env n).

Definition isoNow : M jsstring := n ← external; mret (toISOString env n).

Definition makeId : M jsstring :=
  stamp ← now;
  n ← external;
  mret (decimal stamp ++ js "-" ++ Math_random36 env n).

Definition sleep (delay : nat) : M unit := mret tt.

(** ** [lib/llm.ts] *)

Definition requestLlmText (req : LlmTextRequest) : M jsstring :=
  n ← external;
  modify (on_generated (fun l => l ++ [req])) ;;
  match fetchLlmText env n req with
  | FetchRejected error => throw error
  | NotOk status errorBody =>
    throw (JsError (js "Proxy LLM request failed (" ++ decimal status ++ js "): "
                    ++ errorBody))
  | BodyRejected error => throw error
  | Payload payloadText =>
    let text := default [] (trim <$> payloadText) in
    if Js.truthy text then mret text
    else throw (JsError (js "Proxy LLM response did not contain output text."))
  end.

Definition tryParseJson (rawText : jsstring) : option JsValue :=
  let direct := trim rawText in
  match JSON_parse direct with
  | Some value => Some value
  | None =>
    match indexOf direct 123, lastIndexOf direct 125 with
    | Some start, Some end_ =>
      if end_ <=? start then None
      else JSON_parse (slice direct start (end_ + 1))
    | _, _ => None
    end
  end.

End Office.

(* ===================================================================== *)
(** * The office: the closures of one render of [App] *)
(* ===================================================================== *)

(** [resolveRuntime]'s result. *)
Record Runtime := {
  rt_provider : LlmProvider;
  rt_model : jsstring;
  rt_apiKey : jsstring;
  rt_baseUrl : jsstring
}.

Definition randomStatusByDepartment (department : jsstring) : jsstring :=
  if streq department (js "Product") then js "우선순위 정렬"
  else if streq department (js "Engineering") then js "코드/테스트 수행"
  else if streq department (js "Design") then js "UI 명세 검증"
  else if streq department (js "Governance") then js "정책 리스크 점검"
  else if streq department (js "Growth") then js "확산 시나리오 점검"
  else if streq department (js "Strategy") then js "시장 데이터 분석"
  else js "업무 처리".

(** [name.replace(/[^a-zA-Z0-9._-]/g, "_")]. *)
Definition safeUnit (c : N) : N :=
  if ((97 <=? c) && (c <=? 122) || (65 <=? c) && (c <=? 90) || (48 <=? c) && (c <=? 57)
      || (c =? 46) || (c =? 95) || (c =? 45))%N
  then c else 95%N.

(** The test [/위반|리스크|warning|금지|불가/i] of the governance watch. *)
Definition riskPattern (reply : jsstring) : bool :=
  includesCI reply (js "위반") || includesCI reply (js "리스크")
  || includesCI reply (js "warning") || includesCI reply (js "금지")
  || includesCI reply (js "불가").

Section Render.
Context `{Host} (env : Env).

(** The render whose closures run: state variables read directly in a
    function body ([running], [activeThreadId], [user], [roleConfig],
    [workflowAttachmentFile], [devMockEnabled]) have the values of that
    render for the whole call; updaters see the current state. *)
Context (r : AppState).

Definition resolveRuntime (memberId : jsstring) : Runtime :=
  let member := getMember memberId in
  let saved := roleConfig r !! memberId in
  let provider :=
    match saved with
    | Some config => rc_provider config
    | None =>
      match member with
      | Some m => m_defaultProvider m
      | None => openai
      end
    end in
  {| rt_provider := provider;
     rt_model :=
       orElse (orElse (default [] ((fun c => trim (rc_model c)) <$> saved))
                      (getRoleDefaultModel memberId provider))
              DEFAULT_OPENAI_MODEL;
     rt_apiKey := default [] ((fun c => trim (rc_apiKey c)) <$> saved);
     rt_baseUrl := default [] ((fun c => trim (rc_baseUrl c)) <$> saved) |}.

(** The request record the callers of [requestLlmText] build. *)
Definition request (runtime : Runtime) (authToken instructions input : jsstring)
    (temperature maxOutputTokens : string) (useWebSearch : option bool) : LlmTextRequest :=
  {| rq_provider := rt_provider runtime; rq_model := rt_model runtime;
     rq_input := input; rq_instructions := Some instructions;
     rq_maxOutputTokens := Some (js maxOutputTokens);
     rq_temperature := Some (js temperature);
     rq_baseUrl := Some (rt_baseUrl runtime);
     rq_useWebSearch := useWebSearch; rq_authToken := Some authToken |}.

Definition appendLog (currentPhase : WorkflowPhase) (message : jsstring) : M unit :=
  ident ← makeId env;
  createdAt ← isoNow env;
  setState (over_activityLogs (fun previous =>
    take 140 ({| lg_id := ident; lg_threadId := activeThreadId r;
                 lg_createdAt := createdAt; lg_phase := currentPhase;
                 lg_message := message |} :: previous))).

Definition appendMeetingTurn (threadId : option jsstring) (sessionId : jsstring)
    (room : Room) (speakerId speakerName text : jsstring) (source : TurnSource) : M unit :=
  ident ← makeId env;
  createdAt ← isoNow env;
  setState (over_meetingTurns (fun previous =>
    take 320 ({| mt_id := ident;
                 mt_threadId := orElse (default [] threadId) (activeThreadId r);
                 mt_sessionId := sessionId; mt_room := room;
                 mt_speakerId := speakerId; mt_speakerName := speakerName;
                 mt_text := text; mt_createdAt := createdAt;
                 mt_source := source |} :: previous))).

(** [upsertActionPlan]: the updater reads the clock, and draws an id
    only when it creates a record. *)
Definition upsertActionPlan (memberId plan : jsstring) (source : PlanSource)
    (threadId : jsstring) : M unit :=
  match getMember memberId with
  | None => mret tt
  | Some member =>
    if negb (Js.truthy (trim plan)) then mret tt
    else
      w ← getWorld;
      stamp ← isoNow env;
      freshId ←
        match findIndex (Registry.sameKey threadId memberId) (actionPlans (app w)) with
        | None => makeId env
        | Some _ => mret []
        end;
      setState (over_actionPlans
        (Registry.upsertUpdater member memberId plan source threadId stamp freshId))
  end.

Definition getProxyAuthToken : M jsstring :=
  match user r with
  | None => mret []
  | Some _ =>
    if devMockEnabled r then mret []
    else
      n ← external;
      match getIdToken env n with
      | inr token => mret token
      | inl _ => mret []
      end
  end.

Definition updateThread (threadId : jsstring) (title : jsstring) : M unit :=
  w ← getWorld;
  next ← mapM (fun item =>
    if streq (th_id item) threadId then
      updatedAt ← isoNow env;
      mret {| th_id := th_id item; th_title := title;
              th_createdAt := th_createdAt item; th_updatedAt := updatedAt;
              th_vision := th_vision item; th_goals := th_goals item |}
    else mret item) (threads (app w));
  setState (over_threads (fun _ => next)).

(** The updater of [setMembersToDesk]. Every call of the core passes a
    status factory, so the default of the source (keep the current
    status) is not part of the embedding. *)
Definition deskUpdater (memberIds : list jsstring) (active : bool)
    (statusFactory : jsstring -> jsstring) (previous : gmap jsstring AgentState)
  : gmap jsstring AgentState :=
  foldl (fun next memberId =>
    match getMember memberId with
    | None => next
    | Some member =>
      <[memberId :=
          {| ag_target := AtPoint (m_seat member).1 (m_seat member).2;
             ag_zone := if streq memberId (js "CEO-HOBBY") then zoneCeo else zoneDesk;
             ag_status := statusFactory memberId;
             ag_active := active |}]> next
    end) previous memberIds.

Definition setMembersToDesk (memberIds : list jsstring) (active : bool)
    (statusFactory : jsstring -> jsstring) : M unit :=
  setState (over_agents (deskUpdater memberIds active statusFactory)).

(** The updater of [moveMembersToRoom]: ids without an agent are skipped. *)
Definition roomUpdater (memberIds : list jsstring) (room : Room) (status : jsstring)
    (previous : gmap jsstring AgentState) : gmap jsstring AgentState :=
  foldl (fun next '(index, memberId) =>
    match previous !! memberId with
    | None => next
    | Some current =>
      <[memberId :=
          {| ag_target := AtSpot room (index mod length COUNCIL_MEMBERS);
             ag_zone := zoneRoom room; ag_status := status;
             ag_active := true |}]> next
    end) previous (zip (seq 0 (length memberIds)) memberIds).

Definition moveMembersToRoom (memberIds : list jsstring) (room : Room)
    (status : jsstring) : M unit :=
  setState (over_agents (roomUpdater memberIds room status)).

(** The updater of [moveReportersToCEO]: reporter [index] of [n] stands
    at [x + (index - n / 2) * 2], that is [x + 2 * index - n]. *)
Definition reportersUpdater (memberIds : list jsstring)
    (previous : gmap jsstring AgentState) : gmap jsstring AgentState :=
  foldl (fun next '(index, memberId) =>
    match previous !! memberId with
    | None => next
    | Some current =>
      <[memberId :=
          {| ag_target :=
               AtPoint (CEO_REPORT_POINT.1 + 2 * Z.of_nat index
                        - Z.of_nat (length memberIds))%Z
                       (CEO_REPORT_POINT.2 + 2)%Z;
             ag_zone := zoneCeo; ag_status := js "CEO 보고 전달";
             ag_active := true |}]> next
    end) previous (zip (seq 0 (length memberIds)) memberIds).

Definition moveReportersToCEO (memberIds : list jsstring) : M unit :=
  setState (over_agents (reportersUpdater memberIds)).

Definition addLocalMessage (message : MessageData) (createdAt : jsstring) : M unit :=
  ident ← makeId env;
  setState (over_localMessages (fun previous =>
    previous ++ [{| om_id := js "local-" ++ ident; om_threadId := md_threadId message;
                    om_senderId := md_senderId message;
                    om_senderName := md_senderName message;
                    om_senderRole := md_senderRole message;
                    om_kind := md_kind message; om_text := md_text message;
                    om_targetIds := md_targetIds message;
                    om_attachments := md_attachments message;
                    om_createdAt := createdAt; om_source := local |}])).

Definition addLocalReport (report : ReportData) : M unit :=
  ident ← makeId env;
  setState (over_localReports (fun previous =>
    {| rp_id := js "local-" ++ ident; rp_threadId := rd_threadId report;
       rp_title := rd_title report; rp_body := rd_body report;
       rp_participants := rd_participants report;
       rp_createdAt := rd_createdAt report; rp_assets := rd_assets report;
       rp_source := local |} :: previous)).

Definition uploadFileAsset (file : File) (category : jsstring) : M FileAsset :=
  let safeName := map safeUnit (f_name file) in
  let mimeType := orElse (f_type file) (js "application/octet-stream") in
  match user r with
  | None =>
    ident ← makeId env;
    n ← external;
    uploadedAt ← isoNow env;
    mret {| fa_id := ident; fa_name := f_name file;
            fa_url := createObjectURL env n file; fa_mimeType := mimeType;
            fa_size := fileSize file; fa_uploadedAt := uploadedAt;
            fa_source := local; fa_path := None |}
  | Some u =>
    stamp ← now env;
    let storagePath :=
      js "hobbytan-office/" ++ u_uid u ++ js "/" ++ category ++ js "/"
      ++ decimal stamp ++ js "-" ++ safeName in
    n ← external;
    match uploadBytes env n storagePath file with
    | Some error => throw error
    | None =>
      k ← external;
      match getDownloadURL env k storagePath with
      | inl error => throw error
      | inr url =>
        ident ← makeId env;
        uploadedAt ← isoNow env;
        mret {| fa_id := ident; fa_name := f_name file; fa_url := url;
                fa_mimeType := mimeType; fa_size := fileSize file;
                fa_uploadedAt := uploadedAt; fa_source := cloud;
                fa_path := Some storagePath |}
      end
    end
  end.

Definition uploadTextAsset (content filename category mimeType : jsstring) : M FileAsset :=
  let normalizedMimeType :=
    if startsWith mimeType (js "text/")
       && negb (includes (toLowerCase mimeType) (js "charset="))
    then mimeType ++ js "; charset=utf-8"
    else mimeType in
  uploadFileAsset
    {| f_name := filename; f_type := fileType normalizedMimeType;
       f_content := 65279%N :: content |}
    category.

Definition persistOfficeMessage (payload : MessageData) : M unit :=
  createdAt ← isoNow env;
  match user r with
  | None => addLocalMessage payload createdAt
  | Some u =>
    n ← external;
    match addDoc env n with
    | None => modify (on_officeMessages (fun docs => docs ++ [(u_uid u, payload)]))
    | Some _ => addLocalMessage payload createdAt
    end
  end.

Definition persistReport (payload : ReportData) : M unit :=
  match user r with
  | None => addLocalReport payload
  | Some u =>
    n ← external;
    match addDoc env n with
    | None => modify (on_ceoReports (fun docs => docs ++ [(u_uid u, payload)]))
    | Some _ => addLocalReport payload
    end
  end.

Definition setPhase (next : WorkflowPhase) : M unit :=
  modify (on_phaseTrace (fun l => l ++ [next])) ;;
  setState (over_phase (fun _ => next)).

End Render.

(* ===================================================================== *)
(** * The office: brainstorming, management, collaboration, reporting *)
(* ===================================================================== *)

(** The line feed of the template literals. *)
Definition nl : jsstring := [10%N].

(** What [runCollaboration] accumulates from turn to turn. *)
Record Session := {
  priorDialogue : jsstring;
  notes : list CollaborationNote;
  transcript : list MeetingTurn
}.

Record ManagementPlan := {
  poPlan : jsstring;
  pmPlan : jsstring
}.

Section Workflow.
Context `{Host} (env : Env) (r : AppState).

Definition offlineStrategy : jsstring :=
  js "오프라인 전략: ATTENDANT-TAN이 PM/PO/DEV/UX/QA/LEGAL 중심으로 3단계 실행안을 구성하고 CEO에 단계별 보고한다.".

Definition brainstormInput (task : jsstring) : jsstring :=
  let roster :=
    join nl (map (fun m => m_id m ++ js ": " ++ m_identityPrompt m)
               (filter (fun m => m_id m ≠ js "CEO-HOBBY") COUNCIL_MEMBERS)) in
  join nl [
    js "CEO 지시: " ++ task;
    nl ++ js "참여 가능한 구성원/정체성:";
    roster;
    nl ++ js "반환 형식:";
    js "{" ++ dquote ++ js "strategy" ++ dquote ++ js ":" ++ dquote ++ js "문장" ++ dquote
    ++ js "," ++ dquote ++ js "participants" ++ dquote ++ js ":[" ++ dquote ++ js "PO-TAN"
    ++ dquote ++ js "]," ++ dquote ++ js "handoff" ++ dquote ++ js ":" ++ dquote
    ++ js "문장" ++ dquote ++ js "}"
  ].

(** The plan read off a parsed reply that is truthy. [String(item)] may
    throw the engine's TypeError. *)
Definition planOfParsed (parsed : JsValue) : M BrainstormPlan :=
  let strategy :=
    match Value.prop parsed (js "strategy") with
    | Some (JStr s) =>
      if Js.truthy (trim s) then trim s
      else js "전략 초안이 생성되었지만 요약이 비어 있어 기본 플랜을 사용합니다."
    | _ => js "전략 초안이 생성되었지만 요약이 비어 있어 기본 플랜을 사용합니다."
    end in
  participants ←
    match Value.prop parsed (js "participants") with
    | Some (JArr items) =>
      texts ← mapM (fun item =>
        match Value.toString item with
        | Some s => mret (trim s)
        | None => throw (JsError typeErrorMessage)
        end) items;
      mret (filter (fun s => Js.truthy s = true) texts)
    | _ => mret DEFAULT_COLLABORATION_TEAM
    end;
  let handoff :=
    match Value.prop parsed (js "handoff") with
    | Some (JStr s) =>
      if Js.truthy (trim s) then trim s
      else js "협업실 논의 종료 후 CEO에게 최종 리포트 전달"
    | _ => js "협업실 논의 종료 후 CEO에게 최종 리포트 전달"
    end in
  mret {| bp_strategy := strategy; bp_participants := participants;
          bp_handoff := handoff |}.

Definition runBrainstorm (task : jsstring) : M BrainstormPlan :=
  let runtime := resolveRuntime r (js "ATTENDANT-TAN") in
  authToken ← getProxyAuthToken env r;
  if negb (Js.truthy authToken) then
    mret {| bp_strategy := offlineStrategy;
            bp_participants := DEFAULT_COLLABORATION_TEAM;
            bp_handoff := js "협업실에서 세부 실행안 작성 후 담당자별 산출물을 CEO 좌석으로 전달" |}
  else
    text ← requestLlmText env
      (request runtime authToken
         (js "당신은 HOBBYTAN Council 조정자다. 반드시 JSON 객체만 응답하라. 코드블록 금지.")
         (brainstormInput task) "0.35" "700" None);
    match tryParseJson text with
    | Some parsed =>
      if Value.truthy parsed then planOfParsed parsed
      else
        mret {| bp_strategy := text; bp_participants := DEFAULT_COLLABORATION_TEAM;
                bp_handoff := js "협업실 세션 후 담당자가 CEO에게 보고" |}
    | None =>
      mret {| bp_strategy := text; bp_participants := DEFAULT_COLLABORATION_TEAM;
              bp_handoff := js "협업실 세션 후 담당자가 CEO에게 보고" |}
    end.

Definition runPoPmManagementPlan (task strategy : jsstring) (participants : list jsstring)
  : M ManagementPlan :=
  authToken ← getProxyAuthToken env r;
  let participantText := join (js ", ") participants in
  if negb (Js.truthy authToken) then
    mret {| poPlan := js "PO-TAN 배정안(오프라인): " ++ participantText
                      ++ js " 기준으로 고객가치/리스크 기반 우선순위를 지정";
            pmPlan := js "PM-TAN 일정안(오프라인): 담당자별 D1~D5 마일스톤과 의존성 관리" |}
  else
    let poRuntime := resolveRuntime r (js "PO-TAN") in
    let pmRuntime := resolveRuntime r (js "PM-TAN") in
    let poMember := getMember (js "PO-TAN") in
    let pmMember := getMember (js "PM-TAN") in
    po ← requestLlmText env
      (request poRuntime authToken
         (orElse (default [] (m_identityPrompt <$> poMember))
                 (js "당신은 PO-TAN이다. 우선순위 기준으로 업무를 배정한다."))
         (join (nl ++ nl) [
            js "CEO 지시: " ++ task;
            js "브레인스토밍 전략: " ++ strategy;
            js "협업 참여자: " ++ participantText;
            js "역할: 참여자별 업무 배정 + 우선순위 + 승인기준을 제시하라.";
            js "형식: 담당자별 항목을 포함한 간결한 실행 지시문"])
         "0.35" "700" None);
    pm ← requestLlmText env
      (request pmRuntime authToken
         (orElse (default [] (m_identityPrompt <$> pmMember))
                 (js "당신은 PM-TAN이다. 일정과 병목을 관리한다."))
         (join (nl ++ nl) [
            js "CEO 지시: " ++ task;
            js "브레인스토밍 전략: " ++ strategy;
            js "PO 배정안: " ++ po;
            js "역할: 담당자별 일정/WBS, 의존성, 완료 조건, 리스크 완화 순서를 명시하라."])
         "0.35" "700" None);
    mret {| poPlan := po; pmPlan := pm |}.

(** The input of one collaboration turn. *)
Definition collaborationInput (task strategy managementContext prior : jsstring) : jsstring :=
  join (nl ++ nl) [
    js "CEO 지시: " ++ task;
    js "브레인스토밍 전략: " ++ strategy;
    js "PO/PM 관리 배정안: " ++ orElse managementContext (js "없음");
    js "이전 발언 기록(먼저 말한 에이전트의 발언을 반드시 반영할 것):";
    orElse prior (js "아직 발언 없음");
    js "당신 차례: 앞선 발언을 이어받아 액션 2개 + 리스크/대응 1개 + 다음 담당자에게 넘길 한 줄을 제시하라."
  ].

(** The note that stands in for a failed generation call. *)
Definition failureNote (error : Exn) : jsstring :=
  js "호출 실패로 기본 제안 사용: "
  ++ messageOr error (js "협업 노트 생성 중 알 수 없는 오류").

Definition offlineNote (member : CouncilMember) (task : jsstring) : jsstring :=
  js "오프라인 제안: " ++ m_role member ++ js " 관점에서 '" ++ task
  ++ js "' 실행을 위한 핵심 2단계 액션, 리스크 1개, CEO 확인 포인트 1개를 제안합니다.".

(** One pass of the loop of [runCollaboration]. *)
Definition collaborationTurn (task strategy managementContext sessionId authToken : jsstring)
    (acc : Session) (memberId : jsstring) : M Session :=
  match getMember memberId with
  | None => mret acc
  | Some member =>
    sleep 320 ;;
    let runtime := resolveRuntime r memberId in
    note ←
      (if negb (Js.truthy authToken) then mret (offlineNote member task)
       else
         tryCatch
           (requestLlmText env
              (request runtime authToken (m_identityPrompt member)
                 (collaborationInput task strategy managementContext (priorDialogue acc))
                 "0.45" "700" (Some (streq memberId (js "RESEARCHER-TAN")))))
           (fun error => mret (failureNote error)));
    ident ← makeId env;
    createdAt ← isoNow env;
    let turn :=
      {| mt_id := ident; mt_threadId := activeThreadId r; mt_sessionId := sessionId;
         mt_room := roomCollaboration; mt_speakerId := m_id member;
         mt_speakerName := m_displayName member; mt_text := note;
         mt_createdAt := createdAt; mt_source := turnWorkflow |} in
    appendMeetingTurn env r None sessionId roomCollaboration (m_id member)
      (m_displayName member) note turnWorkflow ;;
    appendLog env r collaboration (m_id member ++ js " 발언 공유 완료") ;;
    mret {| priorDialogue := priorDialogue acc ++ m_id member ++ js ": " ++ note ++ nl ++ nl;
            notes := notes acc ++ [{| cn_memberId := memberId; cn_note := note |}];
            transcript := transcript acc ++ [turn] |}
  end.

Definition runCollaboration (task strategy : jsstring) (participants : list jsstring)
    (managementContext : jsstring) : M CollaborationSessionResult :=
  let selected := take 8 participants in
  stamp ← now env;
  let sessionId := js "collab-" ++ decimal stamp in
  authToken ← getProxyAuthToken env r;
  let seed :=
    if Js.truthy managementContext
    then js "PO/PM 관리 배정안:" ++ nl ++ managementContext ++ nl ++ nl
    else [] in
  final ← foldM (collaborationTurn task strategy managementContext sessionId authToken)
            {| priorDialogue := seed; notes := []; transcript := [] |} selected;
  mret {| cs_sessionId := sessionId; cs_notes := notes final;
          cs_transcript := transcript final |}.

Definition joinedPlansOf (detailedActionPlans : list ActionPlanItem) : jsstring :=
  join (nl ++ nl)
    (map (fun '(index, plan) =>
            decimalNat (index + 1) ++ js ". " ++ ap_memberId plan ++ js " ("
            ++ ap_memberName plan ++ js ")" ++ nl ++ ap_plan plan)
         (zip (seq 0 (length detailedActionPlans)) detailedActionPlans)).

Definition offlineReport (task strategy : jsstring) (notes : list CollaborationNote)
    (joinedPlans : jsstring) : jsstring :=
  join nl
    ([js "[CEO 최종 보고서 - 오프라인 모드]";
      js "지시 사항: " ++ task;
      js "전략: " ++ strategy;
      js "실행 핵심:"]
     ++ map (fun item => js "- " ++ cn_memberId item ++ js ": " ++ cn_note item) notes
     ++ [[]; js "TAN별 액션플랜:"; orElse joinedPlans (js "- 없음")]).

Definition runFinalReport (task strategy : jsstring) (notes : list CollaborationNote)
    (detailedActionPlans : list ActionPlanItem) : M jsstring :=
  let runtime := resolveRuntime r (js "ATTENDANT-TAN") in
  authToken ← getProxyAuthToken env r;
  let joinedNotes :=
    join (nl ++ nl) (map (fun item => cn_memberId item ++ js ": " ++ cn_note item) notes) in
  let joinedPlans := joinedPlansOf detailedActionPlans in
  if negb (Js.truthy authToken) then mret (offlineReport task strategy notes joinedPlans)
  else
    requestLlmText env
      (request runtime authToken
         (js "당신은 ATTENDANT-TAN이다. 대표에게 올리는 상세 경영 실행보고서를 작성한다. 절대 요약형으로 끝내지 말고, 실제 실행/개발/배포까지 이어질 수준으로 상세하게 작성한다.")
         (join (nl ++ nl) [
            js "CEO 지시: " ++ task;
            js "브레인스토밍 전략: " ++ strategy;
            js "협업실 산출물:";
            joinedNotes;
            js "TAN별 액션플랜:";
            orElse joinedPlans (js "없음");
            js "응답 형식:";
            js "1) 경영 요약(2~3문단)";
            js "2) TAN별 상세 액션플랜(담당/산출물/완료조건/예상소요/선행의존성)";
            js "3) 개발 실행안(기능 구현 범위, 테스트 계획, 품질 게이트)";
            js "4) 배포 실행안(환경/체크리스트/롤백/모니터링)";
            js "5) 리스크/법무/HR 감시 포인트";
            js "6) CEO 승인 필요 항목";
            js "7) 승인 직후 다음 플로우(오늘/내일/이번주 액션)"])
         "0.3" "2400" None).

Definition DEPLOYED_APP_URL : jsstring := js "https://automagent-8d64c.web.app".

Definition runOfficerSingleReply (memberId prompt : jsstring) (attachments : list FileAsset)
    (targetLabel prior : jsstring) : M jsstring :=
  match getMember memberId with
  | None => mret (js "역할 정보를 찾지 못했습니다.")
  | Some member =>
    let runtime := resolveRuntime r memberId in
    authToken ← getProxyAuthToken env r;
    let attachmentSummary :=
      match attachments with
      | [] => js "없음"
      | _ =>
        join nl (map (fun asset =>
                   fa_name asset ++ js " (" ++ fa_mimeType asset ++ js ", "
                   ++ decimal (fa_size asset) ++ js " bytes)") attachments)
      end in
    let devSyncInstruction :=
      if streq memberId (js "DEV-TAN") then
        join nl [
          js "DEV-TAN 추가 의무:";
          js "- GitHub 소스와 현재 배포 버전(" ++ DEPLOYED_APP_URL ++ js ") 정합성 점검";
          js "- 불일치 발견 시 재배포 체크리스트와 즉시 조치안 보고"]
      else [] in
    if negb (Js.truthy authToken) then
      mret (m_role member ++ js " 오프라인 응답: '" ++ prompt
            ++ js "'에 대한 3단계 실행안, 리스크 1개, CEO 확인 포인트 1개를 제시합니다.")
    else
      requestLlmText env
        (request runtime authToken (m_identityPrompt member)
           (join (nl ++ nl) [
              js "CEO 메시지: " ++ prompt;
              js "대상: " ++ targetLabel;
              js "첨부 파일: " ++ attachmentSummary;
              js "이전 대화 요약: " ++ orElse prior (js "없음");
              devSyncInstruction;
              js "형식: 핵심 요약 1문단 + 액션 3개 + 리스크/대응 1개 + 보고 문장 1개"])
           "0.4" "750" (Some (streq memberId (js "RESEARCHER-TAN"))))
  end.

Definition checkerId (checker : Checker) : jsstring :=
  match checker with
  | LEGAL_TAN => js "LEGAL-TAN"
  | HR_TAN => js "HR-TAN"
  end.

Definition statusText (status : AlertStatus) : jsstring :=
  match status with
  | ok => js "ok"
  | warning => js "warning"
  end.

Definition addGovernanceAlert (source : Checker) (message : jsstring)
    (status : AlertStatus) : M unit :=
  ident ← makeId env;
  createdAt ← isoNow env;
  setState (over_governanceAlerts (fun previous =>
    take 140 ({| ga_id := ident; ga_threadId := activeThreadId r; ga_source := source;
                 ga_status := status; ga_message := message;
                 ga_createdAt := createdAt |} :: previous))).

Definition runGovernanceWatch (context : jsstring) : M unit :=
  forEach [LEGAL_TAN; HR_TAN] (fun checker =>
    tryCatch
      (reply ← runOfficerSingleReply (checkerId checker)
         (js "다음 실행 맥락이 HOBBYTAN 헌법(법/규정 준수, 역할 충돌 금지, 개인정보/보안 보호)을 위반하는지 감사: "
          ++ context)
         [] (js "CEO-HOBBY") [];
       let status := if riskPattern reply then warning else ok in
       addGovernanceAlert checker reply status ;;
       appendLog env r execution
         (checkerId checker ++ js " 감시 보고 (" ++ statusText status ++ js ")"))
      (fun error =>
         let message := messageOr error (js "감시 실패") in
         addGovernanceAlert checker message warning ;;
         appendLog env r execution (checkerId checker ++ js " 감시 실패: " ++ message))).

End Workflow.

(* ===================================================================== *)
(** * The office: [startWorkflow] *)
(* ===================================================================== *)

Section StartWorkflow.
Context `{Host} (env : Env) (r : AppState).

Definition nonCeoMembers : list jsstring :=
  map m_id (filter (fun m => m_id m ≠ js "CEO-HOBBY") COUNCIL_MEMBERS).

(** The collaboration team chosen from a brainstorm plan. *)
Definition collaborationMembersOf (brainstorm : BrainstormPlan) : list jsstring :=
  let participants :=
    unique
      (filter (fun memberId => isMember memberId = true)
         (filter (fun memberId => memberId ≠ js "CEO-HOBBY")
            (map toUpperCase (bp_participants brainstorm)))) in
  match participants with
  | [] => filter (fun memberId => isMember memberId = true) DEFAULT_COLLABORATION_TEAM
  | _ => participants
  end.

(** [text.length > limit ? `${text.slice(0, limit).trim()}...` : text]. *)
Definition abbreviate (limit : nat) (text : jsstring) : jsstring :=
  if limit <? length text then trim (slice text 0 limit) ++ js "..." else text.

Definition reportPlanOf (memberId plan : jsstring) (source : PlanSource) : M ActionPlanItem :=
  ident ← makeId env;
  createdAt ← isoNow env;
  updatedAt ← isoNow env;
  mret {| ap_id := ident; ap_threadId := activeThreadId r; ap_memberId := memberId;
          ap_memberName := orElse (default [] (m_displayName <$> getMember memberId)) memberId;
          ap_plan := plan; ap_source := source; ap_createdAt := createdAt;
          ap_updatedAt := updatedAt; ap_lastExecutedAt := None;
          ap_lastExecutionSummary := None |}.

Definition deskStatus (fallback : string) (memberId : jsstring) : jsstring :=
  match getMember memberId with
  | Some member => randomStatusByDepartment (m_department member)
  | None => js fallback
  end.

(** The [try] block of [startWorkflow]. *)
Definition startWorkflowRun (trimmedTask : jsstring) : M unit :=
  appendLog env r brainstorming (js "CEO 지시 접수: " ++ trimmedTask) ;;
  setPhase brainstorming ;;
  setState (over_activeMembers (fun _ => nonCeoMembers)) ;;
  moveMembersToRoom nonCeoMembers roomBrainstorming (js "브레인스토밍 회의 진행") ;;
  setMembersToDesk [js "CEO-HOBBY"] false (fun _ => js "지시/승인 대기") ;;
  sleep 900 ;;
  brainstorm ← runBrainstorm env r trimmedTask;
  appendLog env r brainstorming (js "전략 수립 완료: " ++ bp_strategy brainstorm) ;;
  brainStamp ← now env;
  appendMeetingTurn env r None (js "brain-" ++ decimal brainStamp) roomBrainstorming
    (js "ATTENDANT-TAN") (js "ATTENDANT-TAN") (bp_strategy brainstorm) turnWorkflow ;;
  let collaborationMembers := collaborationMembersOf brainstorm in
  setPhase collaboration ;;
  setState (over_activeMembers (fun _ => collaborationMembers)) ;;
  moveMembersToRoom collaborationMembers roomCollaboration (js "협업회의실 실행 플랜 조율") ;;
  let deskMembers :=
    filter (fun memberId => memberId ∉ collaborationMembers) nonCeoMembers in
  setMembersToDesk deskMembers false (deskStatus "백로그 정리") ;;
  appendLog env r collaboration
    (decimalNat (length collaborationMembers)
     ++ js "명이 협업회의실로 이동해 실행안을 구체화합니다.") ;;
  managementPlan ← runPoPmManagementPlan env r trimmedTask (bp_strategy brainstorm)
                      collaborationMembers;
  let managementContext :=
    join nl [js "[PO-TAN 업무 배정]"; poPlan managementPlan; [];
             js "[PM-TAN 일정 관리]"; pmPlan managementPlan] in
  poStamp ← now env;
  appendMeetingTurn env r None (js "manage-" ++ decimal poStamp) roomCollaboration
    (js "PO-TAN") (js "PO-TAN") (poPlan managementPlan) turnWorkflow ;;
  upsertActionPlan env (js "PO-TAN") (poPlan managementPlan) management (activeThreadId r) ;;
  pmStamp ← now env;
  appendMeetingTurn env r None (js "manage-" ++ decimal pmStamp ++ js "-pm") roomCollaboration
    (js "PM-TAN") (js "PM-TAN") (pmPlan managementPlan) turnWorkflow ;;
  upsertActionPlan env (js "PM-TAN") (pmPlan managementPlan) management (activeThreadId r) ;;
  appendLog env r collaboration (js "PO-TAN/PM-TAN 업무 배정 및 일정 관리안 확정") ;;
  sleep 1000 ;;
  collaborationSession ← runCollaboration env r trimmedTask (bp_strategy brainstorm)
                            collaborationMembers managementContext;
  let notes := cs_notes collaborationSession in
  forEach notes (fun item =>
    upsertActionPlan env (cn_memberId item) (cn_note item) workflow (activeThreadId r)) ;;
  appendLog env r collaboration
    (js "회의 로그 기록 완료: 세션 " ++ cs_sessionId collaborationSession ++ js ", 발언 "
     ++ decimalNat (length (cs_transcript collaborationSession)) ++ js "건") ;;
  setPhase execution ;;
  setMembersToDesk collaborationMembers true (fun _ => js "개별 산출물 작성 중") ;;
  appendLog env r execution (js "협업 결과를 기반으로 각 부서가 실제 결과물을 작성합니다.") ;;
  sleep 900 ;;
  inboundAsset ←
    match workflowAttachmentFile r with
    | None => mret None
    | Some file =>
      appendLog env r execution (js "첨부 파일 업로드 시작: " ++ f_name file) ;;
      tryCatch
        (asset ← uploadFileAsset env r file (js "workflow-inputs");
         appendLog env r execution (js "첨부 파일 업로드 완료") ;;
         mret (Some asset))
        (fun error =>
           let message := messageOr error (js "스토리지 업로드 실패") in
           appendLog env r execution (js "첨부 업로드 실패(계속 진행): " ++ message) ;;
           mret None)
    end;
  setPhase reporting ;;
  moveReportersToCEO [js "ATTENDANT-TAN"; js "PM-TAN"; js "HOST-TAN"] ;;
  setMembersToDesk [js "CEO-HOBBY"] true (fun _ => js "최종 보고 수신 중") ;;
  poReportPlan ← reportPlanOf (js "PO-TAN") (poPlan managementPlan) management;
  pmReportPlan ← reportPlanOf (js "PM-TAN") (pmPlan managementPlan) management;
  noteReportPlans ← mapM (fun item =>
    reportPlanOf (cn_memberId item) (cn_note item) workflow) notes;
  let reportPlans := poReportPlan :: pmReportPlan :: noteReportPlans in
  finalReportText ← runFinalReport env r trimmedTask (bp_strategy brainstorm) notes reportPlans;
  reportDocumentAsset ←
    tryCatch
      (stamp ← now env;
       asset ← uploadTextAsset env r finalReportText
                 (js "ceo-report-" ++ decimal stamp ++ js ".md") (js "reports")
                 (js "text/markdown");
       mret (Some asset))
      (fun _ => mret None);
  meetingLogAsset ←
    match cs_transcript collaborationSession with
    | [] => mret None
    | turns =>
      tryCatch
        (let transcriptBody :=
           join (nl ++ nl)
             (map (fun turn =>
                     js "- [" ++ formatTime env (mt_createdAt turn) ++ js "] "
                     ++ mt_speakerId turn ++ js ": " ++ mt_text turn) turns) in
         asset ← uploadTextAsset env r
                   (join nl [js "# 회의 로그";
                             js "- Session: " ++ cs_sessionId collaborationSession;
                             js "- Task: " ++ trimmedTask;
                             js "- Strategy: " ++ bp_strategy brainstorm;
                             [];
                             transcriptBody])
                   (js "meeting-log-" ++ cs_sessionId collaborationSession ++ js ".md")
                   (js "reports") (js "text/markdown");
         mret (Some asset))
        (fun _ => mret None)
    end;
  let reportAssets := omap (fun a => a) [reportDocumentAsset; meetingLogAsset; inboundAsset] in
  let reportTitle := abbreviate 42 trimmedTask in
  clock ← external;
  createdAt ← isoNow env;
  let reportData :=
    {| rd_threadId := activeThreadId r;
       rd_title := js "[" ++ toLocaleTimeString env clock ++ js "] " ++ reportTitle;
       rd_body := finalReportText; rd_participants := collaborationMembers;
       rd_assets := reportAssets; rd_createdAt := createdAt |} in
  persistReport env r reportData ;;
  persistOfficeMessage env r
    {| md_threadId := activeThreadId r; md_senderId := js "ATTENDANT-TAN";
       md_senderName := js "ATTENDANT-TAN";
       md_senderRole := js "DEO / Executive Attendant"; md_kind := kindReport;
       md_text := finalReportText; md_targetIds := [js "CEO-HOBBY"];
       md_attachments := reportAssets |} ;;
  runGovernanceWatch env r
    (js "워크플로우 최종 보고: " ++ trimmedTask ++ nl ++ js "전략: " ++ bp_strategy brainstorm
     ++ nl ++ js "참여자: " ++ join (js ", ") collaborationMembers) ;;
  appendLog env r reporting
    (js "CEO 좌석으로 보고 전달 완료. 참여자: " ++ join (js ", ") collaborationMembers) ;;
  setState (over_workflowAttachmentFile (fun _ => None)) ;;
  setPhase idle ;;
  setState (over_running (fun _ => false)) ;;
  setState (over_activeMembers (fun _ => [])) ;;
  setMembersToDesk nonCeoMembers false (deskStatus "대기") ;;
  setMembersToDesk [js "CEO-HOBBY"] false (fun _ => js "다음 지시 대기").

(** The [catch] block of [startWorkflow]. *)
Definition startWorkflowRecover (error : Exn) : M unit :=
  let message := messageOr error (js "알 수 없는 오류") in
  setState (over_workflowError (fun _ => message)) ;;
  appendLog env r reporting (js "워크플로우 실패: " ++ message) ;;
  setPhase idle ;;
  setState (over_running (fun _ => false)) ;;
  setState (over_activeMembers (fun _ => [])) ;;
  setMembersToDesk (map m_id COUNCIL_MEMBERS) false (fun memberId =>
    if streq memberId (js "CEO-HOBBY") then js "다음 지시 대기" else js "오류 복구 대기").

(** What [startWorkflow] does between its guards and its [try] block. *)
Definition startWorkflowAccept (trimmedTask : jsstring) : M unit :=
  setState (over_workflowError (fun _ => [])) ;;
  setState (over_running (fun _ => true)) ;;
  updateThread env (activeThreadId r) (abbreviate 36 trimmedTask).

Definition startWorkflow (task : jsstring) : M unit :=
  if negb (Js.truthy (trim task)) then
    setState (over_workflowError (fun _ => js "CEO 지시 문장을 입력하세요."))
  else if running r then
    setState (over_workflowError (fun _ => js "이미 워크플로우가 실행 중입니다."))
  else
    let trimmedTask := trim task in
    startWorkflowAccept trimmedTask ;;
    tryCatch (startWorkflowRun trimmedTask) startWorkflowRecover.

End StartWorkflow.

(** An event handler of the render on display: its closures hold the
    state of the world at the time of the call. *)
Definition dispatchStartWorkflow `{Host} (env : Env) (task : jsstring) : M unit :=
  fun w => startWorkflow env (app w) task w.

(* ===================================================================== *)
(** * The office when [App] mounts *)
(* ===================================================================== *)

Section Mount.
Context `{Host}.

Definition createInitialAgents : gmap jsstring AgentState :=
  list_to_map
    (map (fun m =>
            (m_id m,
             {| ag_target := AtPoint (m_seat m).1 (m_seat m).2;
                ag_zone := if streq (m_id m) (js "CEO-HOBBY") then zoneCeo else zoneDesk;
                ag_status := if streq (m_id m) (js "CEO-HOBBY")
                             then js "최종 승인 대기" else js "좌석 대기";
                ag_active := false |}))
         COUNCIL_MEMBERS).

Definition createDefaultRoleConfig : gmap jsstring RoleRuntimeConfig :=
  list_to_map
    (map (fun m =>
            (m_id m,
             {| rc_provider := m_defaultProvider m; rc_model := m_defaultModel m;
                rc_apiKey := []; rc_baseUrl := [] |}))
         COUNCIL_MEMBERS).

Definition createDefaultThread (createdAt updatedAt : jsstring) : ThreadItem :=
  {| th_id := js "thread-main";
     th_title := js "Create virtual HOBBYTAN office";
     th_createdAt := createdAt;
     th_updatedAt := updatedAt;
     th_vision := js "HOBBYTAN AI Digital Office는 역할 분담형 에이전트 조직으로, CEO 지시를 실행 가능한 산출물로 빠르게 전환한다.";
     th_goals := [
       {| tg_id := js "goal-1"; tg_title := js "워크플로우 자동화 품질 향상";
          tg_description := js "브레인스토밍-협업-보고 파이프라인 정확도와 속도를 개선한다." |};
       {| tg_id := js "goal-2"; tg_title := js "문서/파일 전달 신뢰성 강화";
          tg_description := js "미리보기, 다운로드, 버전 히스토리 관리를 안정화한다." |};
       {| tg_id := js "goal-3"; tg_title := js "거버넌스 준수 자동 점검";
          tg_description := js "LEGAL/HR 감시 규칙으로 위반 가능성을 실시간 감지한다." |}] |}.

(** The state of a first mount (nothing in local storage), for a visitor
    who is or is not signed in. *)
Definition mountState (visitor : option User) (mountedAt : jsstring) : AppState :=
  {| phase := idle; running := false; workflowError := [];
     agents := createInitialAgents; activeMembers := [];
     activityLogs := []; localReports := []; localMessages := [];
     meetingTurns := []; actionPlans := []; governanceAlerts := [];
     threads := [createDefaultThread mountedAt mountedAt];
     activeThreadId := js "thread-main"; workflowAttachmentFile := None;
     user := visitor; devMockEnabled := false;
     roleConfig := createDefaultRoleConfig |}.

Definition mountWorld (visitor : option User) (mountedAt : jsstring) : World :=
  {| app := mountState visitor mountedAt; tick := 0; phaseTrace := [];
     generated := []; ceoReports := []; officeMessages := [] |}.

End Mount.

(* ===================================================================== *)
(** * The dispatch layer (the Cloud Functions service)

    The service receives a request body, picks the provider, and calls
    it over HTTP. A provider is part of the outside world: a script that
    answers the n-th call. Success payloads have the types the service
    declares for them. *)
(* ===================================================================== *)

Module Dispatch.

(** [LlmRequestBody]: every field is optional. *)
Record LlmRequestBody := {
  provider : option LlmProvider;
  model : option jsstring;
  input : option jsstring;
  instructions : option jsstring;
  maxOutputTokens : option jsstring;
  temperature : option jsstring;
  baseUrl : option jsstring;
  useWebSearch : option bool
}.

Record OpenAIContent := { oc_type : option jsstring; oc_text : option jsstring }.
Record OpenAIItem := { oi_content : option (list OpenAIContent) }.
Record OpenAIResponsesPayload := {
  output_text : option jsstring;
  output : option (list OpenAIItem)
}.

Record AnthropicContent := { ac_type : option jsstring; ac_text : option jsstring }.
Record AnthropicPayload := { content : option (list AnthropicContent) }.

Record XaiPart := { xp_text : option jsstring }.
Inductive XaiContent :=
| XaiText (text : jsstring)
| XaiParts (parts : list XaiPart).
Record XaiMessage := { xm_content : option XaiContent }.
Record XaiChoice := { xc_message : option XaiMessage }.
Record XaiPayload := { choices : option (list XaiChoice) }.

Record GeminiPart := { gp_text : option jsstring }.
Record GeminiContent := { gc_parts : option (list GeminiPart) }.
Record GeminiCandidate := { gd_content : option GeminiContent }.
Record GeminiPayload := { candidates : option (list GeminiCandidate) }.

(** One [fetch] of a provider: the endpoint, the headers, and the payload
    whose [JSON.stringify] is the body. *)
Record BackendCall := {
  bc_endpoint : jsstring;
  bc_headers : list (jsstring * jsstring);
  bc_payload : JsValue
}.

(** What a provider call comes to: [fetch] threw; a response that is not
    [ok], with its status and body text; an [ok] response whose body
    [response.json()] could not decode; an [ok] response with its
    payload. *)
Inductive BackendReply (P : Type) :=
| Rejected (error : Exn)
| Failure (status : N) (bodyText : jsstring)
| Undecodable (error : Exn)
| Success (payload : P).
Arguments Rejected {P} error.
Arguments Failure {P} status bodyText.
Arguments Undecodable {P} error.
Arguments Success {P} payload.

(** The world of the service: the secrets, the providers, and the
    verification of identity tokens. *)
Record Backend := {
  secret : LlmProvider -> option jsstring;
  openaiReply : nat -> BackendCall -> BackendReply OpenAIResponsesPayload;
  anthropicReply : nat -> BackendCall -> BackendReply AnthropicPayload;
  xaiReply : nat -> BackendCall -> BackendReply XaiPayload;
  geminiReply : nat -> BackendCall -> BackendReply GeminiPayload;
  verifyIdToken : nat -> jsstring -> option Exn
}.

(** The state of one request: the tick, and the provider calls made so
    far, in order. *)
Record Wire := {
  wireTick : nat;
  calls : list (LlmProvider * BackendCall)
}.

Abbreviation D := (ST Wire).

(** What the service answers. *)
Inductive HttpResponse :=
| Json200 (text : jsstring)
| JsonError (status : N) (error : jsstring).

Definition OPENAI_BASE : jsstring := js "https://api.openai.com/v1".
Definition ANTHROPIC_BASE : jsstring := js "https://api.anthropic.com/v1".
Definition XAI_BASE : jsstring := js "https://api.x.ai/v1".
Definition GEMINI_BASE : jsstring := js "https://generativelanguage.googleapis.com/v1beta".

Definition DISABLED_SECRET_VALUES : list jsstring :=
  [js "disabled"; js "missing"; js "not-configured"; js "none"].

(** Truthiness of a number given by its rendering. *)
Definition numberTruthy (repr : jsstring) : bool :=
  negb (streq repr (js "0") || streq repr (js "NaN")).

(** [option] as [x || fallback] on strings. *)
Definition strOr (x : option jsstring) (fallback : jsstring) : jsstring :=
  orElse (default [] x) fallback.

Definition webSearchTool : JsValue := JArr [JObj [(js "type", JStr (js "web_search_preview"))]].

Definition googleSearchTool : JsValue := JArr [JObj [(js "google_search", JObj [])]].

(** The text chunks of the [output] items of an OpenAI payload. *)
Definition outputChunks (payload : OpenAIResponsesPayload) : list jsstring :=
  flat_map (fun item =>
    omap (fun c =>
      if (bool_decide (oc_type c = Some (js "output_text"))
          || bool_decide (oc_type c = Some (js "text")))
      then oc_text c else None)
      (default [] (oi_content item)))
    (default [] (output payload)).

Definition readOpenAIText (payload : OpenAIResponsesPayload) : jsstring :=
  if Js.truthy (trim (default [] (output_text payload)))
  then trim (default [] (output_text payload))
  else trim (join nl (outputChunks payload)).

Section Service.
Context `{Host} (backend : Backend).

Definition isConfiguredSecret (value : option jsstring) : bool :=
  match value with
  | None => false
  | Some v =>
    Js.truthy v && negb (bool_decide (toLowerCase (trim v) ∈ DISABLED_SECRET_VALUES))
  end.

Definition readResponseText (text : jsstring) : JsValue :=
  match JSON_parse text with
  | Some value => value
  | None => JObj [(js "raw", JStr text)]
  end.

(** One provider call: it takes a tick and is recorded. *)
Definition call {P} (who : LlmProvider) (reply : nat -> BackendCall -> BackendReply P)
    (request : BackendCall) : D (BackendReply P) :=
  fun w =>
    (Return (reply (wireTick w) request),
     {| wireTick := S (wireTick w); calls := calls w ++ [(who, request)] |}).

Definition failed (who : string) (status : N) (bodyText : jsstring) : Exn :=
  JsError (js who ++ js " request failed (" ++ decimal status ++ js "): "
           ++ JSON_stringify (readResponseText bodyText)).

Definition requestOpenAIText (body : LlmRequestBody) : D jsstring :=
  let apiKey := secret backend openai in
  if negb (isConfiguredSecret apiKey) then
    throw (JsError (js "OPENAI_API_KEY is not configured."))
  else
    let endpoint := trimSlash (strOr (baseUrl body) OPENAI_BASE) ++ js "/responses" in
    let base :=
      [(js "model", JStr (strOr (model body) (js "gpt-5.2")));
       (js "input", JStr (strOr (input body) []))]
      ++ (if Js.truthy (default [] (instructions body))
          then [(js "instructions", JStr (default [] (instructions body)))] else [])
      ++ match maxOutputTokens body with
         | Some n => [(js "max_output_tokens", JNum n)]
         | None => []
         end in
    let callOpenAI (requestPayload : list (jsstring * JsValue)) :=
      call openai (openaiReply backend)
        {| bc_endpoint := endpoint;
           bc_headers := [(js "Content-Type", js "application/json");
                          (js "Authorization", js "Bearer " ++ default [] apiKey)];
           bc_payload := JObj requestPayload |} in
    let payload :=
      if default false (useWebSearch body) then base ++ [(js "tools", webSearchTool)]
      else base in
    let finish (json : OpenAIResponsesPayload) : D jsstring :=
      let text := readOpenAIText json in
      if Js.truthy text then mret text
      else throw (JsError (js "OpenAI response did not contain text output.")) in
    response ← callOpenAI payload;
    match response with
    | Rejected error => throw error
    | Undecodable error => throw error
    | Success json => finish json
    | Failure status bodyText =>
      if default false (useWebSearch body) then
        let fallbackPayload := Value.delete payload (js "tools") in
        response' ← callOpenAI fallbackPayload;
        match response' with
        | Rejected error => throw error
        | Undecodable error => throw error
        | Success json => finish json
        | Failure status' bodyText' => throw (failed "OpenAI" status' bodyText')
        end
      else throw (failed "OpenAI" status bodyText)
    end.

Definition requestAnthropicText (body : LlmRequestBody) : D jsstring :=
  let apiKey := secret backend anthropic in
  if negb (isConfiguredSecret apiKey) then
    throw (JsError (js "ANTHROPIC_API_KEY is not configured."))
  else
    let base := trimSlash (strOr (baseUrl body) ANTHROPIC_BASE) in
    let endpoint := if endsWith base (js "/messages") then base else base ++ js "/messages" in
    let payload :=
      [(js "model", JStr (strOr (model body) (js "claude-3-7-sonnet-latest")));
       (js "max_tokens",
        JNum (match maxOutputTokens body with
              | Some n => if numberTruthy n then n else js "1200"
              | None => js "1200"
              end));
       (js "messages",
        JArr [JObj [(js "role", JStr (js "user"));
                    (js "content", JStr (strOr (input body) []))]])]
      ++ (if Js.truthy (trim (default [] (instructions body)))
          then [(js "system", JStr (trim (default [] (instructions body))))] else [])
      ++ match temperature body with
         | Some t => [(js "temperature", JNum t)]
         | None => []
         end in
    response ← call anthropic (anthropicReply backend)
      {| bc_endpoint := endpoint;
         bc_headers := [(js "Content-Type", js "application/json");
                        (js "x-api-key", default [] apiKey);
                        (js "anthropic-version", js "2023-06-01")];
         bc_payload := JObj payload |};
    match response with
    | Rejected error => throw error
    | Undecodable error => throw error
    | Failure status bodyText => throw (failed "Anthropic" status bodyText)
    | Success json =>
      let text :=
        trim (join nl
          (omap (fun item =>
             if bool_decide (ac_type item = Some (js "text"))
             then ac_text item else None)
             (default [] (content json)))) in
      if Js.truthy text then mret text
      else throw (JsError (js "Anthropic response did not contain text output."))
    end.

Definition requestXAIText (body : LlmRequestBody) : D jsstring :=
  let apiKey := secret backend xai in
  if negb (isConfiguredSecret apiKey) then
    throw (JsError (js "XAI_API_KEY is not configured."))
  else
    let endpoint := trimSlash (strOr (baseUrl body) XAI_BASE) ++ js "/chat/completions" in
    let messages :=
      (if Js.truthy (trim (default [] (instructions body)))
       then [JObj [(js "role", JStr (js "system"));
                   (js "content", JStr (trim (default [] (instructions body))))]]
       else [])
      ++ [JObj [(js "role", JStr (js "user"));
                (js "content", JStr (strOr (input body) []))]] in
    let payload :=
      [(js "model", JStr (strOr (model body) (js "grok-4")));
       (js "messages", JArr messages)]
      ++ match maxOutputTokens body with
         | Some n => [(js "max_tokens", JNum n)]
         | None => []
         end
      ++ match temperature body with
         | Some t => [(js "temperature", JNum t)]
         | None => []
         end in
    response ← call xai (xaiReply backend)
      {| bc_endpoint := endpoint;
         bc_headers := [(js "Content-Type", js "application/json");
                        (js "Authorization", js "Bearer " ++ default [] apiKey)];
         bc_payload := JObj payload |};
    match response with
    | Rejected error => throw error
    | Undecodable error => throw error
    | Failure status bodyText => throw (failed "xAI" status bodyText)
    | Success json =>
      let content :=
        match default [] (choices json) with
        | first :: _ => xc_message first ≫= xm_content
        | [] => None
        end in
      match content with
      | Some (XaiText text) =>
        if Js.truthy (trim text) then mret (trim text)
        else throw (JsError (js "xAI response did not contain text output."))
      | Some (XaiParts parts) =>
        let text := trim (join nl (map (fun item => default [] (xp_text item)) parts)) in
        if Js.truthy text then mret text
        else throw (JsError (js "xAI response did not contain text output."))
      | None => throw (JsError (js "xAI response did not contain text output."))
      end
    end.

Definition requestGeminiText (body : LlmRequestBody) : D jsstring :=
  let apiKey := secret backend gemini in
  if negb (isConfiguredSecret apiKey) then
    throw (JsError (js "GEMINI_API_KEY is not configured."))
  else
    let endpoint :=
      trimSlash (strOr (baseUrl body) GEMINI_BASE) ++ js "/models/"
      ++ strOr (model body) (js "gemini-2.5-pro") ++ js ":generateContent" in
    let prompt :=
      if Js.truthy (trim (default [] (instructions body)))
      then join (nl ++ nl)
             [js "System instruction:" ++ nl ++ trim (default [] (instructions body));
              strOr (input body) []]
      else strOr (input body) [] in
    let generationConfig :=
      match maxOutputTokens body with
      | Some n => [(js "maxOutputTokens", JNum n)]
      | None => []
      end
      ++ match temperature body with
         | Some t => [(js "temperature", JNum t)]
         | None => []
         end in
    let payload :=
      [(js "contents",
        JArr [JObj [(js "role", JStr (js "user"));
                    (js "parts", JArr [JObj [(js "text", JStr prompt)]])]])]
      ++ match generationConfig with
         | [] => []
         | _ => [(js "generationConfig", JObj generationConfig)]
         end
      ++ (if default false (useWebSearch body) then [(js "tools", googleSearchTool)] else []) in
    response ← call gemini (geminiReply backend)
      {| bc_endpoint := endpoint;
         bc_headers := [(js "Content-Type", js "application/json");
                        (js "x-goog-api-key", default [] apiKey)];
         bc_payload := JObj payload |};
    match response with
    | Rejected error => throw error
    | Undecodable error => throw error
    | Failure status bodyText => throw (failed "Gemini text" status bodyText)
    | Success json =>
      let parts :=
        match default [] (candidates json) with
        | first :: _ => default [] (gd_content first ≫= gc_parts)
        | [] => []
        end in
      let text := trim (join nl (map (fun part => default [] (gp_text part)) parts)) in
      if Js.truthy text then mret text
      else throw (JsError (js "Gemini response did not contain text output."))
    end.

(** The provider function [handleLlmText] switches to. *)
Definition requestText (who : LlmProvider) (body : LlmRequestBody) : D jsstring :=
  match who with
  | openai => requestOpenAIText body
  | anthropic => requestAnthropicText body
  | xai => requestXAIText body
  | gemini => requestGeminiText body
  end.

Definition handleLlmText (body : LlmRequestBody) : D HttpResponse :=
  tryCatch
    (let who := default openai (provider body) in
     if negb (Js.truthy (trim (default [] (input body)))) then
       mret (JsonError 400 (js "input is required"))
     else
       text ← requestText who body;
       mret (Json200 text))
    (fun error => mret (JsonError 500 (messageOr error (js "Unknown error")))).

Definition getAuthToken (authorization : option jsstring) : jsstring :=
  match authorization with
  | Some header => if startsWith header (js "Bearer ") then drop 7 header else []
  | None => []
  end.

(** [POST /api/llm/text]: the identity check, then the handler. *)
Definition postLlmText (authorization : option jsstring) (body : LlmRequestBody)
  : D HttpResponse :=
  let token := getAuthToken authorization in
  if negb (Js.truthy token) then mret (JsonError 401 (js "Missing Firebase ID token"))
  else
    fun w =>
      match verifyIdToken backend (wireTick w) token with
      | Some error =>
        (Return (JsonError 401 (messageOr error (js "Invalid Firebase ID token"))),
         {| wireTick := S (wireTick w); calls := calls w |})
      | None => handleLlmText body {| wireTick := S (wireTick w); calls := calls w |}
      end.

End Service.

(** A request as it arrives: nothing called yet. *)
Definition idleWire : Wire := {| wireTick := 0; calls := [] |}.

(** The payload of a call carries a search tool. *)
Definition augmented (request : BackendCall) : bool :=
  match Value.prop (bc_payload request) (js "tools") with
  | Some _ => true
  | None => false
  end.

End Dispatch.

(* ===================================================================== *)
(** * The governance watcher: the activity observer of [App]

    The observer is a React effect. When one of its dependencies has
    changed, React first runs the cleanup that the previous run of the
    effect returned, if it returned one, and then runs the effect again.
    The embedding is a transition system over the three refs of the
    watcher and the timer of the current run of the effect. *)
(* ===================================================================== *)

Module Governance.

(** What a run of the effect reads from its render, and the clock. *)
Record Activity := {
  user : bool;
  devMockEnabled : bool;
  running : bool;
  threadId : jsstring;
  threadTitle : jsstring;
  visibleMessages : list OfficeMessage;
  visibleMeetingTurns : list MeetingTurn;
  now : Z
}.

Record Watcher := {
  governancePolling : bool;
  governanceLastRun : Z;
  governanceSignature : jsstring;
  (** the timer of the current run of the effect: the context it will
      audit and its delay; [None] when none is pending *)
  timer : option (jsstring * Z);
  (** the current run of the effect returned its cleanup *)
  cleanup : bool;
  (** audits started and not yet settled *)
  inFlight : nat;
  (** the contexts of the audits started so far, in order *)
  audits : list jsstring
}.

Inductive Event :=
| Render (activity : Activity)
| TimerFires
| AuditSettles (at_ : Z)
| Unmount.

(** [xs.slice(-n)]. *)
Definition lastN {A} (n : nat) (xs : list A) : list A := drop (length xs - n) xs.

Section Watch.
Context `{Host}.

Definition fingerprint (a : Activity) : jsstring :=
  JSON_stringify (JObj [
    (js "threadId", JStr (threadId a));
    (js "messages",
     JArr (map (fun item =>
                  JObj [(js "id", JStr (om_id item));
                        (js "senderId", JStr (om_senderId item));
                        (js "createdAt", JStr (om_createdAt item))])
               (lastN 4 (visibleMessages a))));
    (js "meetings",
     JArr (map (fun item =>
                  JObj [(js "id", JStr (mt_id item));
                        (js "speakerId", JStr (mt_speakerId item));
                        (js "createdAt", JStr (mt_createdAt item))])
               (lastN 6 (visibleMeetingTurns a))))]).

(** The context the timer callback audits. *)
Definition auditContext (a : Activity) : jsstring :=
  join nl
    ([js "Thread: " ++ threadTitle a; js "최근 CEO/오피서 채팅:"]
     ++ map (fun item =>
               js "- " ++ om_senderId item ++ js " -> "
               ++ orElse (join (js ",") (om_targetIds item)) (js "N/A")
               ++ js ": " ++ om_text item)
            (lastN 4 (visibleMessages a))
     ++ [js "최근 회의 발언:"]
     ++ map (fun item => js "- " ++ mt_speakerId item ++ js ": " ++ mt_text item)
            (lastN 6 (visibleMeetingTurns a))).

(** The cleanup a run of the effect returns. *)
Definition runCleanup (w : Watcher) : Watcher :=
  if cleanup w then
    {| governancePolling := false; governanceLastRun := governanceLastRun w;
       governanceSignature := governanceSignature w; timer := None;
       cleanup := false; inFlight := inFlight w; audits := audits w |}
  else w.

(** The body of the effect. *)
Definition runEffect (a : Activity) (w : Watcher) : Watcher :=
  if negb (user a) || devMockEnabled a then w
  else
    match lastN 4 (visibleMessages a), lastN 6 (visibleMeetingTurns a) with
    | [], [] => w
    | _, _ =>
      let signature := fingerprint a in
      if streq signature (governanceSignature w) then w
      else if governancePolling w || (now a - governanceLastRun w <? 45000)%Z then w
      else
        {| governancePolling := true; governanceLastRun := governanceLastRun w;
           governanceSignature := signature;
           timer := Some (auditContext a, if running a then 2500 else 7000)%Z;
           cleanup := true; inFlight := inFlight w; audits := audits w |}
    end.

Definition step (w : Watcher) (e : Event) : Watcher :=
  match e with
  | Render a => runEffect a (runCleanup w)
  | Unmount => runCleanup w
  | TimerFires =>
    match timer w with
    | None => w
    | Some (context, _) =>
      {| governancePolling := governancePolling w;
         governanceLastRun := governanceLastRun w;
         governanceSignature := governanceSignature w; timer := None;
         cleanup := cleanup w; inFlight := S (inFlight w);
         audits := audits w ++ [context] |}
    end
  | AuditSettles at_ =>
    match inFlight w with
    | O => w
    | S n =>
      {| governancePolling := false; governanceLastRun := at_;
         governanceSignature := governanceSignature w; timer := timer w;
         cleanup := cleanup w; inFlight := n; audits := audits w |}
    end
  end.

Definition run (w : Watcher) (events : list Event) : Watcher := foldl step w events.

End Watch.

(** The refs when [App] mounts. *)
Definition mounted : Watcher :=
  {| governancePolling := false; governanceLastRun := 0; governanceSignature := [];
     timer := None; cleanup := false; inFlight := 0; audits := [] |}.

End Governance.



(* ===================================================================== *)
(** * Lists, searches and strings: basic facts *)
(* ===================================================================== *)

Section ListFacts.
Context {A : Type}.
Implicit Types (test : A -> bool) (l : list A).

Lemma findIndex_None test l :
  findIndex test l = None <-> forall x, x ∈ l -> test x = false.
Proof.
  induction l as [|a l IH]; simpl.
  - split; [intros _ x Hx; inversion Hx | done].
  - destruct (test a) eqn:Ha.
    + split; [done | intros Hall; specialize (Hall a (list_elem_of_here _ _)); congruence].
    + destruct (findIndex test l) eqn:Hf; simpl.
      * split; [done | intros Hall].
        assert (Some n = None) as Hn; [| done].
        apply IH. intros x Hx. apply Hall. by constructor.
      * split; [intros _ x Hx | done].
        apply elem_of_cons in Hx as [-> | Hx]; [done | by apply IH].
Qed.

Lemma findIndex_Some test l i :
  findIndex test l = Some i ->
  exists x, l !! i = Some x /\ test x = true /\
            forall j y, j < i -> l !! j = Some y -> test y = false.
Proof.
  revert i; induction l as [|a l IH]; intros i; simpl; [done |].
  destruct (test a) eqn:Ha.
  - intros [= <-]. exists a. split_and!; [done | done | intros j y Hj; lia].
  - destruct (findIndex test l) as [k|] eqn:Hf; simpl; [| done].
    intros [= <-]. destruct (IH k eq_refl) as (x & Hx & Htx & Hbefore).
    exists x. split_and!; [done | done |].
    intros [|j] y Hj Hy; simpl in Hy; [by simplify_eq | apply (Hbefore j); [lia | done]].
Qed.

End ListFacts.

(* ===================================================================== *)
(** * The plan registry *)
(* ===================================================================== *)

Module RegistryFacts.
Import Registry.

Definition key (item : ActionPlanItem) : jsstring * jsstring :=
  (ap_threadId item, ap_memberId item).

Lemma sameKey_true threadId memberId item :
  sameKey threadId memberId item = true <-> key item = (threadId, memberId).
Proof.
  unfold sameKey, streq, key. rewrite andb_true_iff, !bool_decide_eq_true.
  split; [intros [-> ->]; done | intros [= -> ->]; done].
Qed.

Lemma sameKey_false threadId memberId item :
  sameKey threadId memberId item = false <-> key item <> (threadId, memberId).
Proof. rewrite <- sameKey_true. destruct (sameKey _ _ _); split; congruence. Qed.

Lemma elem_of_plansFor threadId memberId reg r :
  r ∈ plansFor threadId memberId reg <-> r ∈ reg /\ key r = (threadId, memberId).
Proof. unfold plansFor. rewrite list_elem_of_filter, sameKey_true. tauto. Qed.

(** At most one element of a list without repeated keys has a given key. *)
Lemma filter_key_unique (reg : list ActionPlanItem) k :
  NoDup (key <$> reg) ->
  length (filter (fun item => key item = k) reg) <= 1.
Proof.
  induction reg as [|a reg IH]; simpl; [lia |].
  rewrite NoDup_cons. intros [Hnotin Hnd]. rewrite filter_cons.
  destruct (decide (key a = k)) as [Ha | Ha]; [| by apply IH].
  simpl. destruct (filter (fun item => key item = k) reg) as [|x rest] eqn:Hf; [simpl; lia |].
  exfalso. assert (x ∈ filter (fun item => key item = k) reg) as Hx by (rewrite Hf; constructor).
  apply list_elem_of_filter in Hx as [Hk Hx].
  apply Hnotin. rewrite Ha, <- Hk. by apply list_elem_of_fmap_2.
Qed.

Lemma plansFor_as_filter threadId memberId reg :
  plansFor threadId memberId reg = filter (fun item => key item = (threadId, memberId)) reg.
Proof.
  unfold plansFor. apply list_filter_iff. intros x. apply sameKey_true.
Qed.

Section Invariant.
Context `{Host}.

Lemma run_snoc ops op : run (ops ++ [op]) = apply (run ops) op.
Proof. unfold run. apply foldl_snoc. Qed.

Lemma lastEffective_snoc threadId memberId ops op :
  lastEffective threadId memberId (ops ++ [op]) =
  if targets threadId memberId op && effective op
  then match op with Upsert _ plan _ _ _ _ => Some plan | _ => None end
  else lastEffective threadId memberId ops.
Proof.
  unfold lastEffective. rewrite filter_app, filter_cons, filter_nil.
  destruct (targets threadId memberId op && effective op) eqn:Hop.
  - rewrite decide_True by done. rewrite last_snoc. done.
  - rewrite decide_False by congruence. rewrite app_nil_r. done.
Qed.

Lemma upsertKeys_snoc ops op :
  upsertKeys (ops ++ [op]) =
  upsertKeys ops ++ match op with
                    | Upsert m _ _ t _ _ => [(t, m)]
                    | Execute _ _ _ _ => []
                    end.
Proof. unfold upsertKeys. rewrite omap_app. destruct op; done. Qed.

(** What holds of the registry after any sequence of calls: keys are not
    repeated, every record carries the trimmed text of the last effective
    upsert for its key, and every key was named by an upsert. *)
Definition consistent (ops : list Op) (reg : list ActionPlanItem) : Prop :=
  NoDup (key <$> reg) /\
  (forall r, r ∈ reg ->
     exists plan, lastEffective (ap_threadId r) (ap_memberId r) ops = Some plan /\
                  ap_plan r = trim plan) /\
  (forall r, r ∈ reg -> key r ∈ upsertKeys ops).

Lemma consistent_nil : consistent [] [].
Proof.
  split_and!; [constructor | intros r Hr; inversion Hr | intros r Hr; inversion Hr].
Qed.

Lemma targets_key threadId memberId m plan source t now freshId :
  targets threadId memberId (Upsert m plan source t now freshId) = true <->
  (t, m) = (threadId, memberId).
Proof.
  simpl. unfold streq. rewrite andb_true_iff, !bool_decide_eq_true.
  split; [intros [-> ->]; done | intros [= -> ->]; done].
Qed.

Lemma consistent_step ops reg op :
  consistent ops reg -> consistent (ops ++ [op]) (apply reg op).
Proof.
  intros (Hnd & Htext & Hkeys).
  destruct op as [m plan source t now freshId | planId reply executedAt updatedAt]; simpl.
  - (* upsert *)
    unfold upsertActionPlan.
    assert (forall r, r ∈ reg ->
              effective (Upsert m plan source t now freshId) = false \/ key r <> (t, m) ->
              exists p, lastEffective (ap_threadId r) (ap_memberId r)
                          (ops ++ [Upsert m plan source t now freshId]) = Some p /\
                        ap_plan r = trim p) as Hkeep.
    { intros r Hr Hcase. rewrite lastEffective_snoc.
      destruct (targets _ _ _ && effective _) eqn:Hop; [| by apply Htext].
      apply andb_true_iff in Hop as [Ht He].
      apply targets_key in Ht. destruct Hcase as [Hc | Hc]; [congruence | done]. }
    assert (forall r, r ∈ reg -> key r ∈ upsertKeys (ops ++ [Upsert m plan source t now freshId]))
      as Hkeys'.
    { intros r Hr. rewrite upsertKeys_snoc, elem_of_app. left. by apply Hkeys. }
    destruct (getMember m) as [mem|] eqn:Hmem; simpl.
    2:{ split_and!; [done | | done]. intros r Hr. apply Hkeep; [done |].
        left. simpl. unfold isMember. rewrite Hmem. done. }
    destruct (Js.truthy (trim plan)) eqn:Hplan.
    2:{ split_and!; [done | | done]. intros r Hr. apply Hkeep; [done |].
        left. simpl. rewrite Hplan. apply andb_false_r. }
    assert (effective (Upsert m plan source t now freshId) = true) as Heff.
    { simpl. unfold isMember. rewrite Hmem, Hplan. done. }
    unfold upsertUpdater.
    destruct (findIndex (sameKey t m) reg) as [i|] eqn:Hfind.
    + (* overwrite in place *)
      apply findIndex_Some in Hfind as (x & Hx & Hkx & _).
      apply sameKey_true in Hkx.
      split_and!.
      * rewrite (list_fmap_alter key _ (fun k => k)); [| by apply Forall_true].
        by rewrite list_alter_id.
      * intros r Hr. apply list_elem_of_lookup in Hr as [j Hj].
        rewrite list_lookup_alter in Hj. destruct (decide (i = j)) as [<- | Hij].
        -- rewrite Hx in Hj. simpl in Hj. injection Hj as <-. simpl.
           exists plan. split; [| done]. rewrite lastEffective_snoc.
           injection Hkx as -> ->.
           rewrite (proj2 (targets_key _ _ _ _ _ _ _ _) eq_refl), Heff. done.
        -- apply Hkeep; [by eapply list_elem_of_lookup_2 | right].
           intros Hkr. apply Hij.
           eapply (NoDup_lookup (key <$> reg)); [done | |].
           ++ rewrite list_lookup_fmap, Hx. simpl. by rewrite Hkx.
           ++ rewrite list_lookup_fmap, Hj. simpl. by rewrite Hkr.
      * intros r Hr. apply list_elem_of_lookup in Hr as [j Hj].
        rewrite list_lookup_alter in Hj. destruct (decide (i = j)) as [<- | Hij].
        -- rewrite Hx in Hj. simpl in Hj. injection Hj as <-.
           change (key x ∈ upsertKeys (ops ++ [Upsert m plan source t now freshId])).
           apply Hkeys'. by eapply list_elem_of_lookup_2.
        -- apply Hkeys'. by eapply list_elem_of_lookup_2.
    + (* create *)
      pose proof (proj1 (findIndex_None _ _) Hfind) as Habsent.
      set (next := {| ap_id := freshId |}).
      assert (NoDup (key <$> next :: reg)) as Hnd'.
      { rewrite fmap_cons. apply NoDup_cons. split; [| done].
        intros Hin. apply list_elem_of_fmap in Hin as (y & Hy & Hyin).
        specialize (Habsent y Hyin). apply sameKey_false in Habsent.
        apply Habsent. rewrite <- Hy. done. }
      split_and!.
      * rewrite fmap_take. eapply sublist_NoDup; [exact Hnd' | apply sublist_take].
      * intros r Hr. apply elem_of_take in Hr as (j & Hj & _).
        apply list_elem_of_lookup_2 in Hj. apply elem_of_cons in Hj as [-> | Hr].
        -- exists plan. split; [| done]. rewrite lastEffective_snoc. simpl ap_threadId. simpl ap_memberId.
           rewrite (proj2 (targets_key _ _ _ _ _ _ _ _) eq_refl), Heff. done.
        -- apply Hkeep; [done | right]. apply sameKey_false. by apply Habsent.
      * intros r Hr. apply elem_of_take in Hr as (j & Hj & _).
        apply list_elem_of_lookup_2 in Hj. apply elem_of_cons in Hj as [-> | Hr].
        -- rewrite upsertKeys_snoc, elem_of_app. right. simpl. apply list_elem_of_here.
        -- by apply Hkeys'.
  - (* execution *)
    unfold executedUpdater.
    set (g := fun item : ActionPlanItem => if streq (ap_id item) planId then _ else item).
    assert (forall item, key (g item) = key item /\ ap_plan (g item) = ap_plan item) as Hg.
    { intros item. unfold g. destruct (streq _ _); done. }
    split_and!.
    + rewrite <- list_fmap_compose.
      erewrite list_fmap_ext; [exact Hnd |]. intros i x _. simpl. apply Hg.
    + intros r Hr. apply list_elem_of_fmap in Hr as (x & -> & Hx).
      destruct (Hg x) as [Hk Hp]. injection Hk as -> ->. rewrite Hp.
      rewrite lastEffective_snoc. simpl. by apply Htext.
    + intros r Hr. apply list_elem_of_fmap in Hr as (x & -> & Hx).
      destruct (Hg x) as [-> _]. rewrite upsertKeys_snoc, app_nil_r. by apply Hkeys.
Qed.

Lemma run_consistent ops : consistent ops (run ops).
Proof.
  induction ops as [|op ops IH] using rev_ind; [apply consistent_nil |].
  rewrite run_snoc. by apply consistent_step.
Qed.

End Invariant.
End RegistryFacts.

(* ===================================================================== *)
(** * Strings: containment *)
(* ===================================================================== *)

Module JsFacts.

Lemma startsWith_spec s p :
  startsWith s p = true <-> exists post, s = p ++ post.
Proof.
  revert s; induction p as [|a p IH]; intros s.
  - destruct s; simpl; (split; [intros _; by eexists | done]).
  - destruct s as [|b s]; simpl.
    + split; [done | intros [post Hpost]; done].
    + rewrite andb_true_iff, N.eqb_eq, IH. split.
      * intros [-> [post ->]]. by exists post.
      * intros [post [= -> ->]]. split; [done | by exists post].
Qed.

Lemma includes_spec s x :
  includes s x = true <-> exists pre post, s = pre ++ x ++ post.
Proof.
  induction s as [|c s IH]; cbn [includes].
  - rewrite orb_false_r, startsWith_spec. split.
    + intros [post Hpost]. by exists [], post.
    + intros (pre & post & Heq). destruct pre; simpl in Heq; [by exists post | done].
  - rewrite orb_true_iff, startsWith_spec, IH. split.
    + intros [[post Hpost] | (pre & post & ->)].
      * by exists [], post.
      * by exists (c :: pre), post.
    + intros (pre & post & Heq). destruct pre as [|d pre]; simpl in Heq.
      * left. by exists post.
      * right. injection Heq as -> ->. by exists pre, post.
Qed.

Lemma includes_refl s : includes s s = true.
Proof. apply includes_spec. exists [], []. by rewrite app_nil_r. Qed.

Lemma includes_app_l s t x : includes s x = true -> includes (s ++ t) x = true.
Proof.
  rewrite !includes_spec. intros (pre & post & ->).
  exists pre, (post ++ t). by rewrite <- !app_assoc.
Qed.

Lemma includes_app_r s t x : includes t x = true -> includes (s ++ t) x = true.
Proof.
  rewrite !includes_spec. intros (pre & post & ->).
  exists (s ++ pre), post. by rewrite <- !app_assoc.
Qed.

Lemma includes_trans s t x :
  includes s t = true -> includes t x = true -> includes s x = true.
Proof.
  rewrite !includes_spec. intros (pre & post & ->) (pre' & post' & ->).
  exists (pre ++ pre'), (post' ++ post). by rewrite <- !app_assoc.
Qed.

Lemma includes_join sep parts p :
  p ∈ parts -> includes (join sep parts) p = true.
Proof.
  induction parts as [|q parts IH]; [intros Hin; inversion Hin |].
  intros Hin. apply elem_of_cons in Hin as [-> | Hin]; simpl.
  - destruct parts; [apply includes_refl | apply includes_app_l, includes_refl].
  - destruct parts as [|q' parts]; [inversion Hin |].
    apply includes_app_r, includes_app_r. by apply IH.
Qed.

Lemma truthy_false s : Js.truthy s = false <-> s = [].
Proof. destruct s; simpl; split; congruence. Qed.

Lemma orElse_truthy a b : Js.truthy a = true -> orElse a b = a.
Proof. unfold orElse. by intros ->. Qed.

End JsFacts.

(* ===================================================================== *)
(** * Claims about the plan registry *)
(* ===================================================================== *)

Module RegistryClaims.
Import Registry RegistryFacts.

(** The reference call used in the examples below. *)
Definition upsertOn (thread : nat) (plan : string) : Op :=
  Upsert (js "PO-TAN") (js plan) workflow (js "thread-" ++ decimalNat thread)
         (js "2026-01-01T00:00:00.000Z") (js "id-" ++ decimalNat thread).

Section Reference.
#[local] Existing Instance RefHost.host.


End Reference.

Section Claims.
Context `{Host}.


(** C9 (amended). The registry holds at most 220 records: creating a
    record beyond that drops the oldest. While the upserts of a sequence
    name no more than 220 distinct keys, no call removes a record: a key
    that has a record after a prefix of the sequence has one after the
    whole sequence. *)
Theorem plans_kept_within_cap (ops1 ops2 : list Op) (threadId memberId : jsstring) :
  length (remove_dups (upsertKeys (ops1 ++ ops2))) <= 220 ->
  plansFor threadId memberId (run ops1) <> [] ->
  plansFor threadId memberId (run (ops1 ++ ops2)) <> [].
Proof.
  induction ops2 as [|op ops2 IH] using rev_ind; [by rewrite app_nil_r |].
  rewrite app_assoc. intros Hcap Hhas.
  assert (length (remove_dups (upsertKeys (ops1 ++ ops2))) <= 220) as Hcap'.
  { etrans; [| exact Hcap]. apply submseteq_length, NoDup_submseteq.
    - apply NoDup_remove_dups.
    - intros k. rewrite !elem_of_remove_dups, upsertKeys_snoc, elem_of_app. by left. }
  specialize (IH Hcap' Hhas).
  destruct (plansFor threadId memberId (run (ops1 ++ ops2))) as [|r rest] eqn:Hfor; [done |].
  assert (r ∈ run (ops1 ++ ops2) /\ key r = (threadId, memberId)) as [Hr Hkr].
  { apply elem_of_plansFor. rewrite Hfor. constructor. }
  clear IH Hfor rest.
  destruct (run_consistent (ops1 ++ ops2)) as (Hnd & _ & Hkeys).
  assert (exists r', r' ∈ run ((ops1 ++ ops2) ++ [op]) /\ key r' = (threadId, memberId))
    as (r' & Hr' & Hkr').
  { rewrite run_snoc.
    destruct op as [m plan source t now freshId | planId reply executedAt updatedAt]; simpl.
    - unfold upsertActionPlan.
      destruct (getMember m) as [mem|] eqn:Hmem; [| by exists r].
      destruct (Js.truthy (trim plan)); [| by exists r].
      unfold upsertUpdater.
      destruct (findIndex (sameKey t m) (run (ops1 ++ ops2))) as [i|] eqn:Hfind.
      + apply list_elem_of_lookup in Hr as [j Hj].
        destruct (decide (i = j)) as [<- | Hij].
        * eexists. split.
          -- eapply list_elem_of_lookup_2. rewrite list_lookup_alter_eq, Hj. reflexivity.
          -- done.
        * exists r. split; [| done].
          eapply list_elem_of_lookup_2. by rewrite list_lookup_alter_ne.
      + exists r. split; [| done].
        rewrite take_ge; [by apply elem_of_cons; right |].
        pose proof (proj1 (findIndex_None _ _) Hfind) as Habsent.
        set (next := {| ap_id := freshId |}).
        assert (NoDup (key <$> next :: run (ops1 ++ ops2))) as Hnd'.
        { rewrite fmap_cons. apply NoDup_cons. split; [| done].
          intros Hin. apply list_elem_of_fmap in Hin as (y & Hy & Hyin).
          specialize (Habsent y Hyin). apply sameKey_false in Habsent.
          apply Habsent. rewrite <- Hy. done. }
        etrans; [| exact Hcap].
        rewrite <- (length_fmap key).
        apply submseteq_length, NoDup_submseteq; [done |].
        intros k Hk. rewrite elem_of_remove_dups, upsertKeys_snoc, elem_of_app.
        rewrite fmap_cons in Hk. apply elem_of_cons in Hk as [-> | Hk].
        -- right. simpl. apply list_elem_of_here.
        -- left. apply list_elem_of_fmap in Hk as (y & -> & Hy). by apply Hkeys.
    - unfold executedUpdater. eexists. split; [by apply list_elem_of_fmap_2 |].
      destruct (streq _ _); done. }
  intros Hnone.
  assert (r' ∈ plansFor threadId memberId (run ((ops1 ++ ops2) ++ [op]))) as Hin
    by by apply elem_of_plansFor.
  rewrite Hnone in Hin. inversion Hin.
Qed.

End Claims.

Section ReferenceCap.
#[local] Existing Instance RefHost.host.

(** C9, as stated, fails: the plan created for thread 0 is gone after 220
    further plans were created for other threads. *)
Lemma plan_removed_beyond_cap :
  let first := [upsertOn 0 "plan"] in
  let more := map (fun n => upsertOn n "plan") (seq 1 220) in
  plansFor (js "thread-0") (js "PO-TAN") (run first) <> [] /\
  plansFor (js "thread-0") (js "PO-TAN") (run (first ++ more)) = [].
Proof.
  split; [vm_compute; discriminate | vm_compute; reflexivity].
Qed.

(** Three upserts on two keys stay within the cap, and the first plan is
    still there. *)
Lemma plans_kept_within_cap_witness :
  plansFor (js "thread-0") (js "PO-TAN")
    (run ([upsertOn 0 "plan"] ++ [upsertOn 1 "plan"; upsertOn 0 " again "])) <> [].
Proof.
  apply (plans_kept_within_cap [upsertOn 0 "plan"] [upsertOn 1 "plan"; upsertOn 0 " again "]).
  - vm_compute. lia.
  - vm_compute. discriminate.
Defined.

End ReferenceCap.

End RegistryClaims.

(* ===================================================================== *)
(** * Reasoning about effects *)
(* ===================================================================== *)

Module Effects.

Section Rules.
Context {S : Type}.
Implicit Types (R : relation S) (w : S).

Lemma bind_run {A B} (m : ST S A) (k : A -> ST S B) w :
  (m ≫= k) w =
  match m w with
  | (Return a, w') => k a w'
  | (Throw error, w') => (Throw error, w')
  end.
Proof. reflexivity. Qed.

Lemma bind_return {A B} (m : ST S A) (k : A -> ST S B) w a w' :
  m w = (Return a, w') -> (m ≫= k) w = k a w'.
Proof. intros Hm. rewrite bind_run, Hm. done. Qed.

Lemma bind_throw {A B} (m : ST S A) (k : A -> ST S B) w error w' :
  m w = (Throw error, w') -> (m ≫= k) w = (Throw error, w').
Proof. intros Hm. rewrite bind_run, Hm. done. Qed.

(** [frames R m]: whatever [m] comes to, the state it leaves is related by
    [R] to the state it found. *)
Definition frames R {A} (m : ST S A) : Prop := forall w, R w (m w).2.

(** [returns R m P]: [m] does not throw, its result satisfies [P], and it
    relates the states by [R]. *)
Definition returns R {A} (m : ST S A) (P : A -> Prop) : Prop :=
  forall w, exists a w', m w = (Return a, w') /\ R w w' /\ P a.

(** The predicate transformer of a computation. *)
Definition wp {A} (m : ST S A) (Q : A -> S -> Prop) (E : Exn -> S -> Prop) : S -> Prop :=
  fun w =>
    match m w with
    | (Return a, w') => Q a w'
    | (Throw error, w') => E error w'
    end.

Context (R : relation S) `{!PreOrder R}.

Lemma returns_frames {A} (m : ST S A) P : returns R m P -> frames R m.
Proof. intros Hm w. destruct (Hm w) as (a & w' & -> & HR & _). done. Qed.

Lemma returns_weaken {A} (m : ST S A) (P Q : A -> Prop) :
  returns R m P -> (forall a, P a -> Q a) -> returns R m Q.
Proof. intros Hm HPQ w. destruct (Hm w) as (a & w' & ? & ? & ?). eauto 10. Qed.

Lemma frames_ret {A} (a : A) : frames R (mret a).
Proof. intros w. simpl. reflexivity. Qed.

Lemma frames_throw {A} error : frames R (@throw S A error).
Proof. intros w. simpl. reflexivity. Qed.

Lemma frames_bind {A B} (m : ST S A) (k : A -> ST S B) :
  frames R m -> (forall a, frames R (k a)) -> frames R (m ≫= k).
Proof.
  intros Hm Hk w. rewrite bind_run. specialize (Hm w).
  destruct (m w) as [[a | error] w']; simpl in *; [| done].
  etrans; [exact Hm | apply Hk].
Qed.

Lemma frames_tryCatch {A} (body : ST S A) handler :
  frames R body -> (forall error, frames R (handler error)) ->
  frames R (tryCatch body handler).
Proof.
  intros Hm Hk w. unfold tryCatch. specialize (Hm w).
  destruct (body w) as [[a | error] w']; simpl in *; [done |].
  etrans; [exact Hm | apply Hk].
Qed.

Lemma frames_getState : frames R getState.
Proof. intros w. simpl. reflexivity. Qed.

Lemma frames_modify (f : S -> S) : (forall w, R w (f w)) -> frames R (modify f).
Proof. intros Hf w. apply Hf. Qed.

Lemma frames_forEach {A} (xs : list A) body :
  (forall x, frames R (body x)) -> frames R (forEach xs body).
Proof.
  intros Hbody. induction xs as [|x xs IH]; simpl; [apply frames_ret |].
  apply frames_bind; [apply Hbody | done].
Qed.

Lemma frames_mapM {A B} (f : A -> ST S B) xs :
  (forall x, frames R (f x)) -> frames R (mapM f xs).
Proof.
  intros Hf. induction xs as [|x xs IH]; simpl; [apply frames_ret |].
  apply frames_bind; [apply Hf | intros y].
  apply frames_bind; [done | intros ys; apply frames_ret].
Qed.

Lemma frames_foldM {A B} (step : B -> A -> ST S B) acc xs :
  (forall acc x, frames R (step acc x)) -> frames R (foldM step acc xs).
Proof.
  intros Hstep. revert acc. induction xs as [|x xs IH]; intros acc; simpl;
    [apply frames_ret |].
  apply frames_bind; [apply Hstep | done].
Qed.

Lemma returns_ret {A} (a : A) (P : A -> Prop) : P a -> returns R (mret a) P.
Proof. intros HP w. exists a, w. done. Qed.

Lemma returns_bind {A B} (m : ST S A) (k : A -> ST S B) P Q :
  returns R m P -> (forall a, P a -> returns R (k a) Q) -> returns R (m ≫= k) Q.
Proof.
  intros Hm Hk w. destruct (Hm w) as (a & w1 & Hrun & HR & HP).
  destruct (Hk a HP w1) as (b & w2 & Hrun' & HR' & HQ).
  exists b, w2. split_and!; [| by etrans | done].
  by rewrite (bind_return _ _ _ _ _ Hrun).
Qed.

Lemma returns_seq {A B} (m : ST S A) (k : ST S B) Q :
  returns R m (fun _ => True) -> returns R k Q -> returns R (m ≫= fun _ => k) Q.
Proof. intros Hm Hk. eapply returns_bind; [exact Hm | done]. Qed.

Lemma returns_getState : returns R getState (fun _ => True).
Proof. intros w. exists w, w. done. Qed.

Lemma returns_modify (f : S -> S) :
  (forall w, R w (f w)) -> returns R (modify f) (fun _ => True).
Proof. intros Hf w. exists tt, (f w). done. Qed.

(** A guarded block whose body may throw still returns when its handler
    does. *)
Lemma returns_tryCatch {A} (body : ST S A) handler (P : A -> Prop) :
  frames R body ->
  (forall w a w', body w = (Return a, w') -> P a) ->
  (forall error, returns R (handler error) P) ->
  returns R (tryCatch body handler) P.
Proof.
  intros Hm HP Hk w. unfold tryCatch. pose proof (Hm w) as HR.
  destruct (body w) as [[a | error] w1] eqn:Hrun; simpl in HR.
  - exists a, w1. split_and!; [done | done | by eapply HP].
  - destruct (Hk error w1) as (b & w2 & -> & HR' & HQ).
    exists b, w2. split_and!; [done | by etrans | done].
Qed.

Lemma returns_tryCatch_quiet {A} (body : ST S A) handler (P : A -> Prop) :
  returns R body P -> returns R (tryCatch body handler) P.
Proof.
  intros Hm w. unfold tryCatch. destruct (Hm w) as (a & w1 & -> & HR & HP).
  by exists a, w1.
Qed.

Lemma returns_forEach {A} (xs : list A) body :
  (forall x, returns R (body x) (fun _ => True)) ->
  returns R (forEach xs body) (fun _ => True).
Proof.
  intros Hbody. induction xs as [|x xs IH]; simpl; [by apply returns_ret |].
  eapply returns_bind; [apply Hbody | done].
Qed.

Lemma returns_mapM {A B} (f : A -> ST S B) xs (P : B -> Prop) :
  (forall x, returns R (f x) P) -> returns R (mapM f xs) (Forall P).
Proof.
  intros Hf. induction xs as [|x xs IH]; simpl; [by apply returns_ret |].
  eapply returns_bind; [apply Hf | intros y Hy].
  eapply returns_bind; [exact IH | intros ys Hys].
  apply returns_ret. by constructor.
Qed.

Lemma returns_foldM {A B} (step : B -> A -> ST S B) (I : B -> Prop) acc xs :
  I acc -> (forall acc x, I acc -> returns R (step acc x) I) ->
  returns R (foldM step acc xs) I.
Proof.
  intros Hacc Hstep. revert acc Hacc.
  induction xs as [|x xs IH]; intros acc Hacc; simpl; [by apply returns_ret |].
  eapply returns_bind; [by apply Hstep | done].
Qed.

(** A step with a known result, in front of a continuation of which only
    the frame matters. *)
Lemma frames_bind_post {A B} (m : ST S A) (k : A -> ST S B) (P : A -> Prop) :
  returns R m P -> (forall a, P a -> frames R (k a)) -> frames R (m ≫= k).
Proof.
  intros Hm Hk w. destruct (Hm w) as (a & w1 & Hrun & HR & HP).
  rewrite (bind_return _ _ _ _ _ Hrun). etrans; [exact HR | apply (Hk a HP)].
Qed.

(** ** The predicate transformer *)

Lemma wp_ret {A} (a : A) Q E w : Q a w -> wp (mret a) Q E w.
Proof. done. Qed.

Lemma wp_bind {A B} (m : ST S A) (k : A -> ST S B) Q E w :
  wp m (fun a w' => wp (k a) Q E w') E w -> wp (m ≫= k) Q E w.
Proof.
  unfold wp. rewrite bind_run. destruct (m w) as [[a | error] w']; done.
Qed.

Lemma wp_tryCatch {A} (body : ST S A) handler Q E w :
  wp body Q (fun error w' => wp (handler error) Q E w') w ->
  wp (tryCatch body handler) Q E w.
Proof.
  unfold wp, tryCatch. destruct (body w) as [[a | error] w']; done.
Qed.

(** A step that returns, in front of a continuation. *)
Lemma wp_bind_returns {A B} (m : ST S A) (k : A -> ST S B) P Q E w :
  returns R m P ->
  (forall a w', R w w' -> P a -> wp (k a) Q E w') ->
  wp (m ≫= k) Q E w.
Proof.
  intros Hm Hk. destruct (Hm w) as (a & w' & Hrun & HR & HP).
  unfold wp. rewrite (bind_return _ _ _ _ _ Hrun). by apply Hk.
Qed.

(** A step that may throw, in front of a continuation. *)
Lemma wp_bind_frames {A B} (m : ST S A) (k : A -> ST S B) Q E w :
  frames R m ->
  (forall error w', R w w' -> E error w') ->
  (forall a w', R w w' -> wp (k a) Q E w') ->
  wp (m ≫= k) Q E w.
Proof.
  intros Hm HE Hk. unfold wp. rewrite bind_run. specialize (Hm w).
  destruct (m w) as [[a | error] w']; simpl in Hm; [by apply Hk | by apply HE].
Qed.

(** A computation of which only its frame is known. *)
Lemma wp_of_frames {A} (m : ST S A) Q E w :
  frames R m ->
  (forall a w', R w w' -> Q a w') ->
  (forall error w', R w w' -> E error w') ->
  wp m Q E w.
Proof.
  intros Hm HQ HE. unfold wp. specialize (Hm w).
  destruct (m w) as [[a | error] w']; simpl in Hm; [by apply HQ | by apply HE].
Qed.

Lemma wp_run {A} (m : ST S A) Q E w :
  wp m Q E w ->
  (exists a w', m w = (Return a, w') /\ Q a w') \/
  (exists error w', m w = (Throw error, w') /\ E error w').
Proof.
  unfold wp. destruct (m w) as [[a | error] w']; eauto 10.
Qed.

End Rules.

End Effects.

(* ===================================================================== *)
(** * The office: what its effects leave alone *)
(* ===================================================================== *)

Module OfficeFacts.
Import Effects.

(** The roster and the updaters over it stay folded under [simpl]. *)
Arguments COUNCIL_MEMBERS : simpl never.
Arguments DEFAULT_COLLABORATION_TEAM : simpl never.
Arguments getMember : simpl never.
Arguments nonCeoMembers : simpl never.
Arguments deskUpdater : simpl never.
Arguments roomUpdater : simpl never.
Arguments reportersUpdater : simpl never.

(** [same view]: a computation leaves the part [view] of the world as it
    found it. *)
Definition same {X} (view : World -> X) : relation World :=
  fun w w' => view w' = view w.

#[global] Instance same_preorder {X} (view : World -> X) : PreOrder (same view).
Proof. split; [by intros w | intros a b c Hab Hbc; unfold same in *; congruence]. Qed.

(** [grows]: the phases set so far are still there, in their order. *)
Definition grows : relation World :=
  fun w w' => phaseTrace w `prefix_of` phaseTrace w'.

#[global] Instance grows_preorder : PreOrder grows.
Proof.
  split; [intros w; unfold grows; reflexivity
         | intros a b c Hab Hbc; unfold grows in *; by etrans].
Qed.

(** Always related: for steps of which nothing needs to be known. *)
Definition anyhow : relation World := fun _ _ => True.

#[global] Instance anyhow_preorder : PreOrder anyhow.
Proof. split; done. Qed.

Lemma frames_external R `{!PreOrder R} :
  (forall w, R w (on_tick S w)) -> frames R external.
Proof. intros Hside w. apply Hside. Qed.

Lemma returns_external R `{!PreOrder R} :
  (forall w, R w (on_tick S w)) -> returns R external (fun _ => True).
Proof. intros Hside w. exists (tick w), (on_tick S w). done. Qed.

Ltac frame_side :=
  lazymatch goal with
  | |- PreOrder _ => apply _
  | _ =>
    intros;
    first [ exact I
          | reflexivity
          | (unfold grows; simpl; first [reflexivity | by apply prefix_app_r]) ]
  end.

Ltac frame_head m :=
  lazymatch m with
  | ?f _ => frame_head f
  | _ => m
  end.

(** Decompose a goal [frames R m] along the structure of [m]; [hook] is
    tried first at every step. *)
Ltac frame_by hook :=
  repeat first
  [ hook
  | lazymatch goal with
    | |- PreOrder _ => apply _
    | |- forall _, _ => intros
    | |- frames ?R (mret _) => apply (frames_ret R)
    | |- frames ?R (throw _) => apply (frames_throw R)
    | |- frames ?R (mbind _ _) => apply (frames_bind R)
    | |- frames ?R (tryCatch _ _) => apply (frames_tryCatch R)
    | |- frames ?R (forEach _ _) => apply (frames_forEach R)
    | |- frames ?R (mapM _ _) => apply (frames_mapM R)
    | |- frames ?R (foldM _ _ _) => apply (frames_foldM R)
    | |- frames ?R getState => apply (frames_getState R)
    | |- frames ?R getWorld => apply (frames_getState R)
    | |- frames ?R (modify _) => apply (frames_modify R); frame_side
    | |- frames ?R (setState _) => apply (frames_modify R); frame_side
    | |- frames ?R external => apply (frames_external R); frame_side
    | |- frames _ (match ?x with _ => _ end) => destruct x
    | |- frames _ (let _ := _ in _) => cbv zeta
    | |- frames _ ?m => let h := frame_head m in unfold h
    end ].

Ltac frame := frame_by fail.

Lemma returns_top_weaken R `{!PreOrder R} {A} (m : M A) (P : A -> Prop) :
  returns R m P -> returns R m (fun _ => True).
Proof. intros Hm. eapply (returns_weaken R); [exact Hm | done]. Qed.

Lemma returns_bind_top R `{!PreOrder R} {A B} (m : M A) (k : A -> M B) (Q : B -> Prop) :
  returns R m (fun _ => True) -> (forall a, returns R (k a) Q) -> returns R (m ≫= k) Q.
Proof. intros Hm Hk. eapply (returns_bind R); [exact Hm | intros a _; apply Hk]. Qed.

Lemma returns_tryCatch_top R `{!PreOrder R} {A} (body : M A) handler :
  frames R body -> (forall error, returns R (handler error) (fun _ => True)) ->
  returns R (tryCatch body handler) (fun _ => True).
Proof. intros Hb Hh. apply (returns_tryCatch R); [done | done | done]. Qed.

Lemma returns_mapM_top R `{!PreOrder R} {A B} (f : A -> M B) xs :
  (forall x, returns R (f x) (fun _ => True)) -> returns R (mapM f xs) (fun _ => True).
Proof. intros Hf. eapply (returns_top_weaken R). by apply (returns_mapM R). Qed.

Lemma returns_foldM_top R `{!PreOrder R} {A B} (step : B -> A -> M B) acc xs :
  (forall acc x, returns R (step acc x) (fun _ => True)) ->
  returns R (foldM step acc xs) (fun _ => True).
Proof. intros Hstep. apply (returns_foldM R); [done | intros; apply Hstep]. Qed.

(** Decompose a goal [returns R m (fun _ => True)] along the structure of
    [m]: it is solved when no [throw] is reached outside a guarded block.
    [hook] is tried first at every step. *)
Ltac total_by hook :=
  repeat first
  [ hook
  | lazymatch goal with
    | |- PreOrder _ => apply _
    | |- forall _, _ => intros
    | |- frames _ _ => frame_by hook
    | |- returns ?R (mret _) _ => apply (returns_ret R); exact I
    | |- returns ?R (mbind _ _) _ => apply (returns_bind_top R)
    | |- returns ?R (tryCatch _ _) _ => apply (returns_tryCatch_top R)
    | |- returns ?R (forEach _ _) _ => apply (returns_forEach R)
    | |- returns ?R (mapM _ _) _ => apply (returns_mapM_top R)
    | |- returns ?R (foldM _ _ _) _ => apply (returns_foldM_top R)
    | |- returns ?R getState _ => apply (returns_getState R)
    | |- returns ?R getWorld _ => apply (returns_getState R)
    | |- returns ?R (modify _) _ => apply (returns_modify R); frame_side
    | |- returns ?R (setState _) _ => apply (returns_modify R); frame_side
    | |- returns ?R external _ => apply (returns_external R); frame_side
    | |- returns _ (match ?x with _ => _ end) _ => destruct x
    | |- returns _ (let _ := _ in _) _ => cbv zeta
    | |- returns _ ?m _ => let h := frame_head m in unfold h
    end ].

Ltac total := total_by fail.

Section Frames.
Context `{Host} (env : Env) (r : AppState).

Lemma startWorkflowRun_grows task : frames grows (startWorkflowRun env r task).
Proof. frame. Qed.

Lemma startWorkflowRecover_grows error : frames grows (startWorkflowRecover env r error).
Proof. frame. Qed.

Lemma startWorkflowRecover_returns error :
  returns anyhow (startWorkflowRecover env r error) (fun _ => True).
Proof. total. Qed.

Lemma updateThread_returns threadId title :
  returns anyhow (updateThread env threadId title) (fun _ => True).
Proof. total. Qed.

End Frames.
End OfficeFacts.

(* ===================================================================== *)
(** * Scripts of the outside world, for concrete runs *)
(* ===================================================================== *)

Module Scenario.

(** The clock starts on 2026-01-01 and moves one millisecond a tick. *)
Definition clock (n : nat) : N := (1767225600000 + N.of_nat n)%N.

Definition stamp (n : nat) : jsstring := js "2026-01-01T00:00:00Z+" ++ decimalNat n.

(** Nothing outside answers: no token, no network, no storage. *)
Definition silent : Env :=
  {| getIdToken := fun _ => inl (JsError (js "auth/network-request-failed"));
     fetchLlmText := fun _ _ => FetchRejected (JsError (js "Failed to fetch"));
     uploadBytes := fun _ _ _ => Some (JsError (js "storage/unauthorized"));
     getDownloadURL := fun _ _ => inl (JsError (js "storage/object-not-found"));
     createObjectURL := fun n _ => js "blob:" ++ decimalNat n;
     addDoc := fun _ => Some (JsError (js "permission-denied"));
     Date_now := clock; toISOString := stamp; Math_random36 := decimalNat;
     toLocaleTimeString := fun _ => js "09:00:00";
     formatTime := fun text => text |}.

(** The identity provider hands out [token], the proxy answers with
    [reply], storage and database accept what they are given. *)
Definition answering (token : jsstring) (reply : nat -> LlmTextRequest -> ProxyReply) : Env :=
  {| getIdToken := fun _ => inr token;
     fetchLlmText := reply;
     uploadBytes := fun _ _ _ => None;
     getDownloadURL := fun _ path => inr (js "https://storage.example/" ++ path);
     createObjectURL := fun n _ => js "blob:" ++ decimalNat n;
     addDoc := fun _ => None;
     Date_now := clock; toISOString := stamp; Math_random36 := decimalNat;
     toLocaleTimeString := fun _ => js "09:00:00";
     formatTime := fun text => text |}.

Definition visitor : User := {| u_uid := js "uid-1" |}.

Section Worlds.
#[local] Existing Instance RefHost.host.

(** The office right after mounting, for a visitor who is not signed in
    and for one who is. *)
Definition anonymousOffice : World := mountWorld None (stamp 0).

Definition signedInOffice : World := mountWorld (Some visitor) (stamp 0).

End Worlds.
End Scenario.

(* ===================================================================== *)
(** * The phase state machine: guards and the way back to [idle] *)
(* ===================================================================== *)

Module WorkflowClaims.
Import Effects OfficeFacts.

Section Desk.
Context `{Host}.

Lemma getMember_of_roster m :
  m ∈ COUNCIL_MEMBERS -> exists m', getMember (m_id m) = Some m' /\ m_id m' = m_id m.
Proof.
  intros Hm. unfold getMember.
  destruct (find _ COUNCIL_MEMBERS) as [m'|] eqn:Hfind.
  - exists m'. split; [done |]. apply find_some in Hfind as [_ Hid].
    unfold streq in Hid. by apply bool_decide_eq_true in Hid.
  - apply list_elem_of_In in Hm. eapply find_none in Hfind; [| exact Hm].
    unfold streq in Hfind. simpl in Hfind. by apply bool_decide_eq_false in Hfind.
Qed.

Lemma getMember_id memberId m : getMember memberId = Some m -> m_id m = memberId.
Proof.
  unfold getMember. intros Hfind. apply find_some in Hfind as [_ Hid].
  unfold streq in Hid. by apply bool_decide_eq_true in Hid.
Qed.

(** What [deskUpdater] leaves under an id. *)
Lemma deskUpdater_lookup memberIds active statusFactory previous memberId :
  (memberId ∉ memberIds ->
     deskUpdater memberIds active statusFactory previous !! memberId = previous !! memberId) /\
  (memberId ∈ memberIds -> is_Some (getMember memberId) ->
     exists a, deskUpdater memberIds active statusFactory previous !! memberId = Some a /\
               ag_active a = active /\ ag_status a = statusFactory memberId).
Proof.
  unfold deskUpdater. revert previous.
  induction memberIds as [|x l IH]; intros previous; simpl.
  - split; [done | intros Hin; inversion Hin].
  - set (next := match getMember x with None => previous | Some _ => _ end).
    destruct (IH next) as [IHout IHin]. split.
    + intros Hnotin. apply not_elem_of_cons in Hnotin as [Hne Hnotin].
      rewrite IHout by done. unfold next.
      destruct (getMember x); [by rewrite lookup_insert_ne | done].
    + intros Hin Hmem. destruct (decide (memberId ∈ l)) as [Hl | Hl]; [by apply IHin |].
      apply elem_of_cons in Hin as [-> | Hin]; [| done].
      rewrite IHout by done. unfold next. destruct Hmem as [m ->].
      rewrite lookup_insert_eq. eexists. split; [reflexivity | done].
Qed.

Lemma roster_inactive_after_desk_one memberIds statusFactory previous m :
  m_id m ∈ memberIds -> m ∈ COUNCIL_MEMBERS ->
  exists a, deskUpdater memberIds false statusFactory previous !! m_id m = Some a /\
            ag_active a = false.
Proof.
  intros Hin Hm.
  destruct (getMember_of_roster m Hm) as (m' & Hget & _).
  destruct (deskUpdater_lookup memberIds false statusFactory previous (m_id m)) as [_ Hlook].
  destruct Hlook as (a & Ha & Hact & _); [done | by eexists |]. by exists a.
Qed.

End Desk.

Section Guards.
Context `{Host} (env : Env).

(** The guards of [startWorkflow] read the directive and the [running]
    flag of the render the function was made in. A call they reject
    returns at once, and nothing but the error line shown to the user
    changes: no tick is taken, no phase set, no request sent, nothing
    stored. *)
Lemma rejected_without_effect (r : AppState) (task : jsstring) (w : World) :
  Js.truthy (trim task) = false \/ running r = true ->
  exists message,
    startWorkflow env r task w
    = (Return tt, on_app (over_workflowError (fun _ => message)) w).
Proof.
  intros Hguard. unfold startWorkflow.
  destruct (Js.truthy (trim task)) eqn:Htask; cbn [negb]; cbv iota.
  - destruct (running r) eqn:Hrun; [| by destruct Hguard].
    eexists. reflexivity.
  - eexists. reflexivity.
Qed.

End Guards.

Section Settling.
Context `{Host} (env : Env).

(** The state every run ends in. *)
Definition settled (w : World) : Prop :=
  phase (app w) = idle /\ running (app w) = false /\ activeMembers (app w) = [] /\
  (forall m, m ∈ COUNCIL_MEMBERS ->
     exists a, agents (app w) !! m_id m = Some a /\ ag_active a = false) /\
  last (phaseTrace w) = Some idle.

Lemma frames_anyhow {A} (m : M A) : frames anyhow m.
Proof. intros w. exact I. Qed.

(** Walk a [try] block down to its last statements, whatever happens on
    the way. *)
Ltac skip_to_tail :=
  repeat lazymatch goal with
  | |- wp (setState (over_workflowAttachmentFile _) ≫= _) _ _ _ => fail
  | |- wp (let _ := _ in _) _ _ _ => cbv zeta
  | |- wp (_ ≫= _) _ _ _ =>
    apply (wp_bind_frames anyhow);
    [apply frames_anyhow | done | intros ? ? _; cbv beta]
  end.

Lemma nonCeoMembers_spec m :
  m ∈ COUNCIL_MEMBERS -> m_id m <> js "CEO-HOBBY" -> m_id m ∈ nonCeoMembers.
Proof.
  intros Hm Hne. unfold nonCeoMembers. apply list_elem_of_fmap_2.
  by apply list_elem_of_filter.
Qed.

Lemma tail_inactive previous m :
  m ∈ COUNCIL_MEMBERS ->
  exists a,
    deskUpdater [js "CEO-HOBBY"] false (fun _ => js "다음 지시 대기")
      (deskUpdater nonCeoMembers false (deskStatus "대기") previous) !! m_id m = Some a /\
    ag_active a = false.
Proof.
  intros Hm. destruct (decide (m_id m = js "CEO-HOBBY")) as [Hceo | Hceo].
  - apply roster_inactive_after_desk_one; [| done].
    rewrite Hceo. apply list_elem_of_here.
  - edestruct (deskUpdater_lookup [js "CEO-HOBBY"] false) as [Hout _].
    rewrite Hout; [| apply not_elem_of_cons; split; [done | apply not_elem_of_nil]].
    apply roster_inactive_after_desk_one; [| done]. by apply nonCeoMembers_spec.
Qed.

Lemma run_settles r trimmedTask w :
  wp (startWorkflowRun env r trimmedTask) (fun _ w' => settled w') (fun _ _ => True) w.
Proof.
  unfold startWorkflowRun. skip_to_tail. hnf. split_and!; try reflexivity.
  - intros m Hm. by apply tail_inactive.
  - apply last_snoc.
Qed.

(** The [catch] block always returns, leaves the office settled, shows
    the message of the failure and logs it. *)
Lemma recover_settles r error w :
  exists w',
    startWorkflowRecover env r error w = (Return tt, w') /\ settled w' /\
    workflowError (app w') = messageOr error (js "알 수 없는 오류") /\
    exists entry,
      head (activityLogs (app w')) = Some entry /\ lg_phase entry = reporting /\
      lg_message entry = js "워크플로우 실패: " ++ messageOr error (js "알 수 없는 오류").
Proof.
  eexists. split; [reflexivity |]. unfold settled. split_and!; try reflexivity.
  - intros m Hm. apply roster_inactive_after_desk_one; [| done].
    by apply list_elem_of_fmap_2.
  - apply last_snoc.
  - eexists. split_and!; reflexivity.
Qed.

Lemma wp_setPhase {A} next (k : unit -> M A) Q E w :
  wp (k tt) Q E (on_app (over_phase (fun _ => next))
                   (on_phaseTrace (fun l => l ++ [next]) w)) ->
  wp (setPhase next ≫= k) Q E w.
Proof. done. Qed.

(** What [startWorkflow] has done when it enters its [try] block. *)
Lemma accept_run r trimmedTask w :
  exists w0,
    startWorkflowAccept env r trimmedTask w = (Return tt, w0) /\
    workflowError (app w0) = [] /\ running (app w0) = true /\
    phaseTrace w0 = phaseTrace w.
Proof.
  assert (returns (same (fun w => (workflowError (app w), running (app w), phaseTrace w)))
            (updateThread env (activeThreadId r) (abbreviate 36 trimmedTask))
            (fun _ => True)) as Hthread by total.
  unfold startWorkflowAccept.
  repeat (rewrite bind_run; cbn [setState modify]; cbv beta iota).
  match goal with |- context [updateThread _ _ _ ?w1] =>
    destruct (Hthread w1) as ([] & w0 & Hrun & Hsame & _) end.
  exists w0. rewrite Hrun. split; [reflexivity |].
  unfold same in Hsame. injection Hsame as Herror Hrunning Htrace.
  split; [exact Herror |]. split; [exact Hrunning | exact Htrace].
Qed.

(** The [try] block never touches the error line. *)
Lemma run_keeps_error_line r trimmedTask :
  frames (same (fun w => workflowError (app w))) (startWorkflowRun env r trimmedTask).
Proof. frame. Qed.

(** A call that passes the guards returns, and the first thing its run
    does to the phase is to enter brainstorming. *)
Lemma accepted_enters r task w :
  Js.truthy (trim task) = true -> running r = false ->
  exists w' rest,
    startWorkflow env r task w = (Return tt, w') /\
    phaseTrace w' = phaseTrace w ++ brainstorming :: rest.
Proof.
  intros Htask Hrun. unfold startWorkflow.
  rewrite Htask, Hrun. cbv zeta. cbn [negb]. cbv iota.
  destruct (accept_run r (trim task) w) as (w0 & Hrun0 & _ & _ & Hsame0).
  rewrite (bind_return _ _ _ _ _ Hrun0).
  assert (wp (startWorkflowRun env r (trim task))
            (fun _ w1 => (phaseTrace w ++ [brainstorming]) `prefix_of` phaseTrace w1)
            (fun _ w1 => (phaseTrace w ++ [brainstorming]) `prefix_of` phaseTrace w1) w0)
    as Hbody.
  { unfold startWorkflowRun.
    apply (wp_bind_returns (same phaseTrace) _ _ (fun _ => True)); [total |].
    intros [] w1 Hsame1 _. apply wp_setPhase.
    apply (wp_of_frames grows); [frame | |];
      intros ? w2 Hgrows; unfold grows in Hgrows; simpl in Hgrows;
      unfold same in *; by rewrite Hsame1, Hsame0 in Hgrows. }
  unfold wp in Hbody. unfold tryCatch.
  destruct (startWorkflowRun env r (trim task) w0) as [[[] | error] w1].
  - destruct Hbody as [rest Hrest]. exists w1, rest. split; [done |].
    by rewrite Hrest, <- app_assoc.
  - destruct (recover_settles r error w1) as (w' & Hrec & _).
    pose proof (startWorkflowRecover_grows env r error w1) as Hgrows.
    rewrite Hrec in Hgrows. unfold grows in Hgrows. simpl in Hgrows.
    destruct (transitivity Hbody Hgrows) as [rest Hrest].
    exists w', rest. split; [done |]. by rewrite Hrest, <- app_assoc.
Qed.

Lemma accepted_run_enters task w :
  Js.truthy (trim task) = true -> running (app w) = false ->
  exists w' rest,
    dispatchStartWorkflow env task w = (Return tt, w') /\
    phaseTrace w' = phaseTrace w ++ brainstorming :: rest.
Proof. intros Htask Hrun. by apply (accepted_enters (app w)). Qed.

(** The log entry of a failed run. *)
Definition failureLogged (message : jsstring) (w : World) : Prop :=
  exists entry,
    head (activityLogs (app w)) = Some entry /\ lg_phase entry = reporting /\
    lg_message entry = js "워크플로우 실패: " ++ message.

(** How a call that passed the guards ends, by the way its [try] block
    ended: without an error line after a run that went through; after a
    run that threw an [Error], with the message of that error as the
    error line and in the log; after a run that threw anything else,
    with the fixed text. *)
Definition ended (outcome : Outcome unit * World) (w' : World) : Prop :=
  match outcome with
  | (Return _, w1) => w' = w1 /\ workflowError (app w') = []
  | (Throw (JsError message), _) =>
    workflowError (app w') = message /\ failureLogged message w'
  | (Throw JsNonError, _) =>
    workflowError (app w') = js "알 수 없는 오류" /\
    failureLogged (js "알 수 없는 오류") w'
  end.

Lemma accepted_settles r task w :
  Js.truthy (trim task) = true -> running r = false ->
  exists w0 w',
    startWorkflowAccept env r (trim task) w = (Return tt, w0) /\
    startWorkflow env r task w = (Return tt, w') /\
    settled w' /\
    ended (startWorkflowRun env r (trim task) w0) w'.
Proof.
  intros Htask Hrun. unfold startWorkflow.
  rewrite Htask, Hrun. cbv zeta. cbn [negb]. cbv iota.
  destruct (accept_run r (trim task) w) as (w0 & Hrun0 & Hline & _ & _).
  exists w0. rewrite (bind_return _ _ _ _ _ Hrun0). unfold tryCatch.
  pose proof (run_settles r (trim task) w0) as Hbody. unfold wp in Hbody.
  pose proof (run_keeps_error_line r (trim task) w0) as Hkept.
  unfold same in Hkept.
  destruct (startWorkflowRun env r (trim task) w0) as [[[] | error] w1].
  - exists w1. split_and!; [done | done | done |].
    cbn [ended]. split; [done |]. cbn [snd] in Hkept. by rewrite Hkept.
  - destruct (recover_settles r error w1) as (w' & Hrec & Hset & Herr & Hlog).
    exists w'. split_and!; [done | done | done |].
    destruct error as [message |]; cbn [ended messageOr] in *; by split.
Qed.

(** C4. The guard against a second run reads the [running] flag of the
    render in which [startWorkflow] was made, not the flag of the
    office. While a run is in progress, a call from a render that came
    before that run (the flag it holds is still false) passes the guard:
    it enters brainstorming, runs to its end, and leaves the running
    flag cleared and the phase idle while the first run is still going
    on. The same call from the render on display is rejected, and only
    the error line changes. *)
Theorem guard_misses_run_in_progress (r : AppState) (task : jsstring) (w : World) :
  Js.truthy (trim task) = true -> running r = false -> running (app w) = true ->
  (exists w' rest,
     startWorkflow env r task w = (Return tt, w') /\
     phaseTrace w' = phaseTrace w ++ brainstorming :: rest /\
     running (app w') = false /\ phase (app w') = idle /\
     activeMembers (app w') = []) /\
  dispatchStartWorkflow env task w
  = (Return tt,
     on_app (over_workflowError (fun _ => js "이미 워크플로우가 실행 중입니다.")) w).
Proof.
  intros Htask Hstale Hbusy. split.
  - destruct (accepted_enters r task w Htask Hstale) as (w' & rest & Hrun & Htrace).
    destruct (accepted_settles r task w Htask Hstale) as (_ & w'2 & _ & Hrun2 & Hset & _).
    rewrite Hrun in Hrun2. injection Hrun2 as <-.
    exists w', rest. destruct Hset as (Hphase & Hrunning & Hactive & _).
    split_and!; assumption.
  - unfold dispatchStartWorkflow, startWorkflow. rewrite Htask, Hbusy. reflexivity.
Qed.


End Settling.

End WorkflowClaims.

(* ===================================================================== *)
(** * The collaboration session *)
(* ===================================================================== *)

Module CollaborationClaims.
Import Effects OfficeFacts JsFacts WorkflowClaims.

(** What a turn makes of the reply of the proxy: its trimmed text, or the
    failure note of the error that [requestLlmText] throws. *)
Definition noteOfReply (reply : ProxyReply) : jsstring :=
  match reply with
  | FetchRejected error => failureNote error
  | NotOk status errorBody =>
    failureNote (JsError (js "Proxy LLM request failed (" ++ decimal status ++ js "): "
                          ++ errorBody))
  | BodyRejected error => failureNote error
  | Payload payloadText =>
    let text := default [] (trim <$> payloadText) in
    if Js.truthy text then text
    else failureNote (JsError (js "Proxy LLM response did not contain output text."))
  end.

Section Session.
Context `{Host} (env : Env) (r : AppState).

(** A generation call inside the guarded block of a turn always yields a
    note, takes one tick and sends one request. *)
Lemma request_caught req w :
  tryCatch (requestLlmText env req) (fun error => mret (failureNote error)) w =
  (Return (noteOfReply (fetchLlmText env (tick w) req)),
   on_generated (fun l => l ++ [req]) (on_tick S w)).
Proof.
  unfold tryCatch, requestLlmText, noteOfReply. rewrite !bind_run. simpl.
  destruct (fetchLlmText env (tick w) req) as [error | status body | error | text];
    try reflexivity.
  simpl. destruct (Js.truthy (default [] (trim <$> text))); reflexivity.
Qed.

(** The request a turn sends. *)
Definition turnRequest (task strategy managementContext authToken prior memberId : jsstring)
    (member : CouncilMember) : LlmTextRequest :=
  request (resolveRuntime r memberId) authToken (m_identityPrompt member)
    (collaborationInput task strategy managementContext prior)
    "0.45" "700" (Some (streq memberId (js "RESEARCHER-TAN"))).

(** One turn with a token at hand: the request carries the dialogue so
    far, and the dialogue grows by the line of the speaker. *)
Lemma turn_online task strategy managementContext sessionId authToken acc memberId member w :
  getMember memberId = Some member -> Js.truthy authToken = true ->
  exists note turn w',
    collaborationTurn env r task strategy managementContext sessionId authToken acc memberId w =
      (Return {| priorDialogue := priorDialogue acc ++ memberId ++ js ": " ++ note ++ nl ++ nl;
                 notes := notes acc ++ [{| cn_memberId := memberId; cn_note := note |}];
                 transcript := transcript acc ++ [turn] |}, w') /\
    note = noteOfReply
             (fetchLlmText env (tick w)
                (turnRequest task strategy managementContext authToken
                   (priorDialogue acc) memberId member)) /\
    generated w' =
      generated w ++ [turnRequest task strategy managementContext authToken
                        (priorDialogue acc) memberId member] /\
    tick w' = tick w + 10 /\ mt_text turn = note /\ mt_speakerId turn = memberId.
Proof.
  intros Hget Htoken. unfold collaborationTurn. rewrite Hget, Htoken.
  rewrite (getMember_id _ _ Hget). cbn [negb]. cbv iota.
  unfold sleep. rewrite bind_run. cbn [mret ST_ret]. cbv beta iota.
  rewrite bind_run.
  change (tryCatch _ _ w) with
    (tryCatch
       (requestLlmText env
          (turnRequest task strategy managementContext authToken (priorDialogue acc)
             memberId member))
       (fun error => mret (failureNote error)) w).
  rewrite request_caught. cbv beta iota.
  eexists _, _, _. split; [reflexivity |].
  split_and!; try reflexivity. simpl. lia.
Qed.

(** One turn, with or without a token: it never throws, it records one
    note and one transcript entry for the speaker, it puts one
    [MeetingTurn] of the speaker in front of the meeting log, and it
    leaves the plan registry alone. *)
Lemma turn_any task strategy managementContext sessionId authToken acc memberId member w :
  getMember memberId = Some member ->
  exists note turn logged w',
    collaborationTurn env r task strategy managementContext sessionId authToken acc memberId w =
      (Return {| priorDialogue := priorDialogue acc ++ memberId ++ js ": " ++ note ++ nl ++ nl;
                 notes := notes acc ++ [{| cn_memberId := memberId; cn_note := note |}];
                 transcript := transcript acc ++ [turn] |}, w') /\
    mt_speakerId turn = memberId /\
    meetingTurns (app w') = take 320 (logged :: meetingTurns (app w)) /\
    mt_speakerId logged = memberId /\
    actionPlans (app w') = actionPlans (app w).
Proof.
  intros Hget. unfold collaborationTurn. rewrite Hget.
  rewrite (getMember_id _ _ Hget).
  unfold sleep. rewrite bind_run. cbn [mret ST_ret]. cbv beta iota.
  rewrite bind_run. destruct (Js.truthy authToken); cbn [negb]; cbv iota.
  - change (tryCatch _ _ w) with
      (tryCatch
         (requestLlmText env
            (turnRequest task strategy managementContext authToken (priorDialogue acc)
               memberId member))
         (fun error => mret (failureNote error)) w).
    rewrite request_caught. cbv beta iota.
    eexists _, _, _, _. split; [reflexivity |]. split_and!; reflexivity.
  - cbn [mret ST_ret]. cbv beta iota.
    eexists _, _, _, _. split; [reflexivity |]. split_and!; reflexivity.
Qed.

(** A loop whose every pass returns comes to an end with its invariant. *)
Lemma foldM_inv {A B} (step : B -> A -> M B) (I : list A -> B -> World -> Prop) xs :
  forall acc w,
    I [] acc w ->
    (forall seen acc x w, I seen acc w ->
       exists acc' w', step acc x w = (Return acc', w') /\ I (seen ++ [x]) acc' w') ->
    exists acc' w', foldM step acc xs w = (Return acc', w') /\ I xs acc' w'.
Proof.
  revert I. induction xs as [|x xs IH]; intros I acc w Hacc Hstep.
  - exists acc, w. done.
  - destruct (Hstep [] acc x w Hacc) as (acc1 & w1 & Hrun & Hinv).
    destruct (IH (fun seen => I (x :: seen)) acc1 w1 Hinv) as (acc2 & w2 & Hrest & Hfinal).
    { intros seen acc' y w' Hseen. apply (Hstep (x :: seen)), Hseen. }
    exists acc2, w2. split; [| done].
    cbn [foldM]. by rewrite bind_run, Hrun.
Qed.

Lemma now_run w : now env w = (Return (Date_now env (tick w)), on_tick S w).
Proof. reflexivity. Qed.

(** Signed in and not mocking, the proxy token is what the identity
    provider hands out. *)
Lemma token_online token signedIn w :
  user r = Some signedIn -> devMockEnabled r = false ->
  getIdToken env (tick w) = inr token ->
  getProxyAuthToken env r w = (Return token, on_tick S w).
Proof.
  intros Huser Hdev Htoken. unfold getProxyAuthToken. rewrite Huser, Hdev.
  unfold external. rewrite bind_run. cbv beta iota. by rewrite Htoken.
Qed.

Lemma snoc3 {A} (l : list A) a b c : ((l ++ [a]) ++ [b]) ++ [c] = l ++ [a; b; c].
Proof. by rewrite <- !app_assoc. Qed.

Lemma includes_nil s : includes s [] = true.
Proof. destruct s as [|c s]; reflexivity. Qed.

(** A line of the dialogue is found in every longer dialogue. *)
Lemma line_recorded prior memberId note :
  includes (prior ++ memberId ++ js ": " ++ note ++ nl ++ nl) (memberId ++ js ": " ++ note)
  = true.
Proof.
  apply includes_app_r.
  replace (memberId ++ js ": " ++ note ++ nl ++ nl)
    with ((memberId ++ js ": " ++ note) ++ nl ++ nl) by by rewrite <- !app_assoc.
  apply includes_app_l, includes_refl.
Qed.

(** The input of a turn carries whatever the dialogue so far holds. *)
Lemma collaborationInput_carries task strategy managementContext prior line :
  includes prior line = true ->
  includes (collaborationInput task strategy managementContext prior) line = true.
Proof.
  intros Hline. destruct (Js.truthy prior) eqn:Hprior.
  - unfold collaborationInput. rewrite (orElse_truthy _ _ Hprior).
    apply (includes_trans _ prior); [| exact Hline].
    apply includes_join. do 4 apply list_elem_of_further. apply list_elem_of_here.
  - apply truthy_false in Hprior. subst prior.
    destruct line as [|c line]; [apply includes_nil | discriminate Hline].
Qed.

(** ** C2: turns run one after the other, each on the notes before it *)

(** C2. With the proxy token at hand, a session of three roster members
    P1, P2, P3 sends exactly three generation requests, at strictly
    increasing instants; every note is what the turn makes of the reply
    to its own request (the generated text, or the failure note); the
    request of P2 carries the finished note of P1, and the request of P3
    carries the finished notes of P1 and of P2. *)
Theorem sequential_dependency
    (task strategy managementContext P1 P2 P3 token : jsstring) (signedIn : User) (w : World) :
  user r = Some signedIn -> devMockEnabled r = false ->
  getIdToken env (S (tick w)) = inr token -> Js.truthy token = true ->
  isMember P1 = true -> isMember P2 = true -> isMember P3 = true ->
  exists n1 n2 n3 q1 q2 q3 k1 k2 k3 session w',
    runCollaboration env r task strategy [P1; P2; P3] managementContext w
      = (Return session, w') /\
    cs_notes session = [{| cn_memberId := P1; cn_note := n1 |};
                        {| cn_memberId := P2; cn_note := n2 |};
                        {| cn_memberId := P3; cn_note := n3 |}] /\
    mt_text <$> cs_transcript session = [n1; n2; n3] /\
    generated w' = generated w ++ [q1; q2; q3] /\
    n1 = noteOfReply (fetchLlmText env k1 q1) /\
    n2 = noteOfReply (fetchLlmText env k2 q2) /\
    n3 = noteOfReply (fetchLlmText env k3 q3) /\
    (k1 < k2 < k3)%nat /\
    includes (rq_input q2) (P1 ++ js ": " ++ n1) = true /\
    includes (rq_input q3) (P1 ++ js ": " ++ n1) = true /\
    includes (rq_input q3) (P2 ++ js ": " ++ n2) = true.
Proof.
  intros Huser Hdev Htoken Htruthy H1 H2 H3.
  unfold isMember in H1, H2, H3.
  destruct (getMember P1) as [m1|] eqn:Hm1; [clear H1 | done].
  destruct (getMember P2) as [m2|] eqn:Hm2; [clear H2 | done].
  destruct (getMember P3) as [m3|] eqn:Hm3; [clear H3 | done].
  unfold runCollaboration. cbv zeta.
  rewrite bind_run, now_run. cbv beta iota.
  rewrite bind_run, (token_online token signedIn (on_tick S w) Huser Hdev Htoken).
  cbv beta iota.
  cbn [take foldM].
  set (sessionId := js "collab-" ++ _).
  set (seed := if Js.truthy managementContext then _ else _).
  set (w0 := on_tick S (on_tick S w)).
  rewrite 2!bind_run.
  destruct (turn_online task strategy managementContext sessionId token
              {| priorDialogue := seed; notes := []; transcript := [] |} P1 m1 w0 Hm1 Htruthy)
    as (n1 & t1 & w1 & Hrun1 & Hn1 & Hg1 & Hk1 & Ht1 & _).
  rewrite Hrun1. cbv beta iota. cbn [priorDialogue notes transcript]. rewrite bind_run.
  match goal with |- context [collaborationTurn _ _ _ _ _ _ _ ?acc P2 w1] =>
    destruct (turn_online task strategy managementContext sessionId token acc P2 m2 w1
                Hm2 Htruthy)
      as (n2 & t2 & w2 & Hrun2 & Hn2 & Hg2 & Hk2 & Ht2 & _) end.
  rewrite Hrun2. cbv beta iota. cbn [priorDialogue notes transcript]. rewrite bind_run.
  match goal with |- context [collaborationTurn _ _ _ _ _ _ _ ?acc P3 w2] =>
    destruct (turn_online task strategy managementContext sessionId token acc P3 m3 w2
                Hm3 Htruthy)
      as (n3 & t3 & w3 & Hrun3 & Hn3 & Hg3 & Hk3 & Ht3 & _) end.
  rewrite Hrun3. cbv beta iota. cbn [priorDialogue notes transcript].
  cbn [priorDialogue notes transcript] in *.
  eexists n1, n2, n3, _, _, _, (tick w0), (tick w1), (tick w2), _, _.
  split; [reflexivity |]. cbn [cs_notes cs_transcript notes transcript app].
  split; [reflexivity |].
  split.
  { simpl. by rewrite Ht1, Ht2, Ht3. }
  split; [rewrite Hg3, Hg2, Hg1; unfold w0; cbn [generated on_tick]; apply snoc3 |].
  split; [exact Hn1 |]. split; [exact Hn2 |]. split; [exact Hn3 |].
  split; [lia |].
  unfold turnRequest, request. cbn [rq_input].
  split_and!; apply collaborationInput_carries.
  - apply line_recorded.
  - apply includes_app_l, line_recorded.
  - apply line_recorded.
Qed.

(** ** C10: only the first eight entries take part *)

(** The meeting log after the turns [spoken] were appended one by one. *)
Definition logged (spoken : list MeetingTurn) (previous : list MeetingTurn) : list MeetingTurn :=
  foldl (fun turns turn => take 320 (turn :: turns)) previous spoken.

(** Every plan of the registry was there before or belongs to one of
    [owners]. *)
Definition plansFrom (owners : list jsstring) : relation World :=
  fun w w' =>
    forall plan, plan ∈ actionPlans (app w') ->
      plan ∈ actionPlans (app w) \/ ap_memberId plan ∈ owners.

#[local] Instance plansFrom_preorder owners : PreOrder (plansFrom owners).
Proof.
  split; [intros w plan Hplan; by left |].
  intros w1 w2 w3 H12 H23 plan Hplan.
  destruct (H23 plan Hplan) as [Hplan' | ?]; [by apply H12 | by right].
Qed.

Lemma upsertUpdater_elem member memberId plan source threadId stamp freshId previous item :
  item ∈ Registry.upsertUpdater member memberId plan source threadId stamp freshId previous ->
  item ∈ previous \/ ap_memberId item = memberId.
Proof.
  unfold Registry.upsertUpdater.
  destruct (findIndex _ previous) as [i|] eqn:Hfind; cbv zeta.
  - apply findIndex_Some in Hfind as (found & Hfound & Hkey & _).
    apply RegistryFacts.sameKey_true in Hkey. injection Hkey as _ Hid.
    intros Hitem. apply list_elem_of_lookup in Hitem as [j Hj].
    destruct (decide (i = j)) as [<- | Hne].
    + rewrite list_lookup_alter_eq, Hfound in Hj. injection Hj as <-. by right.
    + rewrite list_lookup_alter_ne in Hj by done. left. by eapply list_elem_of_lookup_2.
  - intros Hitem. apply elem_of_take in Hitem as (j & Hj & _).
    destruct j as [|j]; [injection Hj as <-; by right |].
    left. by eapply list_elem_of_lookup_2.
Qed.

Lemma upsertActionPlan_plansFrom owners memberId plan source threadId :
  memberId ∈ owners ->
  frames (plansFrom owners) (upsertActionPlan env memberId plan source threadId).
Proof.
  intros Hin. unfold upsertActionPlan.
  destruct (getMember memberId) as [member|]; [| apply (frames_ret _)].
  destruct (negb _); [apply (frames_ret _) |].
  apply (frames_bind _); [apply (frames_getState _) | intros w0].
  apply (frames_bind _); [| intros stamp].
  { intros w plan' Hplan. by left. }
  apply (frames_bind _); [| intros freshId].
  { destruct (findIndex _ _); intros w plan' Hplan; by left. }
  apply (frames_modify _). intros w item Hitem. cbn in Hitem.
  apply upsertUpdater_elem in Hitem as [? | ->]; [by left | by right].
Qed.

(** The token lookup never throws and leaves the office as it is. *)
Lemma getProxyAuthToken_returns :
  returns (same app) (getProxyAuthToken env r) (fun _ => True).
Proof. total. Qed.

(** The invariant of the loop of [runCollaboration], after the entries
    [seen]. *)
Definition sessionInvariant (w0 : World) (seen : list jsstring) (acc : Session) (w : World)
  : Prop :=
  cn_memberId <$> notes acc = List.filter isMember seen /\
  mt_speakerId <$> transcript acc = List.filter isMember seen /\
  actionPlans (app w) = actionPlans (app w0) /\
  exists spoken,
    mt_speakerId <$> spoken = List.filter isMember seen /\
    meetingTurns (app w) = logged spoken (meetingTurns (app w0)).

Lemma sessionInvariant_step task strategy managementContext sessionId authToken
    w0 seen acc memberId w :
  sessionInvariant w0 seen acc w ->
  exists acc' w',
    collaborationTurn env r task strategy managementContext sessionId authToken acc memberId w
      = (Return acc', w') /\
    sessionInvariant w0 (seen ++ [memberId]) acc' w'.
Proof.
  intros (Hnotes & Hturns & Hplans & spoken & Hspoken & Hlog).
  unfold sessionInvariant. rewrite List.filter_app. cbn [List.filter].
  destruct (getMember memberId) as [member|] eqn:Hget.
  - assert (isMember memberId = true) as -> by (unfold isMember; by rewrite Hget).
    destruct (turn_any task strategy managementContext sessionId authToken acc memberId
                member w Hget)
      as (note & turn & entry & w' & Hrun & Hturn & Hlog' & Hentry & Hplans').
    eexists _, w'. split; [exact Hrun |]. cbn [notes transcript].
    rewrite !fmap_app, Hnotes, Hturns. cbn [fmap list_fmap cn_memberId]. rewrite Hturn.
    split_and!; [done | done | congruence |].
    exists (spoken ++ [entry]). rewrite fmap_app, Hspoken. cbn [fmap list_fmap].
    rewrite Hentry. split; [done |].
    unfold logged. rewrite foldl_snoc. fold (logged spoken (meetingTurns (app w0))).
    by rewrite Hlog', Hlog.
  - assert (isMember memberId = false) as -> by (unfold isMember; by rewrite Hget).
    exists acc, w. split; [unfold collaborationTurn; by rewrite Hget |].
    rewrite !app_nil_r. split_and!; [done | done | done |]. by exists spoken.
Qed.

(** C10. A collaboration session depends on the first eight entries of
    the participant list only. It always comes to an end; its notes and
    its transcript are those of the roster members among the first eight
    entries, in order, so there are at most eight of each; the meeting log
    gains one turn for each of them and nothing else; the session itself
    leaves the plan registry as it is, and the upsert of the notes that
    follows it touches plans of the first eight entries only. *)
Theorem collaboration_first_eight
    (task strategy managementContext : jsstring) (participants : list jsstring) (w : World) :
  runCollaboration env r task strategy participants managementContext =
    runCollaboration env r task strategy (take 8 participants) managementContext /\
  exists session w' spoken,
    runCollaboration env r task strategy participants managementContext w
      = (Return session, w') /\
    cn_memberId <$> cs_notes session = List.filter isMember (take 8 participants) /\
    mt_speakerId <$> cs_transcript session = List.filter isMember (take 8 participants) /\
    mt_speakerId <$> spoken = List.filter isMember (take 8 participants) /\
    meetingTurns (app w') = logged spoken (meetingTurns (app w)) /\
    actionPlans (app w') = actionPlans (app w) /\
    length (cs_notes session) <= 8 /\ length (cs_transcript session) <= 8 /\
    length spoken <= 8 /\
    forall w1 plan,
      plan ∈ actionPlans (app (forEach (cs_notes session) (fun item =>
                 upsertActionPlan env (cn_memberId item) (cn_note item) workflow
                   (activeThreadId r)) w1).2) ->
      plan ∈ actionPlans (app w1) \/ ap_memberId plan ∈ take 8 participants.
Proof.
  split.
  { unfold runCollaboration. rewrite take_take. reflexivity. }
  unfold runCollaboration. cbv zeta. rewrite bind_run, now_run. cbv beta iota.
  rewrite bind_run.
  destruct (getProxyAuthToken_returns (on_tick S w)) as (authToken & w0 & -> & Happ & _).
  cbv beta iota. rewrite bind_run.
  set (sessionId := js "collab-" ++ _).
  set (seed := if Js.truthy managementContext then _ else _).
  destruct (foldM_inv (collaborationTurn env r task strategy managementContext sessionId
                         authToken)
              (sessionInvariant w0) (take 8 participants)
              {| priorDialogue := seed; notes := []; transcript := [] |} w0)
    as (final & w' & -> & Hnotes & Hturns & Hplans & spoken & Hspoken & Hlog).
  { split_and!; [done | done | done |]. by exists []. }
  { intros seen acc x w1. apply sessionInvariant_step. }
  assert (Hbound : length (List.filter isMember (take 8 participants)) <= 8).
  { etrans; [apply List.filter_length_le |]. rewrite length_take. lia. }
  assert (Hstart : app w0 = app w) by exact Happ.
  exists {| cs_sessionId := sessionId; cs_notes := notes final;
            cs_transcript := transcript final |}, w', spoken.
  cbn [cs_notes cs_transcript]. rewrite <- Hstart.
  split; [reflexivity |].
  split_and!; try done.
  - by rewrite <- (length_fmap cn_memberId), Hnotes.
  - by rewrite <- (length_fmap mt_speakerId), Hturns.
  - by rewrite <- (length_fmap mt_speakerId), Hspoken.
  - intros w1 plan Hplan.
    assert (Hframe : frames (plansFrom (take 8 participants))
              (forEach (notes final) (fun item =>
                 upsertActionPlan env (cn_memberId item) (cn_note item) workflow
                   (activeThreadId r)))).
    { assert (Hown : forall item, item ∈ notes final ->
                cn_memberId item ∈ take 8 participants).
      { intros item Hitem.
        assert (Hid : cn_memberId item ∈ cn_memberId <$> notes final)
          by by apply list_elem_of_fmap_2.
        rewrite Hnotes in Hid. apply list_elem_of_In, List.filter_In in Hid as [Hid _].
        by apply list_elem_of_In. }
      revert Hown. generalize (notes final). intros items.
      induction items as [|item items IH]; intros Hown; cbn [forEach].
      - apply (frames_ret _).
      - apply (frames_bind _).
        + apply upsertActionPlan_plansFrom, Hown, list_elem_of_here.
        + intros _. apply IH. intros other Hother. by apply Hown, list_elem_of_further. }
    exact (Hframe w1 plan Hplan).
Qed.

End Session.
End CollaborationClaims.

(* ===================================================================== *)
(** * The brainstorm *)
(* ===================================================================== *)

Module BrainstormClaims.
Import Effects OfficeFacts JsFacts WorkflowClaims CollaborationClaims.

Section Brainstorm.
Context `{Host} (env : Env).

(** The request [runBrainstorm] sends. *)
Definition brainstormRequest (r : AppState) (authToken task : jsstring) : LlmTextRequest :=
  request (resolveRuntime r (js "ATTENDANT-TAN")) authToken
    (js "당신은 HOBBYTAN Council 조정자다. 반드시 JSON 객체만 응답하라. 코드블록 금지.")
    (brainstormInput task) "0.35" "700" None.

(** The plan [runBrainstorm] falls back to when the reply is no JSON. *)
Definition fallbackPlan (text : jsstring) : BrainstormPlan :=
  {| bp_strategy := text; bp_participants := DEFAULT_COLLABORATION_TEAM;
     bp_handoff := js "협업실 세션 후 담당자가 CEO에게 보고" |}.

(** A reply with text is what [requestLlmText] returns, trimmed. *)
Lemma request_answered req raw w :
  fetchLlmText env (tick w) req = Payload (Some raw) -> Js.truthy (trim raw) = true ->
  requestLlmText env req w =
    (Return (trim raw), on_generated (fun l => l ++ [req]) (on_tick S w)).
Proof.
  intros Hfetch Htext. unfold requestLlmText, external. rewrite !bind_run.
  cbn [modify mret ST_ret tick on_tick on_generated]. cbv beta iota.
  rewrite Hfetch. change (default [] (trim <$> Some raw)) with (trim raw).
  by rewrite Htext.
Qed.

Section Online.
Variables (r : AppState) (task raw token : jsstring) (signedIn : User).
Hypothesis Huser : user r = Some signedIn.
Hypothesis Hdev : devMockEnabled r = false.
Hypothesis Htoken : forall n, getIdToken env n = inr token.
Hypothesis Htruthy : Js.truthy token = true.
Hypothesis Hreply :
  forall n, fetchLlmText env n (brainstormRequest r token task) = Payload (Some raw).
Hypothesis Htext : Js.truthy (trim raw) = true.
Hypothesis Hparse :
  forall parsed, tryParseJson (trim raw) = Some parsed -> Value.truthy parsed = false.

Lemma runBrainstorm_unparsed w :
  runBrainstorm env r task w =
    (Return (fallbackPlan (trim raw)),
     on_generated (fun l => l ++ [brainstormRequest r token task]) (on_tick S (on_tick S w))).
Proof.
  unfold runBrainstorm. cbv zeta.
  rewrite bind_run, (token_online env r token signedIn w Huser Hdev (Htoken _)).
  cbv beta iota. rewrite Htruthy. cbn [negb]. cbv iota.
  rewrite bind_run. fold (brainstormRequest r token task).
  rewrite (request_answered _ raw (on_tick S w) (Hreply _) Htext). cbv beta iota.
  destruct (tryParseJson (trim raw)) as [parsed|] eqn:Hparsed; [| reflexivity].
  by rewrite (Hparse parsed).
Qed.

Lemma runBrainstorm_unparsed_returns :
  returns (same phaseTrace) (runBrainstorm env r task)
    (fun plan => plan = fallbackPlan (trim raw)).
Proof. intros w. eexists _, _. split; [apply runBrainstorm_unparsed |]. done. Qed.

End Online.

(** A step that returns and does not set the phase, in front of a
    continuation. *)
Ltac quiet Htrace :=
  lazymatch goal with
  | |- wp (let _ := _ in _) _ _ _ => cbv zeta
  | |- wp (_ ≫= _) _ _ _ =>
    apply (wp_bind_returns (same phaseTrace) _ _ (fun _ => True));
    [ total
    | let w' := fresh "w" in
      let Hs := fresh "Hs" in
      intros ? w' Hs _; unfold same in Hs; rewrite Htrace in Hs; clear Htrace;
      rename Hs into Htrace; cbv beta ]
  end.

(** The phases of an accepted run whose brainstorm reply is no JSON: the
    run goes on to the collaboration. *)
Lemma unparsed_run_goes_on (task raw token : jsstring) (signedIn : User) (w : World) :
  user (app w) = Some signedIn -> devMockEnabled (app w) = false ->
  (forall n, getIdToken env n = inr token) -> Js.truthy token = true ->
  (forall n, fetchLlmText env n (brainstormRequest (app w) token (trim task))
             = Payload (Some raw)) ->
  Js.truthy (trim raw) = true ->
  (forall parsed, tryParseJson (trim raw) = Some parsed -> Value.truthy parsed = false) ->
  Js.truthy (trim task) = true -> running (app w) = false ->
  exists w' rest,
    dispatchStartWorkflow env task w = (Return tt, w') /\
    phaseTrace w' = phaseTrace w ++ brainstorming :: collaboration :: rest.
Proof.
  intros Huser Hdev Htoken Htruthy Hreply Htext Hparse Htask Hrun.
  unfold dispatchStartWorkflow, startWorkflow.
  rewrite Htask, Hrun. cbv zeta. cbn [negb]. cbv iota.
  assert (returns (same phaseTrace)
            (startWorkflowAccept env (app w) (trim task)) (fun _ => True)) as Haccept.
  { unfold startWorkflowAccept. total. }
  destruct (Haccept w) as ([] & w0 & Hrun0 & Htrace & _). unfold same in Htrace.
  rewrite (bind_return _ _ _ _ _ Hrun0).
  set (reached := fun (_ : unit) (w1 : World) =>
         (phaseTrace w ++ [brainstorming; collaboration]) `prefix_of` phaseTrace w1).
  set (reached' := fun (_ : Exn) (w1 : World) =>
         (phaseTrace w ++ [brainstorming; collaboration]) `prefix_of` phaseTrace w1).
  assert (wp (startWorkflowRun env (app w) (trim task)) reached reached' w0) as Hbody.
  { unfold startWorkflowRun.
    quiet Htrace. apply wp_setPhase.
    match goal with |- wp _ _ _ ?w1 =>
      assert (phaseTrace w1 = phaseTrace w ++ [brainstorming]) as Hin
        by (cbn [phaseTrace on_app on_phaseTrace]; by rewrite Htrace) end.
    clear Htrace. do 4 quiet Hin.
    apply (wp_bind_returns (same phaseTrace) _ _
             (fun plan => plan = fallbackPlan (trim raw)));
      [by eapply runBrainstorm_unparsed_returns |].
    intros plan wb Hs ->. unfold same in Hs. rewrite Hin in Hs. clear Hin.
    do 3 quiet Hs. cbv zeta. apply wp_setPhase.
    apply (wp_of_frames grows); [frame | |];
      intros ? wz Hgrows; unfold grows in Hgrows;
      cbn [phaseTrace on_app on_phaseTrace] in Hgrows; rewrite Hs in Hgrows;
      unfold reached, reached'; by rewrite <- app_assoc in Hgrows. }
  unfold wp in Hbody. unfold tryCatch.
  destruct (startWorkflowRun env (app w) (trim task) w0) as [[[] | error] w1].
  - destruct Hbody as [rest Hrest]. exists w1, rest. split; [done |].
    by rewrite Hrest, <- app_assoc.
  - destruct (recover_settles env (app w) error w1) as (w' & Hrec & _).
    pose proof (startWorkflowRecover_grows env (app w) error w1) as Hgrows.
    rewrite Hrec in Hgrows. unfold grows in Hgrows. simpl in Hgrows.
    destruct (transitivity Hbody Hgrows) as [rest Hrest].
    exists w', rest. split; [done |]. by rewrite Hrest, <- app_assoc.
Qed.


End Brainstorm.
End BrainstormClaims.

(* ===================================================================== *)
(** * Running without a credential *)
(* ===================================================================== *)

Module OfflineClaims.
Import Effects OfficeFacts JsFacts WorkflowClaims CollaborationClaims.

(** No credential: nobody is signed in, or the developer mock is on, or
    the identity provider never hands out a token. *)
Definition offline (env : Env) (r : AppState) : Prop :=
  user r = None \/ devMockEnabled r = true \/
  forall n, match getIdToken env n with
            | inr token => Js.truthy token = false
            | inl _ => True
            end.

(** What a run may not touch unless it says so: the phases set, the
    generation requests sent, the error on display, the reports kept. *)
Definition ledger (w : World) :=
  (phaseTrace w, generated w, workflowError (app w), localReports (app w), ceoReports w).

Definition quietly : relation World := same ledger.

(** The bodies of the reports kept, on the device and in the cloud. *)
Definition reportBodies (w : World) : list jsstring :=
  (rp_body <$> localReports (app w)) ++ ((fun doc => rd_body doc.2) <$> ceoReports w).

Section Offline.
Context `{Host} (env : Env) (r : AppState).
Hypothesis Hoffline : offline env r.

Lemma token_offline :
  returns quietly (getProxyAuthToken env r) (fun token => token = []).
Proof.
  unfold getProxyAuthToken. destruct Hoffline as [-> | [Hdev | Hnone]].
  - by apply (returns_ret _).
  - destruct (user r); [rewrite Hdev |]; by apply (returns_ret _).
  - destruct (user r); [| by apply (returns_ret _)].
    destruct (devMockEnabled r); [by apply (returns_ret _) |].
    intros w. unfold external. rewrite bind_run. cbv beta iota.
    specialize (Hnone (tick w)).
    destruct (getIdToken env (tick w)) as [error | token].
    + eexists _, _. split; [reflexivity |]. done.
    + apply truthy_false in Hnone as ->. eexists _, _. split; [reflexivity |]. done.
Qed.

End Offline.

(** With no credential, the branch of a function that asks the proxy is
    never taken. *)
Ltac offline_hook Hoffline :=
  idtac;
  lazymatch goal with
  | |- returns ?R (mbind _ (getProxyAuthToken _ _)) _ =>
    eapply (returns_bind R);
    [ apply (token_offline _ _ Hoffline)
    | intros ? ->; change (Js.truthy (@nil N)) with false; cbn [negb]; cbv iota ]
  | |- frames ?R (mbind _ (getProxyAuthToken _ _)) =>
    eapply (frames_bind_post R);
    [ apply (token_offline _ _ Hoffline)
    | intros ? ->; change (Js.truthy (@nil N)) with false; cbn [negb]; cbv iota ]
  | |- context [Js.truthy (@nil N)] =>
    change (Js.truthy (@nil N)) with false; cbn [negb]; cbv iota
  end.

Section OfflineRun.
Context `{Host} (env : Env) (r : AppState).
Hypothesis Hoffline : offline env r.

Lemma runBrainstorm_offline task :
  returns quietly (runBrainstorm env r task)
    (fun plan => bp_strategy plan = offlineStrategy).
Proof.
  unfold runBrainstorm. cbv zeta.
  eapply (returns_bind _); [apply (token_offline _ _ Hoffline) | intros ? ->].
  by apply (returns_ret _).
Qed.

Lemma runPoPmManagementPlan_offline task strategy participants :
  returns quietly (runPoPmManagementPlan env r task strategy participants) (fun _ => True).
Proof. total_by ltac:(offline_hook Hoffline). Qed.

Lemma runCollaboration_offline task strategy participants managementContext :
  returns quietly (runCollaboration env r task strategy participants managementContext)
    (fun _ => True).
Proof. total_by ltac:(offline_hook Hoffline). Qed.

Lemma runFinalReport_offline task strategy notes plans :
  returns quietly (runFinalReport env r task strategy notes plans)
    (fun text => text = offlineReport task strategy notes (joinedPlansOf plans)).
Proof.
  unfold runFinalReport. cbv zeta.
  eapply (returns_bind _); [apply (token_offline _ _ Hoffline) | intros ? ->].
  by apply (returns_ret _).
Qed.

Lemma runGovernanceWatch_offline context :
  returns quietly (runGovernanceWatch env r context) (fun _ => True).
Proof. total_by ltac:(offline_hook Hoffline). Qed.

Lemma ledger_setPhase next trace sent message kept filed w :
  ledger w = (trace, sent, message, kept, filed) ->
  ledger (on_app (over_phase (fun _ => next))
            (on_phaseTrace (fun l => l ++ [next]) w))
  = (trace ++ [next], sent, message, kept, filed).
Proof. unfold ledger. cbn. by intros [= -> -> -> -> ->]. Qed.

(** [persistReport] keeps the report, on the device or in the cloud, and
    touches nothing else of the ledger. *)
Lemma persistReport_spec payload trace sent message w :
  (ledger w).1.1 = (trace, sent, message) ->
  exists w',
    persistReport env r payload w = (Return tt, w') /\
    (ledger w').1.1 = (trace, sent, message) /\
    reportBodies w' ≡ₚ rd_body payload :: reportBodies w.
Proof.
  unfold ledger, reportBodies, persistReport. cbn [fst]. intros Hled.
  destruct (user r) as [signedIn|].
  - unfold external. rewrite bind_run. cbv beta iota.
    destruct (addDoc env (tick w)).
    + eexists. split; [reflexivity |]. cbn. split; [exact Hled | done].
    + eexists. split; [reflexivity |]. cbn. split; [exact Hled |].
      rewrite fmap_app. cbn. rewrite app_assoc.
      by rewrite <- Permutation_cons_append.
  - eexists. split; [reflexivity |]. cbn. split; [exact Hled | done].
Qed.

(** The report of a run without a credential names the directive. *)
Lemma offlineReport_names_task task strategy notes joinedPlans :
  includes (offlineReport task strategy notes joinedPlans) task = true.
Proof.
  unfold offlineReport.
  apply (includes_trans _ (js "지시 사항: " ++ task)).
  - apply includes_join. apply list_elem_of_further, list_elem_of_here.
  - apply includes_app_r, includes_refl.
Qed.

End OfflineRun.

Section OfflineWorkflow.
Context `{Host} (env : Env).

#[local] Arguments offlineReport : simpl never.

(** A step that returns and leaves the ledger alone, in front of a
    continuation. *)
Ltac calm Hoffline Hled :=
  apply (wp_bind_returns quietly _ _ (fun _ => True));
  [ total_by ltac:(offline_hook Hoffline)
  | let w' := fresh "w" in
    let Hs := fresh "Hs" in
    intros ? w' Hs _; unfold quietly, same in Hs; rewrite Hled in Hs; clear Hled;
    rename Hs into Hled; cbv beta ].

Ltac walk Hoffline Hled :=
  repeat lazymatch goal with
  | |- wp (let _ := _ in _) _ _ _ => cbv zeta
  | |- wp (setPhase ?next ≫= _) _ _ _ =>
    apply wp_setPhase; apply (ledger_setPhase next) in Hled
  | |- wp (runBrainstorm _ _ _ ≫= _) _ _ _ => fail
  | |- wp (runFinalReport _ _ _ _ _ _ ≫= _) _ _ _ => fail
  | |- wp (persistReport _ _ _ ≫= _) _ _ _ => fail
  | |- wp (_ ≫= _) _ _ _ => calm Hoffline Hled
  end.

(** The run of an accepted directive without a credential. *)
Lemma offline_run (task : jsstring) (r : AppState) (w : World) :
  offline env r -> workflowError (app w) = [] ->
  wp (startWorkflowRun env r task)
    (fun _ w' =>
       phaseTrace w' =
         phaseTrace w ++ [brainstorming; collaboration; execution; reporting; idle] /\
       generated w' = generated w /\ workflowError (app w') = [] /\
       exists notes plans,
         reportBodies w' ≡ₚ
           offlineReport task offlineStrategy notes plans :: reportBodies w)
    (fun _ _ => False) w.
Proof.
  intros Hoffline Herror.
  assert (ledger w = (phaseTrace w, generated w, [], localReports (app w), ceoReports w))
    as Hled by (unfold ledger; by rewrite Herror).
  unfold startWorkflowRun. walk Hoffline Hled.
  apply (wp_bind_returns quietly _ _ (fun plan => bp_strategy plan = offlineStrategy));
    [by apply runBrainstorm_offline |].
  intros brainstorm wb Hs Hstrategy. unfold quietly, same in Hs. rewrite Hled in Hs.
  clear Hled. rename Hs into Hled. rewrite Hstrategy.
  walk Hoffline Hled.
  match goal with |- wp (runFinalReport _ _ ?t ?s ?n ?p ≫= _) _ _ _ =>
    apply (wp_bind_returns quietly _ _
             (fun text => text = offlineReport t s n (joinedPlansOf p)));
      [by apply runFinalReport_offline |] end.
  intros text wf Hs ->. unfold quietly, same in Hs. rewrite Hled in Hs.
  clear Hled. rename Hs into Hled.
  walk Hoffline Hled.
  match goal with |- wp _ _ _ ?w1 =>
    assert (reportBodies w1 = reportBodies w) as Hbefore
      by (unfold reportBodies; unfold ledger in Hled;
          injection Hled as _ _ _ Hl Hc; by rewrite Hl, Hc) end.
  apply wp_bind.
  match goal with |- wp (persistReport _ _ ?payload) _ _ ?w1 =>
    destruct (persistReport_spec env r payload
                (phaseTrace w ++ [brainstorming] ++ [collaboration] ++ [execution]
                   ++ [reporting])
                (generated w) [] w1) as (wp' & Hpersist & Hled' & Hbodies) end.
  { rewrite Hled. cbn [fst]. by rewrite <- !app_assoc. }
  unfold wp at 1. rewrite Hpersist.
  clear Hled.
  assert (exists kept filed,
            ledger wp' = (phaseTrace w ++ [brainstorming] ++ [collaboration]
                            ++ [execution] ++ [reporting],
                          generated w, [], kept, filed) /\
            (rp_body <$> kept) ++ ((fun doc => rd_body doc.2) <$> filed) = reportBodies wp')
    as (kept & filed & Hled & Hkept).
  { exists (localReports (app wp')), (ceoReports wp'). split; [| done].
    unfold ledger in *. cbn [fst] in Hled'. by injection Hled' as -> -> ->. }
  walk Hoffline Hled.
  unfold wp, setMembersToDesk, setState, modify.
  unfold ledger in Hled. cbn in Hled. injection Hled as Htrace Hsent Hmessage Hlocal Hcloud.
  cbn. split_and!; [by rewrite Htrace, <- !app_assoc | done | done |].
  eexists _, _. unfold reportBodies. cbn. rewrite Hlocal, Hcloud, Hkept.
  etrans; [exact Hbodies |]. cbn [rd_body]. by rewrite Hbefore.
Qed.

(** C6. Without a credential, [startWorkflow] on a directive that is not
    blank returns, and its run goes through brainstorming, collaboration,
    execution and reporting back to idle, in this order and with no other
    phase; no generation request is sent; no error is put on display; one
    report is kept, and its body is the canned report of the directive
    without its leading and trailing white space, which it contains. *)
Theorem offline_run_completes (task : jsstring) (w : World) :
  offline env (app w) -> Js.truthy (trim task) = true -> running (app w) = false ->
  exists w' body,
    dispatchStartWorkflow env task w = (Return tt, w') /\
    phaseTrace w' =
      phaseTrace w ++ [brainstorming; collaboration; execution; reporting; idle] /\
    generated w' = generated w /\
    workflowError (app w') = [] /\
    reportBodies w' ≡ₚ body :: reportBodies w /\
    (exists notes plans, body = offlineReport (trim task) offlineStrategy notes plans) /\
    includes body (trim task) = true.
Proof.
  intros Hoffline Htask Hrun. unfold dispatchStartWorkflow, startWorkflow.
  rewrite Htask, Hrun. cbv zeta. cbn [negb]. cbv iota.
  set (wa := on_app (over_running (fun _ => true))
               (on_app (over_workflowError (fun _ => [])) w)).
  assert (returns quietly
            (updateThread env (activeThreadId (app w)) (abbreviate 36 (trim task)))
            (fun _ => True)) as Hthread by total.
  destruct (Hthread wa) as ([] & w0 & Hrun0 & Hled & _).
  assert (startWorkflowAccept env (app w) (trim task) w = (Return tt, w0)) as Haccept
    by exact Hrun0.
  rewrite (bind_return _ _ _ _ _ Haccept).
  unfold quietly, same, ledger in Hled. cbn in Hled.
  injection Hled as Htrace Hsent Hmessage Hlocal Hcloud.
  pose proof (offline_run (trim task) (app w) w0 Hoffline Hmessage) as Hbody.
  unfold wp in Hbody. unfold tryCatch.
  destruct (startWorkflowRun env (app w) (trim task) w0) as [[[] | error] w1]; [| done].
  destruct Hbody as (Hphases & Hgenerated & Herror & notes & plans & Hbodies).
  exists w1, (offlineReport (trim task) offlineStrategy notes plans).
  split_and!; [done | by rewrite Hphases, Htrace | by rewrite Hgenerated, Hsent | done | |
               by eexists _, _ | apply offlineReport_names_task].
  rewrite Hbodies. unfold reportBodies. by rewrite Hlocal, Hcloud.
Qed.

End OfflineWorkflow.

Section OfflineRuns.
#[local] Existing Instance RefHost.host.

(** The run of the directive [Launch a beta ], white space at its end,
    in an office where nobody is signed in: it completes, and the one
    report it keeps holds the directive without the white space at its
    end, not the directive as it was given. *)
Lemma literal_directive_not_in_report :
  let task := js "Launch a beta " in
  let run := dispatchStartWorkflow Scenario.silent task Scenario.anonymousOffice in
  offline Scenario.silent (app Scenario.anonymousOffice) /\
  Js.truthy task = true /\
  run.1 = Return tt /\
  phaseTrace run.2 = [brainstorming; collaboration; execution; reporting; idle] /\
  generated run.2 = [] /\
  length (localReports (app run.2)) = 1 /\ ceoReports run.2 = [] /\
  (fun report => includes (rp_body report) task) <$> localReports (app run.2) = [false] /\
  (fun report => includes (rp_body report) (trim task)) <$> localReports (app run.2) = [true].
Proof.
  cbv zeta. split; [by left |].
  split_and!; vm_compute; reflexivity.
Qed.

End OfflineRuns.
End OfflineClaims.

(* ===================================================================== *)
(** * The dispatch layer: the retry without the search tool *)
(* ===================================================================== *)

Module DispatchClaims.
Import Effects Dispatch.

Lemma lookup_delete fields key : Value.lookup (Value.delete fields key) key = None.
Proof.
  unfold Value.delete. induction fields as [|[k v] fields IH]; [done |].
  rewrite filter_cons. cbn [fst]. destruct (decide (streq k key = false)) as [Hk | Hk].
  - cbn [Value.lookup]. by rewrite Hk.
  - exact IH.
Qed.

Section Retry.
Context `{Host} (backend : Backend).

(** The payload [requestOpenAIText] starts from. *)
Definition openaiBase (body : LlmRequestBody) : list (jsstring * JsValue) :=
  [(js "model", JStr (strOr (model body) (js "gpt-5.2")));
   (js "input", JStr (strOr (input body) []))]
  ++ (if Js.truthy (default [] (instructions body))
      then [(js "instructions", JStr (default [] (instructions body)))] else [])
  ++ match maxOutputTokens body with
     | Some n => [(js "max_output_tokens", JNum n)]
     | None => []
     end.

Lemma openaiBase_plain body : Value.lookup (openaiBase body) (js "tools") = None.
Proof.
  unfold openaiBase.
  destruct (Js.truthy (default [] (instructions body))), (maxOutputTokens body);
    vm_compute; reflexivity.
Qed.

Lemma openaiBase_augmented body :
  Value.lookup (openaiBase body ++ [(js "tools", webSearchTool)]) (js "tools")
  = Some webSearchTool.
Proof.
  unfold openaiBase.
  destruct (Js.truthy (default [] (instructions body))), (maxOutputTokens body);
    vm_compute; reflexivity.
Qed.

(** The calls of Anthropic and xAI never carry a search tool. *)
Ltac plain_payload body :=
  unfold augmented; cbn [bc_payload Value.prop];
  destruct (Js.truthy (trim (default [] (instructions body)))),
           (maxOutputTokens body), (temperature body);
  vm_compute; intros; congruence.

Ltac single_call :=
  split_and!; try done; try lia; try (by left); try (by right);
  try (intros; congruence).

(** C3. What one dispatch of a text request calls. No call is made
    when the secret of the provider is not configured. Two calls are made
    only by the OpenAI function, only when the request asks for the web
    search and the first response came back with an error status; the
    second call then goes to the same endpoint with the same headers and
    the same payload without its [tools], and a second error status is
    the error surfaced. In every other case exactly one call is made: an
    error status answering a request that did not ask for the web search
    is never retried, and Anthropic, xAI and Gemini never call twice;
    only OpenAI and Gemini ever send a search tool. *)
Theorem search_retry_rule (who : LlmProvider) (body : LlmRequestBody) (w : Wire) :
  exists made,
    calls (requestText backend who body w).2 = calls w ++ made /\
    wireTick (requestText backend who body w).2 = wireTick w + length made /\
    match made with
    | [] => isConfiguredSecret (secret backend who) = false
    | [(p, c)] =>
      p = who /\
      (augmented c = true -> who = openai \/ who = gemini) /\
      (who = openai -> default false (useWebSearch body) = true ->
       forall status text, openaiReply backend (wireTick w) c <> Failure status text)
    | [(p1, c1); (p2, c2)] =>
      who = openai /\ p1 = openai /\ p2 = openai /\
      default false (useWebSearch body) = true /\
      (exists status text, openaiReply backend (wireTick w) c1 = Failure status text) /\
      augmented c1 = true /\ augmented c2 = false /\
      bc_endpoint c2 = bc_endpoint c1 /\ bc_headers c2 = bc_headers c1 /\
      (exists fields,
         bc_payload c1 = JObj fields /\
         bc_payload c2 = JObj (Value.delete fields (js "tools"))) /\
      (forall status text,
         openaiReply backend (S (wireTick w)) c2 = Failure status text ->
         (requestText backend who body w).1 = Throw (failed "OpenAI" status text))
    | _ => False
    end.
Proof.
  destruct (requestText backend who body w) as [out w'] eqn:Hrun. cbn [fst snd].
  destruct who; cbn [requestText] in Hrun.
  - (* openai *)
    unfold requestOpenAIText in Hrun. cbv zeta in Hrun. fold (openaiBase body) in Hrun.
    destruct (isConfiguredSecret (secret backend openai)) eqn:Hsecret;
      cbn [negb] in Hrun; cbv iota in Hrun.
    2: { injection Hrun as <- <-. exists []. by rewrite app_nil_r, Nat.add_0_r. }
    rewrite bind_run in Hrun. unfold call at 1 in Hrun. cbv beta iota in Hrun.
    match type of Hrun with context [openaiReply backend (wireTick w) ?c] =>
      set (c1 := c) in * end.
    destruct (openaiReply backend (wireTick w) c1) as [error | status text | error | json]
      eqn:Hfirst.
    + injection Hrun as <- <-. exists [(openai, c1)]. cbn.
      single_call.
    + destruct (default false (useWebSearch body)) eqn:Hflag.
      * rewrite bind_run in Hrun. unfold call at 1 in Hrun. cbv beta iota in Hrun.
        cbn [wireTick calls] in Hrun.
        match type of Hrun with context [openaiReply backend (S (wireTick w)) ?c] =>
          set (c2 := c) in * end.
        exists [(openai, c1); (openai, c2)].
        assert (augmented c1 = true) as Haug1
          by (unfold augmented, c1; cbn [bc_payload Value.prop];
              by rewrite openaiBase_augmented).
        assert (augmented c2 = false) as Haug2
          by (unfold augmented, c2; cbn [bc_payload Value.prop];
              by rewrite lookup_delete).
        destruct (openaiReply backend (S (wireTick w)) c2)
          as [error' | status' text' | error' | json'] eqn:Hsecond;
          try destruct (Js.truthy (readOpenAIText json'));
          injection Hrun as <- <-; cbn [calls wireTick length];
          (split; [by rewrite <- app_assoc |]);
          (split; [lia |]);
          split_and!; try done; try (by eexists _, _); try (by eexists);
          intros ? ? [=]; by subst.
      * injection Hrun as <- <-. exists [(openai, c1)]. cbn.
        single_call.
    + injection Hrun as <- <-. exists [(openai, c1)]. cbn.
      single_call.
    + exists [(openai, c1)].
      destruct (Js.truthy (readOpenAIText json)); injection Hrun as <- <-; cbn; single_call.
  - (* anthropic *)
    unfold requestAnthropicText in Hrun. cbv zeta in Hrun.
    destruct (isConfiguredSecret (secret backend anthropic)) eqn:Hsecret;
      cbn [negb] in Hrun; cbv iota in Hrun.
    2: { injection Hrun as <- <-. exists []. by rewrite app_nil_r, Nat.add_0_r. }
    rewrite bind_run in Hrun. unfold call at 1 in Hrun. cbv beta iota in Hrun.
    match type of Hrun with context [anthropicReply backend (wireTick w) ?c] =>
      set (c1 := c) in * end.
    exists [(anthropic, c1)].
    assert (augmented c1 = true -> anthropic = openai \/ anthropic = gemini) as Hplain
      by (unfold c1; plain_payload body).
    destruct (anthropicReply backend (wireTick w) c1) as [error | status text | error | json];
      try match type of Hrun with context [if ?b then mret _ else _] => destruct b end;
      injection Hrun as <- <-; cbn; single_call.
  - (* xai *)
    unfold requestXAIText in Hrun. cbv zeta in Hrun.
    destruct (isConfiguredSecret (secret backend xai)) eqn:Hsecret;
      cbn [negb] in Hrun; cbv iota in Hrun.
    2: { injection Hrun as <- <-. exists []. by rewrite app_nil_r, Nat.add_0_r. }
    rewrite bind_run in Hrun. unfold call at 1 in Hrun. cbv beta iota in Hrun.
    match type of Hrun with context [xaiReply backend (wireTick w) ?c] =>
      set (c1 := c) in * end.
    exists [(xai, c1)].
    assert (augmented c1 = true -> xai = openai \/ xai = gemini) as Hplain
      by (unfold c1; plain_payload body).
    destruct (xaiReply backend (wireTick w) c1) as [error | status text | error | json];
      [ | | | destruct (default [] (choices json)) as [|first rest];
              [| destruct (xc_message first ≫= xm_content) as [[text | parts] |]] ];
      try match type of Hrun with context [if ?b then mret _ else _] => destruct b end;
      injection Hrun as <- <-; cbn; single_call.
  - (* gemini *)
    unfold requestGeminiText in Hrun. cbv zeta in Hrun.
    destruct (isConfiguredSecret (secret backend gemini)) eqn:Hsecret;
      cbn [negb] in Hrun; cbv iota in Hrun.
    2: { injection Hrun as <- <-. exists []. by rewrite app_nil_r, Nat.add_0_r. }
    rewrite bind_run in Hrun. unfold call at 1 in Hrun. cbv beta iota in Hrun.
    match type of Hrun with context [geminiReply backend (wireTick w) ?c] =>
      set (c1 := c) in * end.
    exists [(gemini, c1)].
    destruct (geminiReply backend (wireTick w) c1) as [error | status text | error | json];
      try match type of Hrun with context [if ?b then mret _ else _] => destruct b end;
      injection Hrun as <- <-; cbn; single_call.
Qed.

End Retry.

Section Refusals.
#[local] Existing Instance RefHost.host.

(** Every provider is configured and answers every call with status 400. *)
Definition refusing : Backend :=
  {| secret := fun _ => Some (js "sk-test");
     openaiReply := fun _ _ => Failure 400 (js "{}");
     anthropicReply := fun _ _ => Failure 400 (js "{}");
     xaiReply := fun _ _ => Failure 400 (js "{}");
     geminiReply := fun _ _ => Failure 400 (js "{}");
     verifyIdToken := fun _ _ => None |}.

(** A request that asks for the web search. *)
Definition searching (who : LlmProvider) : LlmRequestBody :=
  {| provider := Some who; model := None; input := Some (js "hello");
     instructions := None; maxOutputTokens := None; temperature := None;
     baseUrl := None; useWebSearch := Some true |}.

(** The search tool each call of a dispatch carried. *)
Definition toolsSent (body : LlmRequestBody) : list bool :=
  (fun made => augmented made.2) <$> calls (handleLlmText refusing body idleWire).2.

(** A request for Gemini that asks for the web search is sent with the
    search tool, fails, and is not sent again; the same request for
    Anthropic is sent once, without any search tool. OpenAI alone sends
    it a second time. *)
Lemma augmented_failure_not_retried :
  useWebSearch (searching gemini) = Some true /\
  toolsSent (searching gemini) = [true] /\
  toolsSent (searching anthropic) = [false] /\
  toolsSent (searching xai) = [false] /\
  toolsSent (searching openai) = [true; false] /\
  (handleLlmText refusing (searching gemini) idleWire).1
    = Return (JsonError 500 (js "Gemini text request failed (400): {}")).
Proof.
  split; [reflexivity |]. split_and!; vm_compute; reflexivity.
Qed.

End Refusals.
End DispatchClaims.

(* ===================================================================== *)
(** * The governance watcher *)
(* ===================================================================== *)

Module GovernanceClaims.
Import Governance.

Section Watcher.
Context `{Host}.

(** A render whose run of the effect gets as far as the two guards on the
    refs: somebody is signed in, the mock is off, and the window is not
    empty. *)
Definition observed (a : Activity) : Prop :=
  user a = true /\ devMockEnabled a = false /\
  (lastN 4 (visibleMessages a) <> [] \/ lastN 6 (visibleMeetingTurns a) <> []).

Lemma runEffect_observed a w :
  observed a ->
  runEffect a w =
    if streq (fingerprint a) (governanceSignature w) then w
    else if governancePolling w || (now a - governanceLastRun w <? 45000)%Z then w
    else
      {| governancePolling := true; governanceLastRun := governanceLastRun w;
         governanceSignature := fingerprint a;
         timer := Some (auditContext a, if running a then 2500 else 7000)%Z;
         cleanup := true; inFlight := inFlight w; audits := audits w |}.
Proof.
  intros (Huser & Hdev & Hwindow). unfold runEffect. rewrite Huser, Hdev. cbn [negb orb].
  destruct (lastN 4 (visibleMessages a)), (lastN 6 (visibleMeetingTurns a));
    [by destruct Hwindow | done..].
Qed.

(** A run of the effect on the fingerprint the ref holds does nothing. *)
Lemma runEffect_same_signature a w :
  fingerprint a = governanceSignature w -> runEffect a w = w.
Proof.
  intros Hsame. unfold runEffect.
  destruct (negb (user a) || devMockEnabled a); [done |].
  destruct (lastN 4 (visibleMessages a)), (lastN 6 (visibleMeetingTurns a)); [done | ..];
    cbv zeta; unfold streq; by rewrite bool_decide_eq_true_2.
Qed.

(** The watcher after the first render armed its timer. *)
Lemma first_render_arms a :
  observed a -> fingerprint a <> [] -> (45000 <= now a)%Z ->
  step mounted (Render a) =
    {| governancePolling := true; governanceLastRun := 0;
       governanceSignature := fingerprint a;
       timer := Some (auditContext a, if running a then 2500 else 7000)%Z;
       cleanup := true; inFlight := 0; audits := [] |}.
Proof.
  intros Hobserved Hsignature Hnow. cbn [step]. unfold runCleanup, mounted at 1.
  cbn [cleanup]. rewrite (runEffect_observed _ _ Hobserved). cbn.
  unfold streq. rewrite bool_decide_eq_false_2 by done.
  destruct (now a - 0 <? 45000)%Z eqn:Hsoon; [apply Z.ltb_lt in Hsoon; lia | done].
Qed.

(** Renders on one fingerprint, and the instants at which a timer would
    fire. *)
Definition quietEvent (signature : jsstring) (e : Event) : Prop :=
  match e with
  | Render a => fingerprint a = signature
  | TimerFires => True
  | _ => False
  end.

(** The watcher that recorded a fingerprint and lost its timer. *)
Definition stalled (signature : jsstring) (w : Watcher) : Prop :=
  governanceSignature w = signature /\ timer w = None /\ cleanup w = false /\
  inFlight w = 0 /\ audits w = [].

Lemma stalled_step signature w e :
  stalled signature w -> quietEvent signature e -> stalled signature (step w e).
Proof.
  intros (Hsig & Htimer & Hcleanup & Hflight & Haudits) Hquiet.
  destruct e as [a | | at_ |]; [| | done | done]; cbn [step].
  - unfold runCleanup. rewrite Hcleanup.
    rewrite runEffect_same_signature by (by rewrite Hsig). done.
  - by rewrite Htimer.
Qed.

Lemma stalled_run signature events w :
  stalled signature w -> Forall (quietEvent signature) events ->
  stalled signature (run w events).
Proof.
  revert w. induction events as [|e events IH]; intros w Hw Hevents; [done |].
  apply Forall_cons in Hevents as [He Hevents].
  apply IH; [by apply stalled_step | done].
Qed.

(** C5. The watcher does not keep what the dedup rule promises.
    (1) A render arms the timer of an audit and records the fingerprint
    at once. When the effect runs again on the same fingerprint before
    the timer fires, its cleanup clears the timer and the recorded
    fingerprint makes the run return early: no audit is executed for this
    window, neither now nor after any number of further renders on the
    same fingerprint. (2) When the effect runs again on another
    fingerprint while the audit of the first is in flight, the cleanup
    clears the polling flag, the run arms a second timer, and the second
    audit starts before the first has settled. *)
Theorem dedup_loses_or_doubles_audit (a1 a2 a3 : Activity) (more : list Event) :
  observed a1 -> fingerprint a1 <> [] -> (45000 <= now a1)%Z ->
  fingerprint a2 = fingerprint a1 ->
  Forall (quietEvent (fingerprint a1)) more ->
  observed a3 -> fingerprint a3 <> fingerprint a1 -> (45000 <= now a3)%Z ->
  audits (run mounted ([Render a1; Render a2] ++ more)) = [] /\
  inFlight (run mounted [Render a1; TimerFires; Render a3; TimerFires]) = 2 /\
  audits (run mounted [Render a1; TimerFires; Render a3; TimerFires])
    = [auditContext a1; auditContext a3].
Proof.
  intros Hobserved Hsignature Hnow Hsame Hmore Hobserved3 Hother Hnow3.
  unfold run. rewrite foldl_app. cbn [foldl].
  rewrite !(first_render_arms a1 Hobserved Hsignature Hnow). split.
  - assert (stalled (fingerprint a1)
              (step {| governancePolling := true; governanceLastRun := 0;
                       governanceSignature := fingerprint a1;
                       timer := Some (auditContext a1,
                                      if running a1 then 2500 else 7000)%Z;
                       cleanup := true; inFlight := 0; audits := [] |} (Render a2)))
      as Hstalled.
    { cbn [step]. unfold runCleanup. cbn [cleanup].
      rewrite runEffect_same_signature by done. done. }
    by apply (stalled_run _ more _ Hstalled Hmore).
  - cbn [step timer]. unfold runCleanup. cbn [cleanup].
    rewrite (runEffect_observed _ _ Hobserved3). cbn.
    unfold streq. rewrite bool_decide_eq_false_2 by done.
    destruct (now a3 - 0 <? 45000)%Z eqn:Hsoon; [apply Z.ltb_lt in Hsoon; lia | done].
Qed.

End Watcher.
End GovernanceClaims.

(* ===================================================================== *)
(** * Concrete runs *)
(* ===================================================================== *)

Module Runs.
Import Effects OfficeFacts JsFacts WorkflowClaims CollaborationClaims BrainstormClaims
  OfflineClaims.

Section Office.
#[local] Existing Instance RefHost.host.

(** The proxy answers every request with the same words, which are no
    JSON. *)
Definition chatty : Env :=
  Scenario.answering (js "token") (fun _ _ => Payload (Some (js " not json "))).

(** A run is in progress: the office right after a directive was
    accepted. *)
Definition midRun : World :=
  (startWorkflowAccept Scenario.silent (app Scenario.anonymousOffice) (js "Launch a beta")
     Scenario.anonymousOffice).2.

(** While that run is in progress, a second directive comes in through a
    handler of the render from before the run. *)
Lemma guard_misses_run_in_progress_witness :
  running (app Scenario.anonymousOffice) = false /\ running (app midRun) = true /\
  exists w',
    startWorkflow Scenario.silent (app Scenario.anonymousOffice) (js "Ship it") midRun
      = (Return tt, w') /\
    running (app w') = false /\ phase (app w') = idle.
Proof.
  split; [reflexivity |]. split; [reflexivity |].
  destruct (guard_misses_run_in_progress Scenario.silent (app Scenario.anonymousOffice)
              (js "Ship it") midRun)
    as ((w' & rest & Hrun & _ & Hrunning & Hphase & _) & _).
  - vm_compute. reflexivity.
  - reflexivity.
  - reflexivity.
  - exists w'. split; [exact Hrun |]. split; [exact Hrunning | exact Hphase].
Defined.

(** The identity provider hands out a token, and the proxy cannot be
    reached. *)
Definition unreachable (message : jsstring) : Env :=
  Scenario.answering (js "token") (fun _ _ => FetchRejected (JsError message)).



(** Three members in session while the proxy answers. *)
Lemma sequential_dependency_witness :
  isMember (js "PO-TAN") = true /\ isMember (js "PM-TAN") = true /\
  isMember (js "DEV-TAN") = true /\
  exists session w',
    runCollaboration chatty (app Scenario.signedInOffice) (js "Launch a beta")
      (js "Ship in three steps") [js "PO-TAN"; js "PM-TAN"; js "DEV-TAN"] []
      Scenario.signedInOffice
    = (Return session, w') /\
    cn_memberId <$> cs_notes session = [js "PO-TAN"; js "PM-TAN"; js "DEV-TAN"] /\
    length (generated w') = 3.
Proof.
  split; [vm_compute; reflexivity |]. split; [vm_compute; reflexivity |].
  split; [vm_compute; reflexivity |].
  destruct (sequential_dependency chatty (app Scenario.signedInOffice) (js "Launch a beta")
              (js "Ship in three steps") [] (js "PO-TAN") (js "PM-TAN") (js "DEV-TAN")
              (js "token") Scenario.visitor Scenario.signedInOffice)
    as (n1 & n2 & n3 & q1 & q2 & q3 & k1 & k2 & k3 & session & w'
        & Hrun & Hnotes & _ & Hsent & _).
  - reflexivity.
  - reflexivity.
  - reflexivity.
  - vm_compute. reflexivity.
  - vm_compute. reflexivity.
  - vm_compute. reflexivity.
  - vm_compute. reflexivity.
  - exists session, w'. split; [exact Hrun |].
    split; [rewrite Hnotes; reflexivity | rewrite Hsent; reflexivity].
Defined.


(** The strategy a brainstorm ends with, if it returns. *)
Definition strategyOf (outcome : Outcome BrainstormPlan * World) : option jsstring :=
  match outcome.1 with
  | Return plan => Some (bp_strategy plan)
  | Throw _ => None
  end.

(** The proxy answers with a sentence that holds a pair of braces. *)
Definition musing : Env :=
  Scenario.answering (js "token") (fun _ _ => Payload (Some (js "I think {} is fine"))).

(** The proxy answers with an object whose participants hold an object
    with a property named toString. *)
Definition tricky : Env :=
  Scenario.answering (js "token")
    (fun _ _ =>
       Payload (Some (js "{" ++ dquote ++ js "participants" ++ dquote ++ js ":[{"
                      ++ dquote ++ js "toString" ++ dquote ++ js ":1}]}"))).


(** A directive given where nobody is signed in. *)
Lemma offline_run_completes_witness :
  offline Scenario.silent (app Scenario.anonymousOffice) /\
  exists w' body,
    dispatchStartWorkflow Scenario.silent (js " Launch a beta ") Scenario.anonymousOffice
      = (Return tt, w') /\
    phaseTrace w' = [brainstorming; collaboration; execution; reporting; idle] /\
    generated w' = [] /\
    reportBodies w' ≡ₚ [body] /\
    includes body (trim (js " Launch a beta ")) = true.
Proof.
  split; [by left |].
  destruct (offline_run_completes Scenario.silent (js " Launch a beta ")
              Scenario.anonymousOffice)
    as (w' & body & Hrun & Htrace & Hsent & _ & Hbodies & _ & Hnamed).
  - by left.
  - vm_compute. reflexivity.
  - reflexivity.
  - exists w', body. split; [exact Hrun |]. split; [exact Htrace |].
    split; [exact Hsent |]. split; [exact Hbodies | exact Hnamed].
Defined.

End Office.

Section Watch.
#[local] Existing Instance RefHost.host.
Import Governance GovernanceClaims.

Definition hello : OfficeMessage :=
  {| om_id := js "m1"; om_threadId := js "thread-main"; om_senderId := js "CEO-HOBBY";
     om_senderName := js "CEO"; om_senderRole := js "CEO"; om_kind := kindChat;
     om_text := js "hello"; om_targetIds := [js "PO-TAN"]; om_attachments := [];
     om_createdAt := Scenario.stamp 1; om_source := local |}.

Definition answer : OfficeMessage :=
  {| om_id := js "m2"; om_threadId := js "thread-main"; om_senderId := js "PO-TAN";
     om_senderName := js "PO"; om_senderRole := js "PO"; om_kind := kindChat;
     om_text := js "on it"; om_targetIds := [js "CEO-HOBBY"]; om_attachments := [];
     om_createdAt := Scenario.stamp 2; om_source := local |}.

(** The office as the watcher sees it: one message, nothing running. *)
Definition glance : Activity :=
  {| user := true; devMockEnabled := false; running := false;
     threadId := js "thread-main"; threadTitle := js "Main";
     visibleMessages := [hello]; visibleMeetingTurns := []; now := 100000 |}.

(** The same window a second later, a workflow now running. *)
Definition glanceRunning : Activity :=
  {| user := true; devMockEnabled := false; running := true;
     threadId := js "thread-main"; threadTitle := js "Main";
     visibleMessages := [hello]; visibleMeetingTurns := []; now := 101000 |}.

(** Another window: a second message has arrived. *)
Definition glanceAnswered : Activity :=
  {| user := true; devMockEnabled := false; running := false;
     threadId := js "thread-main"; threadTitle := js "Main";
     visibleMessages := [hello; answer]; visibleMeetingTurns := []; now := 109000 |}.

Lemma dedup_loses_or_doubles_audit_witness :
  fingerprint glanceRunning = fingerprint glance /\
  audits (run mounted [Render glance; Render glanceRunning; TimerFires; Render glance]) = [] /\
  inFlight (run mounted [Render glance; TimerFires; Render glanceAnswered; TimerFires]) = 2.
Proof.
  split; [vm_compute; reflexivity |].
  destruct (dedup_loses_or_doubles_audit glance glanceRunning glanceAnswered
              [TimerFires; Render glance])
    as (Hlost & Hdouble & _).
  - split; [reflexivity |]. split; [reflexivity |]. left. vm_compute. discriminate.
  - vm_compute. discriminate.
  - vm_compute. discriminate.
  - vm_compute. reflexivity.
  - constructor; [exact I |]. constructor; [reflexivity | constructor].
  - split; [reflexivity |]. split; [reflexivity |]. left. vm_compute. discriminate.
  - vm_compute. discriminate.
  - vm_compute. discriminate.
  - split; [exact Hlost | exact Hdouble].
Defined.

End Watch.
End Runs.

(* ===================================================================== *)
(** * More on the plan registry *)
(* ===================================================================== *)

Module RegistryMore.
Import Registry RegistryFacts.

(** A test that an update of one element cannot tell apart finds the same
    index before and after. *)
Lemma findIndex_alter {A} (test : A -> bool) (f : A -> A) i l :
  (forall x, test (f x) = test x) ->
  findIndex test (alter f i l) = findIndex test l.
Proof.
  intros Hf. revert i. induction l as [|a l IH]; intros i; [done |].
  destruct i as [|i]; cbn [findIndex alter list_alter].
  - by rewrite Hf.
  - change (list_alter f i l) with (alter f i l). by rewrite IH.
Qed.

Section Calls.
Context `{Host}.

Lemma upsertUpdater_length member memberId plan source threadId stamp freshId previous :
  length previous <= 220 ->
  length (upsertUpdater member memberId plan source threadId stamp freshId previous) <= 220.
Proof.
  intros Hcap. unfold upsertUpdater. destruct (findIndex _ previous); cbv zeta.
  - by rewrite length_alter.
  - rewrite length_take. lia.
Qed.

Lemma apply_length reg op : length reg <= 220 -> length (apply reg op) <= 220.
Proof.
  intros Hcap. destruct op as [m plan source t now freshId | planId reply at_ updatedAt];
    cbn [apply].
  - unfold upsertActionPlan. destruct (getMember m); [| done].
    destruct (Js.truthy (trim plan)); [| done]. by apply upsertUpdater_length.
  - unfold executedUpdater. by rewrite length_map.
Qed.

(** X1. The registry never holds more than 220 records, whatever is upserted
    or executed. *)
Theorem registry_within_cap (ops : list Op) : length (run ops) <= 220.
Proof.
  induction ops as [|op ops IH] using rev_ind; [cbn; lia |].
  rewrite run_snoc. by apply apply_length.
Qed.

(** X2. Making the same registry call twice in a row (same clock reading,
    same fresh id) leaves the registry as the first call left it. *)
Theorem registry_call_idempotent (reg : list ActionPlanItem) (op : Op) :
  apply (apply reg op) op = apply reg op.
Proof.
  destruct op as [m plan source t now freshId | planId reply at_ updatedAt]; cbn [apply].
  - unfold upsertActionPlan. destruct (getMember m) as [member|]; [| done].
    destruct (Js.truthy (trim plan)); [| done].
    destruct (findIndex (sameKey t m) reg) as [i|] eqn:Hfind.
    + assert (upsertUpdater member m plan source t now freshId reg =
              alter (fun item =>
                {| ap_id := ap_id item; ap_threadId := ap_threadId item;
                   ap_memberId := ap_memberId item; ap_memberName := ap_memberName item;
                   ap_plan := trim plan; ap_source := source;
                   ap_createdAt := ap_createdAt item; ap_updatedAt := now;
                   ap_lastExecutedAt := ap_lastExecutedAt item;
                   ap_lastExecutionSummary := ap_lastExecutionSummary item |}) i reg)
        as -> by (unfold upsertUpdater; by rewrite Hfind).
      unfold upsertUpdater. rewrite findIndex_alter, Hfind by done.
      rewrite list_alter_alter_eq. by apply list_alter_ext.
    + assert (upsertUpdater member m plan source t now freshId reg =
              {| ap_id := freshId; ap_threadId := t; ap_memberId := m;
                 ap_memberName := m_displayName member; ap_plan := trim plan;
                 ap_source := source; ap_createdAt := now; ap_updatedAt := now;
                 ap_lastExecutedAt := None; ap_lastExecutionSummary := None |}
              :: take 219 reg)
        as -> by (unfold upsertUpdater; by rewrite Hfind).
      unfold upsertUpdater. cbn [findIndex].
      match goal with |- context [sameKey t m ?next] =>
        assert (sameKey t m next = true) as -> by by apply sameKey_true end.
      reflexivity.
  - unfold executedUpdater. rewrite map_map. apply map_ext. intros item.
    destruct (streq (ap_id item) planId) eqn:Hid; cbn [ap_id]; by rewrite Hid.
Qed.

(** X3. A registry call creates a record or updates records in place: every
    record it leaves either is the record an upsert has just created
    (first in the list, with the trimmed text, and [createdAt] equal to
    [updatedAt]), or has the id, thread, member, member name and creation
    time of a record that was there before. *)
Theorem registry_records_keep_identity (reg : list ActionPlanItem) (op : Op)
    (item : ActionPlanItem) :
  item ∈ apply reg op ->
  (exists old,
     old ∈ reg /\ ap_id item = ap_id old /\ ap_threadId item = ap_threadId old /\
     ap_memberId item = ap_memberId old /\ ap_memberName item = ap_memberName old /\
     ap_createdAt item = ap_createdAt old) \/
  (exists m plan source t now freshId,
     op = Upsert m plan source t now freshId /\
     head (apply reg op) = Some item /\
     ap_id item = freshId /\ ap_threadId item = t /\ ap_memberId item = m /\
     ap_plan item = trim plan /\ ap_createdAt item = now /\ ap_updatedAt item = now /\
     plansFor t m reg = []).
Proof.
  destruct op as [m plan source t now freshId | planId reply at_ updatedAt]; cbn [apply].
  - unfold upsertActionPlan. destruct (getMember m) as [member|]; [| left; by exists item].
    destruct (Js.truthy (trim plan)); [| left; by exists item].
    unfold upsertUpdater.
    destruct (findIndex (sameKey t m) reg) as [i|] eqn:Hfind; cbv zeta.
    + intros Hitem. left. apply list_elem_of_lookup in Hitem as [j Hj].
      destruct (decide (i = j)) as [<- | Hne].
      * rewrite list_lookup_alter_eq in Hj.
        destruct (reg !! i) as [old|] eqn:Hold; [| done]. injection Hj as <-.
        exists old. split; [by eapply list_elem_of_lookup_2 | done].
      * rewrite list_lookup_alter_ne in Hj by done.
        exists item. split; [by eapply list_elem_of_lookup_2 | done].
    + intros Hitem. cbn [take] in Hitem. apply elem_of_cons in Hitem as [-> | Hitem].
      * right. eexists m, plan, source, t, now, freshId. split_and!; try done.
        destruct (plansFor t m reg) as [|found rest] eqn:Hfor; [done |].
        assert (found ∈ plansFor t m reg) as Hfound by (rewrite Hfor; constructor).
        apply list_elem_of_filter in Hfound as [Hkey Hin].
        by rewrite (proj1 (findIndex_None _ _) Hfind found Hin) in Hkey.
      * left. exists item. split; [| done].
        apply elem_of_take in Hitem as (j & Hj & _). by eapply list_elem_of_lookup_2.
  - unfold executedUpdater. intros Hitem. left.
    apply list_elem_of_In, in_map_iff in Hitem as (old & <- & Hold).
    exists old. split; [by apply list_elem_of_In |].
    by destruct (streq (ap_id old) planId).
Qed.

(** Executing a plan leaves the number and the order of the records, and
    the thread, member, text, source and creation time of each; a record
    whose id is not the executed one is left as it was, and a record with
    the executed id gets the execution time and, as its summary, the first
    360 units of the reply. *)
Theorem execution_only_stamps (reg : list ActionPlanItem)
    (planId reply executedAt updatedAt : jsstring) (i : nat) (old : ActionPlanItem) :
  reg !! i = Some old ->
  exists item,
    executedUpdater planId reply executedAt updatedAt reg !! i = Some item /\
    length (executedUpdater planId reply executedAt updatedAt reg) = length reg /\
    ap_id item = ap_id old /\ key item = key old /\ ap_plan item = ap_plan old /\
    ap_source item = ap_source old /\ ap_createdAt item = ap_createdAt old /\
    (ap_id old <> planId -> item = old) /\
    (ap_id old = planId ->
       ap_lastExecutedAt item = Some executedAt /\ ap_updatedAt item = updatedAt /\
       ap_lastExecutionSummary item = Some (take 360 reply) /\
       length (take 360 reply) <= 360).
Proof.
  intros Hold. unfold executedUpdater. rewrite length_map.
  change (map ?f reg) with (f <$> reg). rewrite list_lookup_fmap, Hold.
  cbn [fmap option_fmap option_map].
  eexists. split; [reflexivity |]. unfold streq.
  destruct (decide (ap_id old = planId)) as [Hid | Hid].
  - rewrite bool_decide_eq_true_2 by done. cbn. split_and!; try done.
    intros _. split_and!; try done.
    + rewrite length_take. lia.
  - rewrite bool_decide_eq_false_2 by done. split_and!; done.
Qed.

End Calls.

Section CallsRun.
#[local] Existing Instance RefHost.host.

(** The record the reference upsert creates in an empty registry. *)
Definition firstPlan : ActionPlanItem :=
  {| ap_id := js "id-0"; ap_threadId := js "thread-0"; ap_memberId := js "PO-TAN";
     ap_memberName := js "PO-TAN"; ap_plan := js "plan"; ap_source := workflow;
     ap_createdAt := js "2026-01-01T00:00:00.000Z";
     ap_updatedAt := js "2026-01-01T00:00:00.000Z";
     ap_lastExecutedAt := None; ap_lastExecutionSummary := None |}.

Lemma registry_records_keep_identity_witness :
  apply [] (RegistryClaims.upsertOn 0 " plan ") = [firstPlan] /\
  ((exists old,
      old ∈ [] /\ ap_id firstPlan = ap_id old /\ ap_threadId firstPlan = ap_threadId old /\
      ap_memberId firstPlan = ap_memberId old /\
      ap_memberName firstPlan = ap_memberName old /\
      ap_createdAt firstPlan = ap_createdAt old) \/
   (exists m plan source t now freshId,
      RegistryClaims.upsertOn 0 " plan " = Upsert m plan source t now freshId /\
      head (apply [] (RegistryClaims.upsertOn 0 " plan ")) = Some firstPlan /\
      ap_id firstPlan = freshId /\ ap_threadId firstPlan = t /\
      ap_memberId firstPlan = m /\ ap_plan firstPlan = trim plan /\
      ap_createdAt firstPlan = now /\ ap_updatedAt firstPlan = now /\
      plansFor t m [] = [])).
Proof.
  split; [vm_compute; reflexivity |].
  apply (registry_records_keep_identity [] (RegistryClaims.upsertOn 0 " plan ") firstPlan).
  vm_compute. apply list_elem_of_here.
Defined.

Lemma execution_only_stamps_witness :
  exists item,
    executedUpdater (js "id-0") (js "done") (js "t1") (js "t2") [firstPlan] !! 0 = Some item /\
    ap_plan item = js "plan" /\ ap_lastExecutionSummary item = Some (js "done").
Proof.
  destruct (execution_only_stamps [firstPlan] (js "id-0") (js "done") (js "t1") (js "t2")
              0 firstPlan)
    as (item & Hitem & _ & _ & _ & Hplan & _ & _ & _ & Hstamp).
  - reflexivity.
  - exists item. split; [exact Hitem |]. split; [exact Hplan |].
    destruct Hstamp as (_ & _ & Hsummary & _); [reflexivity | exact Hsummary].
Defined.

End CallsRun.
End RegistryMore.

(* ===================================================================== *)
(** * More on the office: bounded buffers, the watch, persistence *)
(* ===================================================================== *)

Module OfficeMore.
Import Effects OfficeFacts JsFacts WorkflowClaims CollaborationClaims OfflineClaims.

(** The four buffers of the office that are cut to a length when they
    grow: logs and alerts at 140, meeting turns at 320, plans at 220. *)
Definition withinCaps (r : AppState) : Prop :=
  length (activityLogs r) <= 140 /\ length (meetingTurns r) <= 320 /\
  length (governanceAlerts r) <= 140 /\ length (actionPlans r) <= 220.

Definition capped : relation World :=
  fun w w' => withinCaps (app w) -> withinCaps (app w').

#[local] Instance capped_preorder : PreOrder capped.
Proof.
  split; [intros w Hw; exact Hw | intros a b c Hab Hbc Ha; by apply Hbc, Hab].
Qed.

Ltac cap_side :=
  let w := fresh "w" in
  intros w; unfold capped, withinCaps; cbn;
  let H1 := fresh in let H2 := fresh in let H3 := fresh in let H4 := fresh in
  intros (H1 & H2 & H3 & H4);
  split_and!; rewrite ?length_take; try lia;
  try (apply RegistryMore.upsertUpdater_length; lia).

Ltac cap_hook :=
  idtac;
  lazymatch goal with
  | |- frames capped (modify _) => apply (frames_modify capped); cap_side
  | |- frames capped (setState _) => apply (frames_modify capped); cap_side
  | |- frames capped external => apply (frames_external capped); cap_side
  end.

Section Buffers.
Context `{Host} (env : Env).

Lemma startWorkflow_capped r task : frames capped (startWorkflow env r task).
Proof. frame_by cap_hook. Qed.

(** X4. A call of [startWorkflow], accepted or not, failing or not, leaves
    the logs, the alerts, the meeting turns and the plans within their
    caps when it found them there. *)
Theorem workflow_keeps_buffers_bounded (task : jsstring) (w : World) :
  withinCaps (app w) -> withinCaps (app (dispatchStartWorkflow env task w).2).
Proof. apply (startWorkflow_capped (app w) task w). Qed.

End Buffers.

Section Watch.
Context `{Host} (env : Env) (r : AppState).

(** The prompt of one governance check. *)
Definition watchPrompt (context : jsstring) : jsstring :=
  js "다음 실행 맥락이 HOBBYTAN 헌법(법/규정 준수, 역할 충돌 금지, 개인정보/보안 보호)을 위반하는지 감사: "
  ++ context.

(** What a check makes of the outcome of its officer call: the alert's
    message and status. *)
Definition verdict (outcome : Outcome jsstring) : jsstring * AlertStatus :=
  match outcome with
  | Return reply => (reply, if riskPattern reply then warning else ok)
  | Throw error => (messageOr error (js "감시 실패"), warning)
  end.

(** One pass of the loop of [runGovernanceWatch]. *)
Definition watchOne (context : jsstring) (checker : Checker) : M unit :=
  tryCatch
    (reply ← runOfficerSingleReply env r (checkerId checker) (watchPrompt context)
               [] (js "CEO-HOBBY") [];
     let status := if riskPattern reply then warning else ok in
     addGovernanceAlert env r checker reply status ;;
     appendLog env r execution
       (checkerId checker ++ js " 감시 보고 (" ++ statusText status ++ js ")"))
    (fun error =>
       let message := messageOr error (js "감시 실패") in
       addGovernanceAlert env r checker message warning ;;
       appendLog env r execution (checkerId checker ++ js " 감시 실패: " ++ message)).

Lemma runGovernanceWatch_passes context :
  runGovernanceWatch env r context =
  (watchOne context LEGAL_TAN ;; watchOne context HR_TAN ;; mret tt).
Proof. unfold runGovernanceWatch, watchOne, watchPrompt. cbn [forEach]. reflexivity. Qed.

Lemma runOfficerSingleReply_alerts memberId prompt attachments targetLabel prior :
  frames (same (fun w => governanceAlerts (app w)))
    (runOfficerSingleReply env r memberId prompt attachments targetLabel prior).
Proof. frame. Qed.

(** One check always ends with one more alert, the newest, that tells
    how the officer call went. *)
Lemma watchOne_alerts context checker w :
  exists alert w',
    watchOne context checker w = (Return tt, w') /\
    governanceAlerts (app w') = take 140 (alert :: governanceAlerts (app w)) /\
    ga_source alert = checker /\ ga_threadId alert = activeThreadId r /\
    (ga_message alert, ga_status alert) =
      verdict (runOfficerSingleReply env r (checkerId checker) (watchPrompt context)
                 [] (js "CEO-HOBBY") [] w).1.
Proof.
  unfold watchOne, tryCatch. rewrite bind_run.
  pose proof (runOfficerSingleReply_alerts (checkerId checker) (watchPrompt context)
                [] (js "CEO-HOBBY") [] w) as Hsame.
  destruct (runOfficerSingleReply env r (checkerId checker) (watchPrompt context)
              [] (js "CEO-HOBBY") [] w) as [[reply | error] w1].
  - unfold same in Hsame. cbn [snd] in Hsame. cbv zeta.
    eexists _, _. split; [reflexivity |]. cbn [fst verdict].
    split; [cbn; by rewrite Hsame |]. done.
  - unfold same in Hsame. cbn [snd] in Hsame. cbv zeta.
    eexists _, _. split; [reflexivity |]. cbn [fst verdict].
    split; [cbn; by rewrite Hsame |]. done.
Qed.

(** X5. [runGovernanceWatch] never throws. It adds exactly two alerts, the
    one of LEGAL-TAN and then, in front of it, the one of HR-TAN, each
    for the thread on display. An officer call that fails gives a warning
    whose message is the message of the error; a call that answers gives
    its reply, as a warning when the reply matches the risk pattern. *)
Theorem watch_always_reports_twice (context : jsstring) (w : World) :
  exists legal hr w1 w',
    runGovernanceWatch env r context w = (Return tt, w') /\
    governanceAlerts (app w') =
      take 140 (hr :: take 140 (legal :: governanceAlerts (app w))) /\
    ga_source legal = LEGAL_TAN /\ ga_source hr = HR_TAN /\
    ga_threadId legal = activeThreadId r /\ ga_threadId hr = activeThreadId r /\
    (ga_message legal, ga_status legal) =
      verdict (runOfficerSingleReply env r (js "LEGAL-TAN") (watchPrompt context)
                 [] (js "CEO-HOBBY") [] w).1 /\
    (ga_message hr, ga_status hr) =
      verdict (runOfficerSingleReply env r (js "HR-TAN") (watchPrompt context)
                 [] (js "CEO-HOBBY") [] w1).1.
Proof.
  rewrite runGovernanceWatch_passes.
  destruct (watchOne_alerts context LEGAL_TAN w)
    as (legal & w1 & Hrun1 & Halerts1 & Hsource1 & Hthread1 & Hverdict1).
  destruct (watchOne_alerts context HR_TAN w1)
    as (hr & w' & Hrun2 & Halerts2 & Hsource2 & Hthread2 & Hverdict2).
  exists legal, hr, w1, w'.
  rewrite (bind_return _ _ _ _ _ Hrun1), (bind_return _ _ _ _ _ Hrun2).
  split; [reflexivity |]. split; [by rewrite Halerts2, Halerts1 |].
  change (checkerId LEGAL_TAN) with (js "LEGAL-TAN") in Hverdict1.
  change (checkerId HR_TAN) with (js "HR-TAN") in Hverdict2.
  repeat (split; [assumption |]). assumption.
Qed.

(** The canned reply of an officer when there is no credential. *)
Definition offlineReply (member : CouncilMember) (prompt : jsstring) : jsstring :=
  m_role member ++ js " 오프라인 응답: '" ++ prompt
  ++ js "'에 대한 3단계 실행안, 리스크 1개, CEO 확인 포인트 1개를 제시합니다.".

Lemma officer_offline memberId member prompt attachments targetLabel prior w :
  offline env r -> getMember memberId = Some member ->
  (runOfficerSingleReply env r memberId prompt attachments targetLabel prior w).1
  = Return (offlineReply member prompt).
Proof.
  intros Hoffline Hget. unfold runOfficerSingleReply. rewrite Hget. cbv zeta.
  destruct (token_offline env r Hoffline w) as (token & w' & Hrun & _ & ->).
  rewrite (bind_return _ _ _ _ _ Hrun). reflexivity.
Qed.

Lemma includesCI_app_r s t x : includesCI t x = true -> includesCI (s ++ t) x = true.
Proof.
  intros Ht. induction s as [|c s IH]; [done |].
  change (includesCI ((c :: s) ++ t) x)
    with (startsWithCI (c :: s ++ t) x || includesCI (s ++ t) x).
  rewrite IH. apply orb_true_r.
Qed.

(** The canned reply always matches the risk pattern: it speaks of one
    risk. *)
Lemma offlineReply_risky member prompt : riskPattern (offlineReply member prompt) = true.
Proof.
  unfold riskPattern, offlineReply.
  assert (includesCI
            (m_role member ++ js " 오프라인 응답: '" ++ prompt
             ++ js "'에 대한 3단계 실행안, 리스크 1개, CEO 확인 포인트 1개를 제시합니다.")
            (js "리스크") = true) as ->.
  { do 3 apply includesCI_app_r. vm_compute. reflexivity. }
  by rewrite orb_true_r.
Qed.

(** X6. Without a credential both checks of the watch end in a warning,
    whatever the context: the canned reply of the officer speaks of a
    risk, and the watch reads that as a finding. *)
Theorem offline_watch_always_warns (context : jsstring) (w : World) :
  offline env r ->
  exists legal hr w',
    runGovernanceWatch env r context w = (Return tt, w') /\
    governanceAlerts (app w') =
      take 140 (hr :: take 140 (legal :: governanceAlerts (app w))) /\
    ga_source legal = LEGAL_TAN /\ ga_status legal = warning /\
    ga_source hr = HR_TAN /\ ga_status hr = warning /\
    includes (ga_message legal) context = true /\
    includes (ga_message hr) context = true.
Proof.
  intros Hoffline. rewrite runGovernanceWatch_passes.
  destruct (watchOne_alerts context LEGAL_TAN w)
    as (legal & w1 & Hrun1 & Halerts1 & Hsource1 & _ & Hverdict1).
  destruct (watchOne_alerts context HR_TAN w1)
    as (hr & w' & Hrun2 & Halerts2 & Hsource2 & _ & Hverdict2).
  assert (forall checker, exists member, getMember (checkerId checker) = Some member)
    as Hroster.
  { intros checker.
    assert (isMember (checkerId checker) = true) as Hmember
      by (destruct checker; vm_compute; reflexivity).
    unfold isMember in Hmember. destruct (getMember (checkerId checker)); [by eexists | done]. }
  destruct (Hroster LEGAL_TAN) as [lawyer Hlawyer].
  destruct (Hroster HR_TAN) as [people Hpeople].
  rewrite (officer_offline _ lawyer _ _ _ _ _ Hoffline Hlawyer) in Hverdict1.
  rewrite (officer_offline _ people _ _ _ _ _ Hoffline Hpeople) in Hverdict2.
  cbn [verdict] in Hverdict1, Hverdict2. rewrite offlineReply_risky in Hverdict1, Hverdict2.
  injection Hverdict1 as Hmessage1 Hstatus1. injection Hverdict2 as Hmessage2 Hstatus2.
  assert (forall member, includes (offlineReply member (watchPrompt context)) context = true)
    as Hnamed.
  { intros member. unfold offlineReply, watchPrompt.
    do 2 apply includes_app_r. apply includes_app_l, includes_app_r, includes_refl. }
  exists legal, hr, w'.
  rewrite (bind_return _ _ _ _ _ Hrun1), (bind_return _ _ _ _ _ Hrun2).
  split; [reflexivity |]. split; [by rewrite Halerts2, Halerts1 |].
  rewrite Hmessage1, Hmessage2.
  repeat (split; [done |]). done.
Qed.

End Watch.

Section Persistence.
Context `{Host} (env : Env) (r : AppState).

(** The message went to the list kept on the device and the cloud
    collection was left alone. *)
Definition messageKept (message : MessageData) (w w' : World) : Prop :=
  exists kept,
    officeMessages w' = officeMessages w /\
    localMessages (app w') = localMessages (app w) ++ [kept] /\
    om_source kept = local /\ om_text kept = md_text message /\
    om_threadId kept = md_threadId message /\
    om_senderId kept = md_senderId message /\
    om_attachments kept = md_attachments message.

(** The same for a report, which goes to the front of its list. *)
Definition reportKept (report : ReportData) (w w' : World) : Prop :=
  exists kept,
    ceoReports w' = ceoReports w /\
    localReports (app w') = kept :: localReports (app w) /\
    rp_source kept = local /\ rp_body kept = rd_body report /\
    rp_threadId kept = rd_threadId report /\ rp_title kept = rd_title report /\
    rp_assets kept = rd_assets report.

(** X7. A message or a report handed to [persistOfficeMessage] or
    [persistReport] is never lost and never kept twice, and the call
    never throws. Where it goes is decided by who is signed in and by
    the answer of the database to the one [addDoc] that is made (for a
    message at the tick after the clock was read, for a report at the
    tick of the call): signed in and accepted, it is appended to the
    cloud collection under the uid of the visitor and nothing is kept on
    the device; signed in and refused, or with nobody signed in, it is
    added to the list kept on the device, marked local, and the cloud
    collection is left alone. *)
Theorem persisted_exactly_once (message : MessageData) (report : ReportData) (w : World) :
  (exists w',
     persistOfficeMessage env r message w = (Return tt, w') /\
     match user r with
     | Some visitor =>
       match addDoc env (S (tick w)) with
       | None =>
         officeMessages w' = officeMessages w ++ [(u_uid visitor, message)] /\
         localMessages (app w') = localMessages (app w)
       | Some _ => messageKept message w w'
       end
     | None => messageKept message w w'
     end) /\
  (exists w',
     persistReport env r report w = (Return tt, w') /\
     match user r with
     | Some visitor =>
       match addDoc env (tick w) with
       | None =>
         ceoReports w' = ceoReports w ++ [(u_uid visitor, report)] /\
         localReports (app w') = localReports (app w)
       | Some _ => reportKept report w w'
       end
     | None => reportKept report w w'
     end).
Proof.
  split.
  - unfold persistOfficeMessage. rewrite bind_run. cbn [isoNow]. unfold isoNow, external.
    rewrite bind_run. cbv beta iota. cbn [mret ST_ret]. cbv beta iota.
    destruct (user r) as [visitor|].
    + rewrite bind_run. cbv beta iota. cbn [tick on_tick].
      destruct (addDoc env (S (tick w))).
      * eexists. split; [reflexivity |]. eexists. split_and!; reflexivity.
      * eexists. split; [reflexivity |]. split; reflexivity.
    + eexists. split; [reflexivity |]. eexists. split_and!; reflexivity.
  - unfold persistReport. destruct (user r) as [visitor|].
    + unfold external. rewrite bind_run. cbv beta iota.
      destruct (addDoc env (tick w)).
      * eexists. split; [reflexivity |]. eexists. split_and!; reflexivity.
      * eexists. split; [reflexivity |]. split; reflexivity.
    + eexists. split; [reflexivity |]. eexists. split_and!; reflexivity.
Qed.

(** The characters [uploadFileAsset] lets into the name part of a
    storage path. *)
Definition pathSafe (c : N) : bool :=
  ((97 <=? c) && (c <=? 122) || (65 <=? c) && (c <=? 90) || (48 <=? c) && (c <=? 57)
   || (c =? 46) || (c =? 95) || (c =? 45))%N.

Lemma safeUnit_safe c : pathSafe (safeUnit c) = true.
Proof. unfold safeUnit. fold (pathSafe c). by destruct (pathSafe c) eqn:Hc. Qed.

Lemma uploadFileAsset_office file category :
  frames (same app) (uploadFileAsset env r file category).
Proof. frame. Qed.

(** X8. An upload never changes the state of the office. With nobody signed
    in it never fails and gives a local asset without a storage path.
    An asset with a storage path belongs to a signed-in visitor, is
    marked cloud, and its path is the folder of the visitor and the
    category, a clock reading, a hyphen and the file name with every
    character outside letters, digits, dot, underscore and hyphen
    replaced: the file name adds no path segment. The name, type and
    size of the asset are those of the file. *)
Theorem upload_outcomes (file : File) (category : jsstring) (w : World) :
  app (uploadFileAsset env r file category w).2 = app w /\
  (user r = None ->
   exists asset, (uploadFileAsset env r file category w).1 = Return asset /\
                 fa_source asset = local /\ fa_path asset = None) /\
  (forall asset,
     (uploadFileAsset env r file category w).1 = Return asset ->
     fa_name asset = f_name file /\ fa_size asset = fileSize file /\
     fa_mimeType asset = orElse (f_type file) (js "application/octet-stream") /\
     forall path, fa_path asset = Some path ->
       exists visitor stamp name,
         user r = Some visitor /\ fa_source asset = cloud /\
         path = js "hobbytan-office/" ++ u_uid visitor ++ js "/" ++ category ++ js "/"
                ++ decimal stamp ++ js "-" ++ name /\
         length name = length (f_name file) /\
         forallb pathSafe name = true).
Proof.
  split; [exact (uploadFileAsset_office file category w) |].
  unfold uploadFileAsset. cbv zeta. destruct (user r) as [visitor|].
  - split; [done |]. intros asset.
    unfold now, external.
    repeat (rewrite bind_run; cbv beta iota; cbn [mret ST_ret tick on_tick]; cbv beta iota).
    match goal with |- context [uploadBytes env ?n ?p file] =>
      destruct (uploadBytes env n p file) end; [done |].
    repeat (rewrite bind_run; cbv beta iota; cbn [mret ST_ret tick on_tick]; cbv beta iota).
    match goal with |- context [getDownloadURL env ?n ?p] =>
      destruct (getDownloadURL env n p) end; [done |].
    intros [= <-]. cbn. split_and!; try done.
    intros path [= <-]. eexists visitor, _, _. split_and!; try done.
    + by rewrite length_map.
    + apply forallb_forall. intros c Hc. apply in_map_iff in Hc as (d & <- & _).
      apply safeUnit_safe.
  - split.
    + intros _. eexists. split; [reflexivity |]. done.
    + intros asset [= <-]. cbn. split_and!; try done.
Qed.

End Persistence.

Section BuffersRun.
#[local] Existing Instance RefHost.host.

Lemma workflow_keeps_buffers_bounded_witness :
  withinCaps (app Scenario.anonymousOffice) /\
  withinCaps
    (app (dispatchStartWorkflow Scenario.silent (js "Launch a beta")
            Scenario.anonymousOffice).2).
Proof.
  assert (withinCaps (app Scenario.anonymousOffice)) as Hstart.
  { unfold withinCaps. cbn. lia. }
  split; [exact Hstart |].
  apply (workflow_keeps_buffers_bounded Scenario.silent (js "Launch a beta")
           Scenario.anonymousOffice Hstart).
Defined.

Lemma offline_watch_always_warns_witness :
  offline Scenario.silent (app Scenario.anonymousOffice) /\
  exists legal hr w',
    runGovernanceWatch Scenario.silent (app Scenario.anonymousOffice) (js "chat session")
      Scenario.anonymousOffice = (Return tt, w') /\
    governanceAlerts (app w') = [hr; legal] /\
    ga_status legal = warning /\ ga_status hr = warning.
Proof.
  split; [by left |].
  destruct (offline_watch_always_warns Scenario.silent (app Scenario.anonymousOffice)
              (js "chat session") Scenario.anonymousOffice)
    as (legal & hr & w' & Hrun & Halerts & _ & Hlegal & _ & Hhr & _).
  - by left.
  - exists legal, hr, w'. split; [exact Hrun |]. split; [exact Halerts |].
    split; [exact Hlegal | exact Hhr].
Defined.

End BuffersRun.
End OfficeMore.

(* ===================================================================== *)
(** * More on the dispatch layer: the handler and the identity check *)
(* ===================================================================== *)

Module DispatchMore.
Import Effects JsFacts Dispatch.

(** ** [trim] gives a fixed point of [trim] *)

Lemma trimStart_suffix s :
  exists blank, s = blank ++ trimStart s /\ forallb isWhiteSpace blank = true.
Proof.
  induction s as [|c s (blank & Hs & Hblank)]; [by exists [] |].
  cbn [trimStart]. destruct (isWhiteSpace c) eqn:Hc.
  - exists (c :: blank). cbn. rewrite Hc, Hblank. split; [by rewrite <- Hs | done].
  - by exists [].
Qed.

Lemma trimStart_head s c rest : trimStart s = c :: rest -> isWhiteSpace c = false.
Proof.
  induction s as [|d s IH]; [done |]. cbn [trimStart].
  destruct (isWhiteSpace d) eqn:Hd; [exact IH | by intros [= <- _]].
Qed.

Lemma trimStart_fixed s :
  (forall c rest, s = c :: rest -> isWhiteSpace c = false) -> trimStart s = s.
Proof. destruct s as [|c s]; [done |]. intros Hs. cbn. by rewrite (Hs c s). Qed.

Lemma trimStart_idem s : trimStart (trimStart s) = trimStart s.
Proof. apply trimStart_fixed. intros c rest. apply trimStart_head. Qed.

Lemma trim_idem s : trim (trim s) = trim s.
Proof.
  unfold trim, trimEnd.
  set (u := trimStart s). set (v := trimStart (rev u)).
  assert (trimStart (rev v) = rev v) as Hhead.
  { apply trimStart_fixed. intros c rest Hv.
    destruct (trimStart_suffix (rev u)) as (blank & Hu & _). fold v in Hu.
    assert (u = rev v ++ rev blank) as Hsplit
      by (rewrite <- (rev_involutive u), Hu, rev_app_distr; done).
    rewrite Hv in Hsplit. apply (trimStart_head s c (rest ++ rev blank)).
    fold u. by rewrite Hsplit. }
  rewrite Hhead, rev_involutive. unfold v. by rewrite trimStart_idem.
Qed.

Section Handler.
Context `{Host} (backend : Backend).

(** The message for a provider whose secret is not configured. *)
Definition notConfigured (who : LlmProvider) : jsstring :=
  match who with
  | openai => js "OPENAI_API_KEY is not configured."
  | anthropic => js "ANTHROPIC_API_KEY is not configured."
  | xai => js "XAI_API_KEY is not configured."
  | gemini => js "GEMINI_API_KEY is not configured."
  end.

Lemma call_run {P} who (reply : nat -> BackendCall -> BackendReply P) request w :
  call who reply request w =
  (Return (reply (wireTick w) request),
   {| wireTick := S (wireTick w); calls := calls w ++ [(who, request)] |}).
Proof. reflexivity. Qed.

(** What a provider function returns is not empty, is trimmed, and took
    at least one call; without a configured secret it throws before any
    call. *)
Lemma requestText_outcome who body w :
  (forall text w', requestText backend who body w = (Return text, w') ->
     Js.truthy text = true /\ trim text = text /\ length (calls w) < length (calls w')) /\
  (isConfiguredSecret (secret backend who) = false ->
     requestText backend who body w =
       (Throw (JsError (notConfigured who)), w)).
Proof.
  destruct who; cbn [requestText notConfigured].
  - unfold requestOpenAIText. cbv zeta.
    destruct (isConfiguredSecret (secret backend openai)); cbn [negb]; cbv iota;
      [| split; [intros text w' [=] | intros _; reflexivity]].
    split; [| done]. intros text w'. rewrite bind_run, call_run. cbv beta iota.
    assert (forall json (w1 : Wire),
              length (calls w) < length (calls w1) ->
              (if Js.truthy (readOpenAIText json) then mret (readOpenAIText json)
               else throw (JsError (js "OpenAI response did not contain text output.")))
                w1 = (Return text, w') ->
              Js.truthy text = true /\ trim text = text /\
              length (calls w) < length (calls w')) as Hfinish.
    { intros json w1 Hgrown. destruct (Js.truthy (readOpenAIText json)) eqn:Htext; [| done].
      intros [= <- <-]. split; [done |]. split; [| done].
      unfold readOpenAIText. destruct (Js.truthy (trim (default [] (output_text json))));
        apply trim_idem. }
    match goal with |- context [openaiReply backend (wireTick w) ?c] =>
      destruct (openaiReply backend (wireTick w) c) as [error | status bodyText | error | json]
    end; [done | | done |].
    + destruct (default false (useWebSearch body)); [| done].
      rewrite bind_run, call_run. cbv beta iota. cbn [wireTick calls].
      match goal with |- context [openaiReply backend (S (wireTick w)) ?c] =>
        destruct (openaiReply backend (S (wireTick w)) c)
          as [error' | status' bodyText' | error' | json']
      end; [done | done | done |].
      apply Hfinish. cbn. rewrite !length_app. cbn. lia.
    + apply Hfinish. cbn. rewrite length_app. cbn. lia.
  - unfold requestAnthropicText. cbv zeta.
    destruct (isConfiguredSecret (secret backend anthropic)); cbn [negb]; cbv iota;
      [| split; [intros text w' [=] | intros _; reflexivity]].
    split; [| done]. intros text w'. rewrite bind_run, call_run. cbv beta iota.
    match goal with |- context [anthropicReply backend (wireTick w) ?c] =>
      destruct (anthropicReply backend (wireTick w) c) as [error | status bodyText | error | json]
    end; [done | done | done |].
    match goal with |- context [if Js.truthy ?t then _ else _] =>
      destruct (Js.truthy t) eqn:Htext end; [| done].
    intros [= <- <-]. split; [done |]. split; [apply trim_idem |].
    cbn. rewrite length_app. cbn. lia.
  - unfold requestXAIText. cbv zeta.
    destruct (isConfiguredSecret (secret backend xai)); cbn [negb]; cbv iota;
      [| split; [intros text w' [=] | intros _; reflexivity]].
    split; [| done]. intros text w'. rewrite bind_run, call_run. cbv beta iota.
    match goal with |- context [xaiReply backend (wireTick w) ?c] =>
      destruct (xaiReply backend (wireTick w) c) as [error | status bodyText | error | json]
    end; [done | done | done |].
    destruct (default [] (choices json)) as [|first rest]; [done |].
    destruct (xc_message first ≫= xm_content) as [[content | parts] |]; [| | done].
    + destruct (Js.truthy (trim content)) eqn:Htext; [| done].
      intros [= <- <-]. split; [done |]. split; [apply trim_idem |].
      cbn. rewrite length_app. cbn. lia.
    + match goal with |- context [if Js.truthy ?t then _ else _] =>
        destruct (Js.truthy t) eqn:Htext end; [| done].
      intros [= <- <-]. split; [done |]. split; [apply trim_idem |].
      cbn. rewrite length_app. cbn. lia.
  - unfold requestGeminiText. cbv zeta.
    destruct (isConfiguredSecret (secret backend gemini)); cbn [negb]; cbv iota;
      [| split; [intros text w' [=] | intros _; reflexivity]].
    split; [| done]. intros text w'. rewrite bind_run, call_run. cbv beta iota.
    match goal with |- context [geminiReply backend (wireTick w) ?c] =>
      destruct (geminiReply backend (wireTick w) c) as [error | status bodyText | error | json]
    end; [done | done | done |].
    match goal with |- context [if Js.truthy ?t then _ else _] =>
      destruct (Js.truthy t) eqn:Htext end; [| done].
    intros [= <- <-]. split; [done |]. split; [apply trim_idem |].
    cbn. rewrite length_app. cbn. lia.
Qed.

(** X9. [handleLlmText] always answers, and never throws. A request whose
    input is missing or blank is answered 400 before any provider is
    called. A 200 answer carries a text that is not empty and has no white
    space at its ends, and at least one provider call was made for it.
    Every other answer is a 500 with the message of the error; when the
    secret of the provider is not configured this is the message that
    names the secret, and no call was made. *)
Theorem handler_always_answers (body : LlmRequestBody) (w : Wire) :
  exists response w',
    handleLlmText backend body w = (Return response, w') /\
    (Js.truthy (trim (default [] (input body))) = false ->
       response = JsonError 400 (js "input is required") /\ w' = w) /\
    (forall text, response = Json200 text ->
       Js.truthy text = true /\ trim text = text /\
       length (calls w) < length (calls w')) /\
    (forall status message, response = JsonError status message ->
       status = 400%N \/ status = 500%N) /\
    (Js.truthy (trim (default [] (input body))) = true ->
     isConfiguredSecret (secret backend (default openai (provider body))) = false ->
       response = JsonError 500 (notConfigured (default openai (provider body))) /\
       w' = w).
Proof.
  unfold handleLlmText, tryCatch. cbv zeta.
  destruct (Js.truthy (trim (default [] (input body)))) eqn:Hinput; cbn [negb]; cbv iota.
  - rewrite bind_run.
    destruct (requestText_outcome (default openai (provider body)) body w)
      as [Hreturned Hsecret].
    destruct (requestText backend (default openai (provider body)) body w)
      as [[text | error] w1] eqn:Hrun.
    + exists (Json200 text), w1. split; [reflexivity |].
      split; [intros [=] |].
      split; [intros ? [= <-]; by apply Hreturned |].
      split; [intros ? ? [=] |].
      intros _ Hnot. specialize (Hsecret Hnot). discriminate Hsecret.
    + exists (JsonError 500 (messageOr error (js "Unknown error"))), w1.
      split; [reflexivity |]. split; [intros [=] |].
      split; [intros ? [=] |].
      split; [intros ? ? [= <- _]; by right |].
      intros _ Hnot. specialize (Hsecret Hnot). injection Hsecret as -> ->.
      split; reflexivity.
  - exists (JsonError 400 (js "input is required")), w. split; [reflexivity |].
    split; [done |]. split; [intros ? [=] |].
    split; [intros ? ? [= <- _]; by left |]. intros [=].
Qed.

Lemma getAuthToken_bearer authorization :
  getAuthToken authorization <> [] ->
  authorization = Some (js "Bearer " ++ getAuthToken authorization).
Proof.
  unfold getAuthToken. destruct authorization as [header|]; [| done].
  destruct (startsWith header (js "Bearer ")) eqn:Hstart; [| done].
  apply startsWith_spec in Hstart as [post ->]. intros _. f_equal.
Qed.

(** X10. [POST /api/llm/text] behind the identity check. A request without a
    bearer token is answered 401 and nothing else happens; a request whose
    token the identity service rejects is answered 401 with the message of
    the rejection, and no provider is called. So whenever a provider was
    called, the request carried [Bearer] and a token that is not empty,
    and the identity service had accepted that token. *)
Theorem provider_called_only_after_verification
    (authorization : option jsstring) (body : LlmRequestBody) (w : Wire) :
  (getAuthToken authorization = [] ->
     postLlmText backend authorization body w
       = (Return (JsonError 401 (js "Missing Firebase ID token")), w)) /\
  (forall error,
     getAuthToken authorization <> [] ->
     verifyIdToken backend (wireTick w) (getAuthToken authorization) = Some error ->
     (postLlmText backend authorization body w).1
       = Return (JsonError 401 (messageOr error (js "Invalid Firebase ID token"))) /\
     calls (postLlmText backend authorization body w).2 = calls w) /\
  (calls (postLlmText backend authorization body w).2 <> calls w ->
     exists token,
       authorization = Some (js "Bearer " ++ token) /\ token <> [] /\
       verifyIdToken backend (wireTick w) token = None).
Proof.
  unfold postLlmText. cbv zeta.
  destruct (getAuthToken authorization) as [|c token] eqn:Htoken.
  - split; [intros _; reflexivity |]. split; [intros ? Hne; by destruct Hne |].
    cbn. intros Hne. by destruct Hne.
  - cbn [Js.truthy negb]. cbv iota. split; [intros [=] |].
    destruct (verifyIdToken backend (wireTick w) (c :: token)) as [error|] eqn:Hverify.
    + split; [intros ? _ [= <-]; split; reflexivity |].
      cbn. intros Hne. by destruct Hne.
    + split; [intros ? _ [=] |]. intros _. exists (c :: token).
      split; [| split; [intros [=] | exact Hverify]].
      rewrite <- Htoken. apply getAuthToken_bearer. rewrite Htoken. intros [=].
Qed.

End Handler.

Section HandlerRun.
#[local] Existing Instance RefHost.host.

(** A provider answers with a text. *)
Definition obliging : Backend :=
  {| secret := fun _ => Some (js "sk-test");
     openaiReply := fun _ _ =>
       Success {| output_text := Some (js " hello "); output := None |};
     anthropicReply := fun _ _ => Failure 400 (js "{}");
     xaiReply := fun _ _ => Failure 400 (js "{}");
     geminiReply := fun _ _ => Failure 400 (js "{}");
     verifyIdToken := fun _ token =>
       if streq token (js "good") then None else Some (JsError (js "auth/argument-error")) |}.

Definition greeting : LlmRequestBody :=
  {| provider := None; model := None; input := Some (js "hello");
     instructions := None; maxOutputTokens := None; temperature := None;
     baseUrl := None; useWebSearch := None |}.

Lemma provider_called_only_after_verification_witness :
  (postLlmText obliging (Some (js "Bearer good")) greeting idleWire).1
    = Return (Json200 (js "hello")) /\
  (postLlmText obliging (Some (js "Bearer bad")) greeting idleWire).1
    = Return (JsonError 401 (js "auth/argument-error")) /\
  exists token,
    Some (js "Bearer good") = Some (js "Bearer " ++ token) /\ token <> [] /\
    verifyIdToken obliging (wireTick idleWire) token = None.
Proof.
  split; [vm_compute; reflexivity |]. split; [vm_compute; reflexivity |].
  apply (provider_called_only_after_verification obliging (Some (js "Bearer good"))
           greeting idleWire).
  vm_compute. discriminate.
Defined.

Lemma handler_always_answers_witness :
  exists response w',
    handleLlmText obliging greeting idleWire = (Return response, w') /\
    response = Json200 (js "hello").
Proof.
  destruct (handler_always_answers obliging greeting idleWire)
    as (response & w' & Hrun & _).
  exists response, w'. split; [exact Hrun |].
  vm_compute in Hrun. injection Hrun as <- _. vm_compute. reflexivity.
Defined.

End HandlerRun.
End DispatchMore.

(* ===================================================================== *)
(** * More on the governance watcher *)
(* ===================================================================== *)

Module GovernanceMore.
Import Governance GovernanceClaims.

Section Traces.
Context `{Host}.

(** A run of the effect either leaves the refs alone or arms a timer for
    a fingerprint that is not the one recorded. *)
Lemma runEffect_cases a w :
  runEffect a w = w \/
  (fingerprint a <> governanceSignature w /\
   runEffect a w =
     {| governancePolling := true; governanceLastRun := governanceLastRun w;
        governanceSignature := fingerprint a;
        timer := Some (auditContext a, if running a then 2500 else 7000)%Z;
        cleanup := true; inFlight := inFlight w; audits := audits w |}).
Proof.
  unfold runEffect. destruct (negb (user a) || devMockEnabled a); [by left |].
  assert (forall rest : Watcher,
            (let signature := fingerprint a in
             if streq signature (governanceSignature w) then w
             else if governancePolling w || (now a - governanceLastRun w <? 45000)%Z then w
             else rest) = w \/
            (fingerprint a <> governanceSignature w /\
             (let signature := fingerprint a in
              if streq signature (governanceSignature w) then w
              else if governancePolling w || (now a - governanceLastRun w <? 45000)%Z then w
              else rest) = rest)) as Hguards.
  { intros rest. cbv zeta. unfold streq.
    destruct (decide (fingerprint a = governanceSignature w)) as [Hsame | Hother].
    - left. by rewrite bool_decide_eq_true_2.
    - rewrite bool_decide_eq_false_2 by done.
      destruct (governancePolling w || (now a - governanceLastRun w <? 45000)%Z);
        [by left | by right]. }
  destruct (lastN 4 (visibleMessages a)), (lastN 6 (visibleMeetingTurns a));
    [by left | apply Hguards..].
Qed.

(** Audits started or about to start. *)
Definition pending (w : Watcher) : nat :=
  length (audits w) + match timer w with Some _ => 1 | None => 0 end.

(** The invariant of the traces whose renders carry one fingerprint. *)
Definition atMostOnce (signature : jsstring) (w : Watcher) : Prop :=
  pending w <= 1 /\ (0 < pending w -> governanceSignature w = signature).

Lemma runCleanup_pending w :
  pending (runCleanup w) <= pending w /\
  governanceSignature (runCleanup w) = governanceSignature w /\
  audits (runCleanup w) = audits w.
Proof.
  unfold runCleanup, pending. destruct (cleanup w); [| done]. cbn.
  destruct (timer w); split_and!; try done; lia.
Qed.

(** Renders on one fingerprint, and anything else that may happen. *)
Definition sameWindow (signature : jsstring) (e : Event) : Prop :=
  match e with
  | Render a => fingerprint a = signature
  | _ => True
  end.

Lemma atMostOnce_step signature w e :
  atMostOnce signature w -> sameWindow signature e -> atMostOnce signature (step w e).
Proof.
  intros [Hcount Hrecorded] Hevent. destruct e as [a | | at_ |]; cbn [step].
  - destruct (runCleanup_pending w) as (Hless & Hsig & Haudits).
    cbn [sameWindow] in Hevent.
    destruct (runEffect_cases a (runCleanup w)) as [-> | [Hother ->]].
    + split; [lia |]. intros Hpos. rewrite Hsig. apply Hrecorded. lia.
    + rewrite Hsig, Hevent in Hother.
      assert (pending w = 0) as Hnone.
      { destruct (pending w) as [|n] eqn:Hp; [done |].
        exfalso. apply Hother. symmetry. apply Hrecorded. lia. }
      assert (audits w = []) as Hempty.
      { unfold pending in Hnone. destruct (audits w); [done | cbn in Hnone; lia]. }
      unfold atMostOnce, pending. cbn. rewrite Haudits, Hempty. cbn. split; [lia | done].
  - unfold atMostOnce, pending in *.
    destruct (timer w) as [[context delay]|] eqn:Htimer; [| rewrite Htimer; split; assumption].
    cbn. rewrite length_app. cbn. split; [lia |]. intros _. apply Hrecorded. lia.
  - unfold atMostOnce, pending in *. destruct (inFlight w); split; assumption.
  - destruct (runCleanup_pending w) as (Hless & Hsig & Haudits).
    split; [lia |]. intros Hpos. rewrite Hsig. apply Hrecorded. lia.
Qed.

Lemma atMostOnce_run signature events w :
  atMostOnce signature w -> Forall (sameWindow signature) events ->
  atMostOnce signature (foldl step w events).
Proof.
  revert w. induction events as [|e events IH]; intros w Hw Hevents; [done |].
  apply Forall_cons in Hevents as [He Hevents]. cbn [foldl].
  apply IH; [by apply atMostOnce_step | done].
Qed.

(** X11. However renders on one and the same fingerprint, timers, settled
    audits and an unmount interleave after the mount, at most one audit
    is started. *)
Theorem one_fingerprint_one_audit (signature : jsstring) (events : list Event) :
  Forall (sameWindow signature) events ->
  length (audits (run mounted events)) <= 1.
Proof.
  intros Hevents.
  assert (atMostOnce signature mounted) as Hstart by (split; cbn; lia).
  destruct (atMostOnce_run signature events mounted Hstart Hevents) as [Hcount _].
  unfold pending in Hcount. unfold run. lia.
Qed.

(** A timer that is pending can be cleared: the run of the effect that
    armed it returned its cleanup. *)
Definition clearable (w : Watcher) : Prop := timer w <> None -> cleanup w = true.

Lemma clearable_step w e : clearable w -> clearable (step w e).
Proof.
  unfold clearable. intros Hw. destruct e as [a | | at_ |]; cbn [step].
  - destruct (runEffect_cases a (runCleanup w)) as [-> | [_ ->]]; [| done].
    unfold runCleanup. destruct (cleanup w) eqn:Hc; [done |].
    intros Htimer. specialize (Hw Htimer). congruence.
  - destruct (timer w) as [[context delay]|] eqn:Htimer; [by cbn | by rewrite Htimer].
  - destruct (inFlight w); [exact Hw | cbn; exact Hw].
  - unfold runCleanup. destruct (cleanup w) eqn:Hc; [done |].
    intros Htimer. specialize (Hw Htimer). congruence.
Qed.

Lemma clearable_run events w : clearable w -> clearable (foldl step w events).
Proof.
  revert w. induction events as [|e events IH]; intros w Hw; [done |].
  cbn [foldl]. by apply IH, clearable_step.
Qed.

(** What may happen after the component is gone: timers that would have
    fired, audits that settle. *)
Definition afterlife (e : Event) : Prop :=
  match e with
  | TimerFires | AuditSettles _ => True
  | _ => False
  end.

(** X12. Unmounting cancels the audit that is pending: whatever happened
    before, no audit starts at or after the unmount. *)
Theorem unmount_cancels_pending_audit (before after : list Event) :
  Forall afterlife after ->
  audits (run mounted (before ++ Unmount :: after)) = audits (run mounted before).
Proof.
  intros Hafter. unfold run. rewrite foldl_app. cbn [foldl step].
  pose proof (clearable_run before mounted) as Hclear.
  specialize (Hclear ltac:(by unfold clearable)).
  set (w := foldl step mounted before) in *.
  assert (timer (runCleanup w) = None /\ audits (runCleanup w) = audits w) as [Hnone <-].
  { unfold runCleanup. destruct (cleanup w) eqn:Hc; [done |].
    split; [| done]. destruct (timer w) eqn:Ht; [| done].
    unfold clearable in Hclear. rewrite Ht in Hclear.
    specialize (Hclear ltac:(done)). congruence. }
  revert Hnone. generalize (runCleanup w). clear w Hclear.
  induction after as [|e after IH]; intros w Hnone; [done |].
  apply Forall_cons in Hafter as [He Hafter]. cbn [foldl].
  destruct e as [a | | at_ |]; [done | | | done]; cbn [step].
  - rewrite Hnone. by apply IH.
  - destruct (inFlight w); [by apply IH |]. rewrite IH; [done | done | done].
Qed.

End Traces.

Section TracesRun.
#[local] Existing Instance RefHost.host.

Lemma one_fingerprint_one_audit_witness :
  audits (run mounted [Render Runs.glance; TimerFires; AuditSettles 200000;
                       Render Runs.glanceRunning; TimerFires])
  = [auditContext Runs.glance] /\
  length (audits (run mounted [Render Runs.glance; TimerFires; AuditSettles 200000;
                               Render Runs.glanceRunning; TimerFires])) <= 1.
Proof.
  split; [vm_compute; reflexivity |].
  apply (one_fingerprint_one_audit (fingerprint Runs.glance)).
  repeat constructor.
Defined.

Lemma unmount_cancels_pending_audit_witness :
  timer (run mounted [Render Runs.glance]) <> None /\
  audits (run mounted ([Render Runs.glance] ++ Unmount :: [TimerFires; AuditSettles 1]))
  = audits (run mounted [Render Runs.glance]).
Proof.
  split; [vm_compute; discriminate |].
  apply (unmount_cancels_pending_audit [Render Runs.glance] [TimerFires; AuditSettles 1]).
  repeat constructor.
Defined.

End TracesRun.
End GovernanceMore.

(* ===================================================================== *)
(** * More on the client library: [requestLlmText] and [tryParseJson] *)
(* ===================================================================== *)

Module ClientMore.
Import Effects JsFacts DispatchMore.

Lemma indexOf_first pre c rest :
  c ∉ pre -> indexOf (pre ++ c :: rest) c = Some (length pre).
Proof.
  induction pre as [|d pre IH]; intros Hpre; simpl.
  - by rewrite N.eqb_refl.
  - apply not_elem_of_cons in Hpre as [Hne Hpre].
    destruct (d =? c)%N eqn:Hd; [apply N.eqb_eq in Hd; congruence |].
    by rewrite IH.
Qed.

Lemma indexOf_none s c : c ∉ s -> indexOf s c = None.
Proof.
  induction s as [|d s IH]; intros Hs; [done |]. simpl.
  apply not_elem_of_cons in Hs as [Hne Hs].
  destruct (d =? c)%N eqn:Hd; [apply N.eqb_eq in Hd; congruence |].
  by rewrite IH.
Qed.

Lemma not_elem_of_rev (c : N) l : c ∉ l -> c ∉ rev l.
Proof.
  intros Hout Hin. apply Hout. apply list_elem_of_In, in_rev. by apply list_elem_of_In.
Qed.

Lemma lastIndexOf_last pre c post :
  c ∉ post -> lastIndexOf (pre ++ c :: post) c = Some (length pre).
Proof.
  intros Hpost. unfold lastIndexOf.
  rewrite rev_app_distr. cbn [rev]. rewrite <- app_assoc.
  change ([c] ++ rev pre) with (c :: rev pre).
  rewrite indexOf_first by by apply not_elem_of_rev.
  cbn [fmap option_fmap option_map]. f_equal.
  rewrite length_rev, length_app. cbn [length]. lia.
Qed.

Lemma lastIndexOf_none s c : c ∉ s -> lastIndexOf s c = None.
Proof.
  intros Hs. unfold lastIndexOf.
  rewrite indexOf_none; [done |]. by apply not_elem_of_rev.
Qed.

Section Client.
Context `{Host} (env : Env).

(** X13. [requestLlmText] sends exactly one request and takes one tick,
    whatever the proxy answers, and leaves the office alone. It returns
    only for an ok response whose text is not blank, and what it returns
    is that text without the white space at its ends, never the empty
    string; a response that is not ok is thrown as an error that carries
    the status and the body. *)
Theorem request_sends_once (req : LlmTextRequest) (w : World) :
  generated (requestLlmText env req w).2 = generated w ++ [req] /\
  tick (requestLlmText env req w).2 = S (tick w) /\
  app (requestLlmText env req w).2 = app w /\
  (forall text,
     (requestLlmText env req w).1 = Return text ->
     Js.truthy text = true /\ trim text = text /\
     exists raw, fetchLlmText env (tick w) req = Payload (Some raw) /\ text = trim raw) /\
  (forall status body,
     fetchLlmText env (tick w) req = NotOk status body ->
     (requestLlmText env req w).1 =
       Throw (JsError (js "Proxy LLM request failed (" ++ decimal status ++ js "): " ++ body))).
Proof.
  unfold requestLlmText, external. rewrite !bind_run. cbv beta iota.
  cbn [modify mret ST_ret]. cbv beta iota. cbn [tick on_tick].
  destruct (fetchLlmText env (tick w) req) as [error | status body | error | payload].
  - split_and!; try reflexivity; [intros ? [=] | intros ? ? [=]].
  - split_and!; try reflexivity; [intros ? [=] | intros ? ? [= <- <-]; reflexivity].
  - split_and!; try reflexivity; [intros ? [=] | intros ? ? [=]].
  - destruct payload as [raw|].
    + change (default [] (trim <$> Some raw)) with (trim raw).
      destruct (Js.truthy (trim raw)) eqn:Htext.
      * split_and!; try reflexivity; [| intros ? ? [=]].
        intros ? [= <-]. split; [done |]. split; [apply trim_idem | by exists raw].
      * split_and!; try reflexivity; [intros ? [=] | intros ? ? [=]].
    + split_and!; try reflexivity; [intros ? [=] | intros ? ? [=]].
Qed.

(** X14. [tryParseJson] gives what [JSON.parse] makes of the trimmed text when
    that is JSON. When it is not, and the trimmed text has no opening or
    no closing brace, the result is nothing. When it is not, and the
    trimmed text holds a braced part between a head without an opening
    brace and a tail without a closing brace, the result is what
    [JSON.parse] makes of the braced part alone. *)
Theorem json_found_in_prose (raw : jsstring) :
  (forall value, JSON_parse (trim raw) = Some value -> tryParseJson raw = Some value) /\
  (JSON_parse (trim raw) = None -> 123%N ∉ trim raw \/ 125%N ∉ trim raw ->
     tryParseJson raw = None) /\
  (forall head inner tail,
     JSON_parse (trim raw) = None ->
     trim raw = head ++ [123%N] ++ inner ++ [125%N] ++ tail ->
     123%N ∉ head -> 125%N ∉ tail ->
     tryParseJson raw = JSON_parse ([123%N] ++ inner ++ [125%N])).
Proof.
  unfold tryParseJson. cbv zeta. split_and!.
  - by intros value ->.
  - intros -> [Hopen | Hclose].
    + by rewrite (indexOf_none _ _ Hopen).
    + rewrite (lastIndexOf_none _ _ Hclose). by destruct (indexOf (trim raw) 123).
  - intros head inner tail -> Hshape Hhead Htail. rewrite Hshape.
    change (head ++ [123%N] ++ inner ++ [125%N] ++ tail)
      with (head ++ 123%N :: (inner ++ 125%N :: tail)).
    rewrite (indexOf_first head 123 (inner ++ 125%N :: tail) Hhead).
    assert (head ++ 123%N :: (inner ++ 125%N :: tail)
            = (head ++ 123%N :: inner) ++ 125%N :: tail) as Hsplit
      by (by rewrite <- app_assoc).
    rewrite Hsplit at 1. rewrite (lastIndexOf_last _ 125 tail Htail).
    rewrite length_app. cbn [length].
    destruct (length head + S (length inner) <=? length head) eqn:Hle;
      [apply Nat.leb_le in Hle; lia |].
    unfold slice. rewrite drop_app_length. f_equal.
    replace (length head + S (length inner) + 1 - length head)
      with (length ([123%N] ++ inner ++ [125%N]))
      by (rewrite !length_app; cbn [length]; lia).
    assert (123%N :: (inner ++ 125%N :: tail) = ([123%N] ++ inner ++ [125%N]) ++ tail)
      as -> by (by rewrite <- !app_assoc).
    by rewrite take_app_length.
Qed.

End Client.

Section ClientRun.
#[local] Existing Instance RefHost.host.

(** A reply that wraps its JSON in words. *)
Definition wrapped : jsstring :=
  js "Here it is: {" ++ dquote ++ js "strategy" ++ dquote ++ js ":" ++ dquote ++ js "go"
  ++ dquote ++ js "} as asked.".

Lemma json_found_in_prose_witness :
  JSON_parse (trim wrapped) = None /\
  tryParseJson wrapped = Some (JObj [(js "strategy", JStr (js "go"))]) /\
  tryParseJson wrapped =
    JSON_parse ([123%N] ++ (dquote ++ js "strategy" ++ dquote ++ js ":" ++ dquote ++ js "go"
                            ++ dquote) ++ [125%N]).
Proof.
  split; [vm_compute; reflexivity |]. split; [vm_compute; reflexivity |].
  destruct (json_found_in_prose wrapped) as (_ & _ & Hfound).
  apply (Hfound (js "Here it is: ") _ (js " as asked.")).
  - vm_compute. reflexivity.
  - vm_compute. reflexivity.
  - vm_compute. intros Hin. repeat (apply elem_of_cons in Hin as [Hin | Hin]; [done |]).
    inversion Hin.
  - vm_compute. intros Hin. repeat (apply elem_of_cons in Hin as [Hin | Hin]; [done |]).
    inversion Hin.
Defined.

End ClientRun.
End ClientMore.

(* ===================================================================== *)
(** * Threads: moving a goal, and what a thread shows *)
(* ===================================================================== *)

Module Threads.
Import Effects OfficeFacts JsFacts.

(** The [direction] of [moveGoal]: [-1] or [1]. *)
Inductive Direction := earlier | later.

Definition offset (direction : Direction) : Z :=
  match direction with earlier => (-1)%Z | later => 1%Z end.

Definition opposite (direction : Direction) : Direction :=
  match direction with earlier => later | later => earlier end.

(** The goals [moveGoal] gives a thread, or [None] where it returns the
    thread as it is: the goal is not there, or it would leave the list.
    [reordered.splice(index, 1)] takes the goal out and
    [reordered.splice(nextIndex, 0, target)] puts it back. *)
Definition reorder (goals : list ThreadGoal) (goalId : jsstring) (direction : Direction)
  : option (list ThreadGoal) :=
  match findIndex (fun goal => streq (tg_id goal) goalId) goals with
  | None => None
  | Some index =>
    let nextIndex := (Z.of_nat index + offset direction)%Z in
    if (nextIndex <? 0)%Z || (Z.of_nat (length goals) <=? nextIndex)%Z then None
    else
      match goals !! index with
      | None => None
      | Some target =>
        let removed := take index goals ++ drop (S index) goals in
        Some (take (Z.to_nat nextIndex) removed ++ target :: drop (Z.to_nat nextIndex) removed)
      end
  end.

Section Model.
Context `{Host} (env : Env).

(** [moveGoal]: the updater maps over the threads and reads the clock for
    a thread it changes. *)
Definition moveGoal (threadId goalId : jsstring) (direction : Direction) : M unit :=
  w ← getWorld;
  next ← mapM (fun thread =>
    if negb (streq (th_id thread) threadId) then mret thread
    else
      match reorder (th_goals thread) goalId direction with
      | None => mret thread
      | Some reordered =>
        updatedAt ← isoNow env;
        mret {| th_id := th_id thread; th_title := th_title thread;
                th_createdAt := th_createdAt thread; th_updatedAt := updatedAt;
                th_vision := th_vision thread; th_goals := reordered |}
      end) (threads (app w));
  setState (over_threads (fun _ => next)).

(** [activeThread]: the thread with the active id, else the first
    thread, else a default thread made on the spot. *)
Definition activeThread (r : AppState) (clock : jsstring) : ThreadItem :=
  match find (fun item => streq (th_id item) (activeThreadId r)) (threads r) with
  | Some item => item
  | None =>
    match threads r with
    | first :: _ => first
    | [] => createDefaultThread clock clock
    end
  end.

End Model.

(** ** Moving a goal *)

Lemma findIndex_at {A} (test : A -> bool) pre a post :
  (forall x, x ∈ pre -> test x = false) -> test a = true ->
  findIndex test (pre ++ a :: post) = Some (length pre).
Proof.
  intros Hpre Ha. induction pre as [|x pre IH]; simpl.
  - by rewrite Ha.
  - rewrite (Hpre x) by apply list_elem_of_here.
    rewrite IH by (intros y Hy; by apply Hpre, list_elem_of_further). done.
Qed.

Lemma findIndex_next {A} (test : A -> bool) pre a b post :
  (forall x, x ∈ pre -> test x = false) -> test a = false -> test b = true ->
  findIndex test (pre ++ a :: b :: post) = Some (S (length pre)).
Proof.
  intros Hpre Ha Hb. induction pre as [|x pre IH]; simpl.
  - by rewrite Ha, Hb.
  - rewrite (Hpre x) by apply list_elem_of_here.
    rewrite IH by (intros y Hy; by apply Hpre, list_elem_of_further). done.
Qed.

Lemma take_past {A} (pre : list A) a rest :
  take (S (length pre)) (pre ++ a :: rest) = pre ++ [a].
Proof. induction pre as [|x pre IH]; simpl; [done | by rewrite IH]. Qed.

Lemma drop_past {A} (pre : list A) a rest :
  drop (S (length pre)) (pre ++ a :: rest) = rest.
Proof. induction pre as [|x pre IH]; simpl; [done | exact IH]. Qed.

Lemma lookup_past {A} (pre : list A) a b rest :
  (pre ++ a :: b :: rest) !! S (length pre) = Some b.
Proof. induction pre as [|x pre IH]; simpl; done. Qed.

Lemma reorder_later pre a b post goalId :
  (forall goal, goal ∈ pre -> tg_id goal <> goalId) -> tg_id a = goalId ->
  reorder (pre ++ a :: b :: post) goalId later = Some (pre ++ b :: a :: post).
Proof.
  intros Hpre Ha. unfold reorder.
  rewrite (findIndex_at _ pre a (b :: post)).
  2: { intros x Hx. unfold streq. apply bool_decide_eq_false_2. by apply Hpre. }
  2: { unfold streq. by apply bool_decide_eq_true_2. }
  cbv zeta. cbn [offset].
  rewrite list_lookup_middle by done.
  rewrite take_app_length, drop_past.
  replace (Z.to_nat (Z.of_nat (length pre) + 1)) with (S (length pre)) by lia.
  rewrite take_past, drop_past.
  rewrite length_app. cbn [length].
  destruct (Z.of_nat (length pre) + 1 <? 0)%Z eqn:Hlow; [apply Z.ltb_lt in Hlow; lia |].
  destruct (Z.of_nat (length pre + S (S (length post))) <=? Z.of_nat (length pre) + 1)%Z
    eqn:Hhigh; [apply Z.leb_le in Hhigh; lia |].
  cbn [orb]. by rewrite <- app_assoc.
Qed.

Lemma reorder_earlier pre a b post goalId :
  (forall goal, goal ∈ pre -> tg_id goal <> goalId) -> tg_id a <> goalId ->
  tg_id b = goalId ->
  reorder (pre ++ a :: b :: post) goalId earlier = Some (pre ++ b :: a :: post).
Proof.
  intros Hpre Ha Hb. unfold reorder.
  rewrite (findIndex_next _ pre a b post).
  2: { intros x Hx. unfold streq. apply bool_decide_eq_false_2. by apply Hpre. }
  2: { unfold streq. by apply bool_decide_eq_false_2. }
  2: { unfold streq. by apply bool_decide_eq_true_2. }
  cbv zeta. cbn [offset].
  rewrite lookup_past, take_past.
  assert (drop (S (S (length pre))) (pre ++ a :: b :: post) = post) as ->.
  { clear. induction pre as [|x pre IH]; simpl; [done | exact IH]. }
  replace (Z.to_nat (Z.of_nat (S (length pre)) + -1)) with (length pre) by lia.
  rewrite <- app_assoc. rewrite take_app_length, drop_app_length.
  rewrite length_app. cbn [length].
  destruct (Z.of_nat (S (length pre)) + -1 <? 0)%Z eqn:Hlow; [apply Z.ltb_lt in Hlow; lia |].
  destruct (Z.of_nat (length pre + S (S (length post))) <=? Z.of_nat (S (length pre)) + -1)%Z
    eqn:Hhigh; [apply Z.leb_le in Hhigh; lia |].
  cbn [orb]. done.
Qed.

(** Two entries next to each other split the list around them. *)
Lemma neighbours {A} (l : list A) i x y :
  l !! i = Some x -> l !! S i = Some y ->
  l = take i l ++ x :: y :: drop (S (S i)) l.
Proof.
  intros Hx Hy.
  rewrite <- (take_drop_middle l i x Hx) at 1. f_equal. f_equal.
  rewrite <- (take_drop_middle (drop (S i) l) 0 y) at 1
    by (by rewrite lookup_drop, Nat.add_0_r).
  cbn [take app]. by rewrite drop_drop, Nat.add_1_r.
Qed.

Lemma before_index goals goalId index :
  (forall j y, j < index -> goals !! j = Some y -> streq (tg_id y) goalId = false) ->
  forall goal, goal ∈ take index goals -> tg_id goal <> goalId.
Proof.
  intros Hbefore goal Hin.
  apply elem_of_take in Hin as (j & Hj & Hlt).
  specialize (Hbefore j goal Hlt Hj).
  unfold streq in Hbefore. by apply bool_decide_eq_false in Hbefore.
Qed.

(** What a move does to the goals of a thread. *)
Inductive Moved (goalId : jsstring) : Direction -> list ThreadGoal -> list ThreadGoal -> Prop :=
| moved_later pre a b post :
    (forall goal, goal ∈ pre -> tg_id goal <> goalId) -> tg_id a = goalId ->
    Moved goalId later (pre ++ a :: b :: post) (pre ++ b :: a :: post)
| moved_earlier pre a b post :
    (forall goal, goal ∈ pre -> tg_id goal <> goalId) -> tg_id a <> goalId ->
    tg_id b = goalId ->
    Moved goalId earlier (pre ++ a :: b :: post) (pre ++ b :: a :: post).

Lemma reorder_Moved goals goalId direction reordered :
  reorder goals goalId direction = Some reordered ->
  Moved goalId direction goals reordered.
Proof.
  intros Hmove.
  destruct (findIndex (fun goal => streq (tg_id goal) goalId) goals) as [index|] eqn:Hfind.
  2: { unfold reorder in Hmove. by rewrite Hfind in Hmove. }
  pose proof Hfind as Hfound.
  apply findIndex_Some in Hfound as (target & Htarget & Hid & Hbefore).
  pose proof (before_index _ _ _ Hbefore) as Hpre.
  unfold streq in Hid. apply bool_decide_eq_true in Hid.
  destruct direction.
  - destruct index as [|k].
    { unfold reorder in Hmove. rewrite Hfind in Hmove. cbv zeta in Hmove.
      cbn [offset] in Hmove. done. }
    destruct (goals !! k) as [a|] eqn:Ha.
    2: { apply lookup_ge_None in Ha. apply lookup_lt_Some in Htarget. lia. }
    pose proof (neighbours goals k a target Ha Htarget) as Hsplit.
    assert (tg_id a <> goalId) as Hna.
    { specialize (Hbefore k a ltac:(lia) Ha).
      unfold streq in Hbefore. by apply bool_decide_eq_false in Hbefore. }
    assert (forall goal, goal ∈ take k goals -> tg_id goal <> goalId) as Hpre'.
    { intros goal Hin. apply Hpre. apply elem_of_take in Hin as (j & Hj & Hlt).
      apply elem_of_take. exists j. split; [done | lia]. }
    rewrite Hsplit in Hmove.
    rewrite (reorder_earlier _ a target _ goalId Hpre' Hna Hid) in Hmove.
    injection Hmove as <-. rewrite Hsplit at 1.
    by apply moved_earlier.
  - destruct (goals !! S index) as [b|] eqn:Hb.
    2: { apply lookup_ge_None in Hb. unfold reorder in Hmove.
         rewrite Hfind in Hmove. cbv zeta in Hmove. cbn [offset] in Hmove.
         destruct (Z.of_nat index + 1 <? 0)%Z; [done |].
         destruct (Z.of_nat (length goals) <=? Z.of_nat index + 1)%Z eqn:Hhigh; [done |].
         apply Z.leb_gt in Hhigh. lia. }
    pose proof (neighbours goals index target b Htarget Hb) as Hsplit.
    rewrite Hsplit in Hmove.
    rewrite (reorder_later _ target b _ goalId Hpre Hid) in Hmove.
    injection Hmove as <-. rewrite Hsplit at 1.
    by apply moved_later.
Qed.

Lemma Moved_reorder goals goalId direction reordered :
  Moved goalId direction goals reordered ->
  reorder goals goalId direction = Some reordered.
Proof.
  intros [pre a b post Hpre Ha | pre a b post Hpre Ha Hb].
  - by apply reorder_later.
  - by apply reorder_earlier.
Qed.

Lemma Moved_Permutation goalId direction goals reordered :
  Moved goalId direction goals reordered -> goals ≡ₚ reordered.
Proof.
  intros [pre a b post _ _ | pre a b post _ _ _];
    apply Permutation_app_head, perm_swap.
Qed.

(** X15. [moveGoal] on the goals of one thread either leaves them as they
    are or exchanges the goal with the neighbour on the side it moves
    to: the goal is the first one with that id, no other goal changes
    place, and none is lost, added or rewritten. *)
Theorem move_swaps_two_neighbours goals goalId direction :
  match reorder goals goalId direction with
  | None =>
      (forall goal, goal ∈ goals -> tg_id goal <> goalId) \/
      (exists goal rest, tg_id goal = goalId /\ direction = earlier /\ goals = goal :: rest) \/
      (exists pre goal, tg_id goal = goalId /\ direction = later /\ goals = pre ++ [goal] /\
         forall other, other ∈ pre -> tg_id other <> goalId)
  | Some reordered =>
      exists pre a b post,
        goals = pre ++ a :: b :: post /\ reordered = pre ++ b :: a :: post /\
        (forall goal, goal ∈ pre -> tg_id goal <> goalId) /\
        tg_id (match direction with later => a | earlier => b end) = goalId
  end.
Proof.
  destruct (reorder goals goalId direction) as [reordered|] eqn:Hmove.
  - apply reorder_Moved in Hmove.
    destruct Hmove as [pre a b post Hpre Ha | pre a b post Hpre Ha Hb];
      exists pre, a, b, post; done.
  - destruct (findIndex (fun goal => streq (tg_id goal) goalId) goals) as [index|] eqn:Hfind.
    2: { left. intros goal Hin.
         pose proof (proj1 (findIndex_None _ _) Hfind goal Hin) as Hno.
         unfold streq in Hno. by apply bool_decide_eq_false in Hno. }
    right.
    apply findIndex_Some in Hfind as (target & Htarget & Hid & Hbefore).
    pose proof (before_index _ _ _ Hbefore) as Hpre.
    unfold streq in Hid. apply bool_decide_eq_true in Hid.
    destruct direction.
    + left. destruct index as [|k].
      * destruct goals as [|g rest]; [done |]. injection Htarget as ->.
        by exists target, rest.
      * exfalso.
        destruct (goals !! k) as [a|] eqn:Ha.
        2: { apply lookup_ge_None in Ha. apply lookup_lt_Some in Htarget. lia. }
        pose proof (neighbours goals k a target Ha Htarget) as Hsplit.
        assert (tg_id a <> goalId) as Hna.
        { specialize (Hbefore k a ltac:(lia) Ha).
          unfold streq in Hbefore. by apply bool_decide_eq_false in Hbefore. }
        assert (forall goal, goal ∈ take k goals -> tg_id goal <> goalId) as Hpre'.
        { intros goal Hin. apply Hpre. apply elem_of_take in Hin as (j & Hj & Hlt).
          apply elem_of_take. exists j. split; [done | lia]. }
        rewrite Hsplit in Hmove.
        by rewrite (reorder_earlier _ a target _ goalId Hpre' Hna Hid) in Hmove.
    + right. destruct (goals !! S index) as [b|] eqn:Hb.
      * exfalso.
        pose proof (neighbours goals index target b Htarget Hb) as Hsplit.
        rewrite Hsplit in Hmove.
        by rewrite (reorder_later _ target b _ goalId Hpre Hid) in Hmove.
      * exists (take index goals), target. split_and!; [done | done | | done].
        rewrite <- (take_drop_middle goals index target Htarget) at 1.
        f_equal. f_equal. apply drop_ge. by apply lookup_ge_None.
Qed.

(** X16. Where the goal ids of a thread are distinct, moving a goal and
    then moving it back the other way restores the list of goals. *)
Theorem move_back_restores goals goalId direction reordered
    (Hdistinct : NoDup (tg_id <$> goals))
    (Hmove : reorder goals goalId direction = Some reordered) :
  reorder reordered goalId (opposite direction) = Some goals.
Proof.
  apply reorder_Moved in Hmove.
  destruct Hmove as [pre a b post Hpre Ha | pre a b post Hpre Ha Hb]; cbn [opposite].
  - apply reorder_earlier; [done | | done].
    rewrite fmap_app in Hdistinct. apply NoDup_app in Hdistinct as (_ & _ & Hdistinct).
    cbn [fmap list_fmap] in Hdistinct. apply NoDup_cons in Hdistinct as [Hnot _].
    intros Hb. apply Hnot. rewrite Ha, <- Hb. apply list_elem_of_here.
  - by apply reorder_later.
Qed.

(** ** The setter *)

Lemma mapM_related {A B} (R : relation World) `{!PreOrder R}
    (f : A -> M B) (P : A -> B -> Prop) xs :
  (forall x, returns R (f x) (P x)) -> returns R (mapM f xs) (Forall2 P xs).
Proof.
  intros Hf. induction xs as [|x xs IH]; simpl; [by apply (returns_ret R) |].
  eapply (returns_bind R); [apply Hf | intros y Hy].
  eapply (returns_bind R); [exact IH | intros ys Hys].
  apply (returns_ret R). by constructor.
Qed.

(** What [moveGoal] leaves alone: everything but the threads and the
    clock. *)
Definition besidesThreads (w : World) :=
  (over_threads (fun _ => []) (app w), phaseTrace w, generated w, ceoReports w,
   officeMessages w).

(** How a thread after [moveGoal] relates to the thread before. *)
Definition rearranged (threadId : jsstring) (before after : ThreadItem) : Prop :=
  th_id after = th_id before /\ th_title after = th_title before /\
  th_createdAt after = th_createdAt before /\ th_vision after = th_vision before /\
  th_goals before ≡ₚ th_goals after /\
  (th_id before <> threadId -> after = before).

Section Setter.
Context `{Host} (env : Env).

(** X17. [moveGoal] never throws and never loses anything: the threads
    stay the same threads in the same order, each with its title, its
    creation date, its vision and the same goals up to their order; a
    thread with another id is not touched at all, and nothing of the
    office besides the threads changes. *)
Theorem move_goal_only_rearranges threadId goalId direction w :
  exists w',
    moveGoal env threadId goalId direction w = (Return tt, w') /\
    Forall2 (rearranged threadId) (threads (app w)) (threads (app w')) /\
    besidesThreads w' = besidesThreads w.
Proof.
  unfold moveGoal. rewrite bind_run. cbv beta iota. cbn [getWorld getState].
  match goal with |- context [mapM ?f (threads (app w))] => set (step := f) end.
  assert (forall thread,
    returns (same (fun w => (app w, phaseTrace w, generated w, ceoReports w, officeMessages w)))
      (step thread) (rearranged threadId thread)) as Hstep.
  { intros thread w0. unfold step.
    destruct (streq (th_id thread) threadId) eqn:Hid; cbn [negb].
    - destruct (reorder (th_goals thread) goalId direction) as [reordered|] eqn:Hmove.
      + eexists _, _. split; [reflexivity |]. split; [done |].
        unfold rearranged. cbn. split_and!; try done.
        * by apply (Moved_Permutation goalId direction), reorder_Moved.
        * intros Hne. unfold streq in Hid. by apply bool_decide_eq_true in Hid.
      + exists thread, w0. split; [reflexivity |]. split; [done |].
        unfold rearranged. split_and!; done.
    - exists thread, w0. split; [reflexivity |]. split; [done |].
      unfold rearranged. split_and!; done. }
  destruct (mapM_related _ step (rearranged threadId) (threads (app w)) Hstep w)
    as (next & w1 & Hrun & Hsame & Hnext).
  rewrite bind_run, Hrun. cbv beta iota.
  eexists. split; [reflexivity |]. split; [exact Hnext |].
  unfold same in Hsame. injection Hsame as Happ Htrace Hgen Hreports Hmessages.
  unfold besidesThreads. cbn. rewrite Happ, Htrace, Hgen, Hreports, Hmessages. done.
Qed.

End Setter.

Section Moves.
#[local] Existing Instance RefHost.host.

Definition goal (name : string) : ThreadGoal :=
  {| tg_id := js name; tg_title := js name; tg_description := js "" |}.

Definition agenda : list ThreadGoal := [goal "g1"; goal "g2"; goal "g3"].

Lemma move_back_restores_witness :
  reorder agenda (js "g2") later = Some [goal "g1"; goal "g3"; goal "g2"] /\
  reorder [goal "g1"; goal "g3"; goal "g2"] (js "g2") earlier = Some agenda.
Proof.
  assert (reorder agenda (js "g2") later = Some [goal "g1"; goal "g3"; goal "g2"]) as Hmove
    by (vm_compute; reflexivity).
  split; [exact Hmove |].
  apply (move_back_restores agenda (js "g2") later _); [| exact Hmove].
  apply (bool_decide_unpack _). vm_compute. exact I.
Defined.

End Moves.
End Threads.

(* ===================================================================== *)
(** * Executing an action plan *)
(* ===================================================================== *)

Module Execution.
Import Effects OfficeFacts JsFacts OfficeMore.

(** The office together with the state variable [executingPlanId] of
    [App]: its value, and the values [setExecutingPlanId] was given so
    far, in order. *)
Record Desk := {
  dk_office : World;
  dk_executingPlanId : jsstring;
  dk_marks : list jsstring
}.

(** A computation on the office, run at the desk. *)
Definition inOffice {A} (m : M A) : ST Desk A := fun d =>
  match m (dk_office d) with
  | (outcome, w') =>
    (outcome, {| dk_office := w'; dk_executingPlanId := dk_executingPlanId d;
                 dk_marks := dk_marks d |})
  end.

Definition setExecutingPlanId (planId : jsstring) : ST Desk unit :=
  modify (fun d => {| dk_office := dk_office d; dk_executingPlanId := planId;
                      dk_marks := dk_marks d ++ [planId] |}).

(** [try { body } finally { cleanup }]: the clean-up runs however the
    body ends, and the outcome of the body stands unless the clean-up
    throws. *)
Definition tryFinally {S A} (body : ST S A) (cleanup : ST S unit) : ST S A := fun s =>
  match body s with
  | (outcome, s') =>
    match cleanup s' with
    | (Return _, s'') => (outcome, s'')
    | (Throw error, s'') => (Throw error, s'')
    end
  end.

Section Model.
Context `{Host} (env : Env) (r : AppState) (clock : jsstring).

(** The prompt [executeActionPlan] sends for a plan. *)
Definition executionInput (plan : ActionPlanItem) : jsstring :=
  join (nl ++ nl) [
    js "다음 액션플랜을 즉시 실행 가능한 수준으로 구체화하고 진행하라.";
    js "액션플랜:" ++ nl ++ ap_plan plan;
    js "실행 결과는 1) 지금 수행한 일 2) 산출물 3) 다음 실행 단계 4) 차단 이슈로 보고하라."].

(** The last updater of [executeActionPlan]: it maps over the plans and
    reads the clock twice for a record it stamps. *)
Definition stampExecution (planId reply : jsstring) : M unit :=
  w ← getWorld;
  next ← mapM (fun item =>
    if streq (ap_id item) planId then
      executedAt ← isoNow env;
      updatedAt ← isoNow env;
      mret {| ap_id := ap_id item; ap_threadId := ap_threadId item;
              ap_memberId := ap_memberId item; ap_memberName := ap_memberName item;
              ap_plan := ap_plan item; ap_source := ap_source item;
              ap_createdAt := ap_createdAt item; ap_updatedAt := updatedAt;
              ap_lastExecutedAt := Some executedAt;
              ap_lastExecutionSummary := Some (slice reply 0 360) |}
    else mret item) (actionPlans (app w));
  setState (over_actionPlans (fun _ => next)).

(** The message [executeActionPlan] stores for a reply. *)
Definition executionMessage (member : CouncilMember) (plan : ActionPlanItem)
    (reply : jsstring) (deliverableAsset : FileAsset) : MessageData :=
  {| md_threadId := ap_threadId plan; md_senderId := m_id member;
     md_senderName := m_displayName member; md_senderRole := m_role member;
     md_kind := kindChat; md_text := reply; md_targetIds := [js "CEO-HOBBY"];
     md_attachments := [deliverableAsset] |}.

(** The [try] block of [executeActionPlan]. *)
Definition executeActionPlanRun (member : CouncilMember) (plan : ActionPlanItem) : M unit :=
  appendLog env r execution (ap_memberId plan ++ js " 액션플랜 실행 시작") ;;
  authToken ← getProxyAuthToken env r;
  let openaiRuntime := roleConfig r !! ap_memberId plan in
  let preferredModel :=
    if streq (ap_memberId plan) (js "DEV-TAN")
    then DEFAULT_OPENAI_DEV_MODEL else DEFAULT_OPENAI_MODEL in
  reply ←
    (if Js.truthy authToken then
       requestLlmText env
         {| rq_provider := openai; rq_model := preferredModel;
            rq_input := executionInput plan;
            rq_instructions := Some (m_identityPrompt member);
            rq_maxOutputTokens := Some (js "900");
            rq_temperature := Some (js "0.35");
            rq_baseUrl :=
              Some match openaiRuntime with
                   | Some config =>
                     if decide (rc_provider config = openai) then rc_baseUrl config else []
                   | None => []
                   end;
            rq_useWebSearch := None; rq_authToken := Some authToken |}
     else
       runOfficerSingleReply env r (ap_memberId plan) (executionInput plan) []
         (js "CEO-HOBBY") []);
  executedAt ← isoNow env;
  stamp ← now env;
  deliverableAsset ←
    uploadTextAsset env r
      (join nl [
         js "# " ++ m_displayName member ++ js " Action Plan Execution";
         js "- Thread: " ++ th_title (Threads.activeThread r clock);
         js "- Member: " ++ ap_memberId plan;
         js "- ExecutedAt: " ++ executedAt;
         [];
         js "## Original Plan";
         ap_plan plan;
         [];
         js "## Execution Result";
         reply])
      (toLowerCase (ap_memberId plan) ++ js "-action-execution-" ++ decimal stamp
       ++ js ".md")
      (js "deliverables") (js "text/markdown");
  persistOfficeMessage env r (executionMessage member plan reply deliverableAsset) ;;
  session ← now env;
  appendMeetingTurn env r (Some (ap_threadId plan)) (js "plan-exec-" ++ decimal session)
    roomCollaboration (m_id member) (m_displayName member)
    (js "[Action Plan Execute]" ++ nl ++ reply) turnWorkflow ;;
  stampExecution (ap_id plan) reply ;;
  appendLog env r execution (ap_memberId plan ++ js " 액션플랜 실행 완료").

(** The handler of the [catch] block: one log line. *)
Definition executeActionPlanFailed (plan : ActionPlanItem) (error : Exn) : M unit :=
  appendLog env r execution
    (ap_memberId plan ++ js " 액션플랜 실행 실패: "
     ++ messageOr error (js "액션플랜 실행 실패")).

(** [executeActionPlan], for the render whose [executingPlanId] it reads:
    the guard reads the value of that render, the setter writes the
    state. *)
Definition executeActionPlan (executingPlanId : jsstring) (plan : ActionPlanItem)
  : ST Desk unit :=
  if Js.truthy executingPlanId then mret tt
  else
    match getMember (ap_memberId plan) with
    | None => mret tt
    | Some member =>
      setExecutingPlanId (ap_id plan) ;;
      tryFinally
        (tryCatch (inOffice (executeActionPlanRun member plan))
           (fun error => inOffice (executeActionPlanFailed plan error)))
        (setExecutingPlanId [])
    end.

End Model.

(** ** What a run leaves behind *)

(** The records of the office a failed run must not touch. *)
Definition records (w : World) :=
  (actionPlans (app w), meetingTurns (app w), localMessages (app w), officeMessages w,
   localReports (app w), ceoReports w, threads (app w)).

(** How a plan after an execution with [reply] relates to the plan
    before. *)
Definition stampedBy (planId reply : jsstring) (before after : ActionPlanItem) : Prop :=
  if streq (ap_id before) planId then
    ap_id after = ap_id before /\ ap_threadId after = ap_threadId before /\
    ap_memberId after = ap_memberId before /\ ap_plan after = ap_plan before /\
    ap_source after = ap_source before /\ ap_createdAt after = ap_createdAt before /\
    is_Some (ap_lastExecutedAt after) /\
    ap_lastExecutionSummary after = Some (slice reply 0 360)
  else after = before.

(** Where messages go: the cloud collection, and the list kept on the
    device. *)
Definition outbox (w : World) := (officeMessages w, localMessages (app w)).

(** The message went to exactly one place: the cloud collection of the
    visitor, or the list kept on the device. *)
Definition posted (r : AppState) (message : MessageData)
    (before after : list (jsstring * MessageData) * list OfficeMessage) : Prop :=
  (exists visitor,
     user r = Some visitor /\
     after.1 = before.1 ++ [(u_uid visitor, message)] /\ after.2 = before.2) \/
  (exists kept,
     after.1 = before.1 /\ after.2 = before.2 ++ [kept] /\
     om_source kept = local /\ om_text kept = md_text message /\
     om_threadId kept = md_threadId message /\
     om_attachments kept = md_attachments message).

(** The newest log line. *)
Definition lastLog (w : World) : option (WorkflowPhase * jsstring) :=
  (fun log => (lg_phase log, lg_message log)) <$> head (activityLogs (app w)).

(** A run that went through, with the reply it got. *)
Definition completed (r : AppState) (member : CouncilMember) (plan : ActionPlanItem)
    (reply : jsstring) (w w' : World) : Prop :=
  Forall2 (stampedBy (ap_id plan) reply) (actionPlans (app w)) (actionPlans (app w')) /\
  (exists deliverableAsset,
     posted r (executionMessage member plan reply deliverableAsset) (outbox w) (outbox w')) /\
  (exists turn,
     meetingTurns (app w') = take 320 (turn :: meetingTurns (app w)) /\
     mt_text turn = js "[Action Plan Execute]" ++ nl ++ reply /\
     mt_speakerId turn = m_id member /\ mt_room turn = roomCollaboration) /\
  lastLog w' = Some (execution, ap_memberId plan ++ js " 액션플랜 실행 완료").

(** A run that failed, with the message of the failure. *)
Definition abandoned (plan : ActionPlanItem) (message : jsstring) (w w' : World) : Prop :=
  records w' = records w /\
  lastLog w' = Some (execution, ap_memberId plan ++ js " 액션플랜 실행 실패: " ++ message).

Section Steps.
Context `{Host} (env : Env) (r : AppState) (clock : jsstring).

(** What the tail of a run may change besides the records. *)
Definition sent (w : World) := (generated w, phaseTrace w).

Lemma appendLog_at currentPhase message w :
  exists w',
    appendLog env r currentPhase message w = (Return tt, w') /\
    lastLog w' = Some (currentPhase, message) /\
    records w' = records w /\ sent w' = sent w.
Proof. eexists. split; [reflexivity |]. split_and!; reflexivity. Qed.

Lemma persist_at message w :
  exists w',
    persistOfficeMessage env r message w = (Return tt, w') /\
    posted r message (outbox w) (outbox w') /\
    actionPlans (app w') = actionPlans (app w) /\
    meetingTurns (app w') = meetingTurns (app w) /\ sent w' = sent w.
Proof.
  unfold persistOfficeMessage. unfold isoNow, external.
  rewrite bind_run. cbv beta iota. rewrite bind_run. cbv beta iota.
  cbn [mret ST_ret]. cbv beta iota.
  destruct (user r) as [visitor|] eqn:Huser.
  - rewrite bind_run. cbv beta iota. cbn [tick on_tick].
    destruct (addDoc env (S (tick w))).
    + eexists. split; [reflexivity |]. split_and!; try reflexivity.
      right. eexists. split_and!; reflexivity.
    + eexists. split; [reflexivity |]. split_and!; try reflexivity.
      left. exists visitor. split_and!; first [exact Huser | reflexivity].
  - eexists. split; [reflexivity |]. split_and!; try reflexivity.
    right. eexists. split_and!; reflexivity.
Qed.

Lemma turn_at threadId sessionId room speakerId speakerName text source w :
  exists turn w',
    appendMeetingTurn env r threadId sessionId room speakerId speakerName text source w
      = (Return tt, w') /\
    meetingTurns (app w') = take 320 (turn :: meetingTurns (app w)) /\
    mt_text turn = text /\ mt_speakerId turn = speakerId /\ mt_room turn = room /\
    actionPlans (app w') = actionPlans (app w) /\ outbox w' = outbox w /\
    sent w' = sent w.
Proof. eexists _, _. split; [reflexivity |]. split_and!; reflexivity. Qed.

Lemma stamp_at planId reply w :
  exists w',
    stampExecution env planId reply w = (Return tt, w') /\
    Forall2 (stampedBy planId reply) (actionPlans (app w)) (actionPlans (app w')) /\
    meetingTurns (app w') = meetingTurns (app w) /\ outbox w' = outbox w /\
    sent w' = sent w.
Proof.
  unfold stampExecution. rewrite bind_run. cbv beta iota. cbn [getWorld getState].
  match goal with |- context [mapM ?f (actionPlans (app w))] => set (step := f) end.
  assert (forall item,
    returns (same (fun w => (app w, officeMessages w, sent w)))
      (step item) (stampedBy planId reply item)) as Hstep.
  { intros item w0. unfold step, stampedBy.
    destruct (streq (ap_id item) planId) eqn:Hid.
    - eexists _, _. split; [reflexivity |]. split; [done |].
      cbn. split_and!; done.
    - exists item, w0. split; [reflexivity |]. done. }
  destruct (Threads.mapM_related _ step (stampedBy planId reply) (actionPlans (app w))
              Hstep w) as (next & w1 & Hrun & Hsame & Hnext).
  rewrite bind_run, Hrun. cbv beta iota.
  eexists. split; [reflexivity |]. split; [exact Hnext |].
  unfold same in Hsame. injection Hsame as Happ Hmessages Hgen Htrace.
  unfold outbox, sent. cbn. rewrite Happ, Hmessages, Hgen, Htrace. done.
Qed.

(** The statements of the [try] block after the upload. *)
Lemma tail_at member plan reply deliverableAsset w :
  exists w',
    (persistOfficeMessage env r (executionMessage member plan reply deliverableAsset) ;;
     session ← now env;
     appendMeetingTurn env r (Some (ap_threadId plan)) (js "plan-exec-" ++ decimal session)
       roomCollaboration (m_id member) (m_displayName member)
       (js "[Action Plan Execute]" ++ nl ++ reply) turnWorkflow ;;
     stampExecution env (ap_id plan) reply ;;
     appendLog env r execution (ap_memberId plan ++ js " 액션플랜 실행 완료")) w
    = (Return tt, w') /\
    completed r member plan reply w w' /\ sent w' = sent w.
Proof.
  destruct (persist_at (executionMessage member plan reply deliverableAsset) w)
    as (w1 & Hrun1 & Hposted & Hplans1 & Hturns1 & Hsent1).
  rewrite (bind_return _ _ _ _ _ Hrun1).
  rewrite bind_run. unfold now at 1, external at 1.
  rewrite bind_run. cbv beta iota. cbn [mret ST_ret]. cbv beta iota.
  match goal with
  | |- context [appendMeetingTurn env r ?t ?s ?room ?id ?name ?text ?src] =>
    destruct (turn_at t s room id name text src (on_tick S w1))
      as (turn & w2 & Hrun2 & Hturns2 & Htext & Hspeaker & Hroom & Hplans2 & Hout2 & Hsent2)
  end.
  rewrite (bind_return _ _ _ _ _ Hrun2).
  destruct (stamp_at (ap_id plan) reply w2)
    as (w3 & Hrun3 & Hstamped & Hturns3 & Hout3 & Hsent3).
  rewrite (bind_return _ _ _ _ _ Hrun3).
  destruct (appendLog_at execution (ap_memberId plan ++ js " 액션플랜 실행 완료") w3)
    as (w4 & Hrun4 & Hlog & Hrecords4 & Hsent4).
  exists w4. split; [exact Hrun4 |].
  unfold records in Hrecords4.
  injection Hrecords4 as Hplans4 Hturns4 Hlocal4 Hcloud4 _ _ _.
  split.
  - unfold completed. split_and!.
    + rewrite Hplans4. cbn [app on_tick] in Hplans2. by rewrite <- Hplans1, <- Hplans2.
    + exists deliverableAsset.
      assert (outbox w4 = outbox w1) as ->.
      { unfold outbox. rewrite Hcloud4, Hlocal4. fold (outbox w3).
        rewrite Hout3, Hout2. reflexivity. }
      exact Hposted.
    + exists turn. rewrite Hturns4, Hturns3, Hturns2. cbn [app on_tick].
      rewrite Hturns1. done.
    + exact Hlog.
  - rewrite Hsent4, Hsent3, Hsent2. exact Hsent1.
Qed.

Lemma completed_from member plan reply w0 w w' :
  records w = records w0 -> completed r member plan reply w w' ->
  completed r member plan reply w0 w'.
Proof.
  unfold records, completed, outbox.
  intros [= Hplans Hturns Hlocal Hcloud _ _ _].
  by rewrite Hplans, Hturns, Hlocal, Hcloud.
Qed.

(** The [try] block either gets to its end, or throws before it has
    touched the records. *)
Lemma run_outcome member plan w :
  wp (executeActionPlanRun env r clock member plan)
     (fun _ w' => exists reply, completed r member plan reply w w')
     (fun _ w' => records w' = records w) w.
Proof.
  unfold executeActionPlanRun.
  apply (wp_bind_frames (same records));
    [frame | intros error w' Hq; exact Hq | intros _ w1 H1].
  apply (wp_bind_frames (same records));
    [frame | intros error w' Hq; exact (eq_trans Hq H1) | intros authToken w2 H2].
  pose proof (eq_trans H2 H1) as H12. clear H1 H2. cbv zeta.
  apply (wp_bind_frames (same records));
    [frame | intros error w' Hq; exact (eq_trans Hq H12) | intros reply w3 H3].
  pose proof (eq_trans H3 H12) as H13. clear H12 H3.
  apply (wp_bind_frames (same records));
    [frame | intros error w' Hq; exact (eq_trans Hq H13) | intros executedAt w4 H4].
  pose proof (eq_trans H4 H13) as H14. clear H13 H4.
  apply (wp_bind_frames (same records));
    [frame | intros error w' Hq; exact (eq_trans Hq H14) | intros stamp w5 H5].
  pose proof (eq_trans H5 H14) as H15. clear H14 H5.
  apply (wp_bind_frames (same records));
    [frame | intros error w' Hq; exact (eq_trans Hq H15) | intros deliverableAsset w6 H6].
  pose proof (eq_trans H6 H15) as H16. clear H15 H6.
  destruct (tail_at member plan reply deliverableAsset w6) as (w' & Hrun & Hdone & _).
  unfold wp. rewrite Hrun. exists reply. by apply (completed_from _ _ _ _ w6).
Qed.

(** X18. [executeActionPlan] never throws. Called from a render in
    which some execution is marked as going on, or for a plan of an
    unknown member, it does nothing at all. Otherwise it sets
    [executingPlanId] to the id of the plan and, however the run ends,
    resets it to the empty string, and the run is all or nothing. When
    the [try] block got to its end, the office is as the block left it:
    the plans with that id carry the execution stamp and the first 360
    characters of the reply, every other plan is as before, the reply
    was stored once as a message with its deliverable, the meeting has
    one more turn with the reply, and the last log line reports the
    completion. When the block threw, plans, turns, messages, reports
    and threads are exactly as they were before the call, and the last
    log line reports the failure with the message of the [Error] thrown
    (a fixed text for anything else). *)
Theorem execution_all_or_nothing (executingPlanId : jsstring) (plan : ActionPlanItem)
    (d : Desk) :
  exists d',
    executeActionPlan env r clock executingPlanId plan d = (Return tt, d') /\
    if Js.truthy executingPlanId then d' = d
    else
      match getMember (ap_memberId plan) with
      | None => d' = d
      | Some member =>
        dk_executingPlanId d' = [] /\
        dk_marks d' = dk_marks d ++ [ap_id plan; []] /\
        match executeActionPlanRun env r clock member plan (dk_office d) with
        | (Return _, w1) =>
          dk_office d' = w1 /\
          exists reply, completed r member plan reply (dk_office d) (dk_office d')
        | (Throw (JsError message), _) =>
          abandoned plan message (dk_office d) (dk_office d')
        | (Throw JsNonError, _) =>
          abandoned plan (js "액션플랜 실행 실패") (dk_office d) (dk_office d')
        end
      end.
Proof.
  unfold executeActionPlan.
  destruct (Js.truthy executingPlanId); [by eexists |].
  destruct (getMember (ap_memberId plan)) as [member|]; [| by eexists].
  rewrite bind_run. cbn [setExecutingPlanId modify]. cbv beta iota.
  unfold tryFinally, tryCatch, inOffice. cbn [dk_office dk_executingPlanId dk_marks].
  pose proof (run_outcome member plan (dk_office d)) as Hrun. unfold wp in Hrun.
  destruct (executeActionPlanRun env r clock member plan (dk_office d))
    as [[[] | error] w1].
  - cbn [setExecutingPlanId modify]. cbv beta iota.
    eexists. split; [reflexivity |]. cbn [dk_office dk_executingPlanId dk_marks].
    split; [reflexivity |]. split; [by rewrite <- app_assoc |]. by split.
  - cbn [dk_office].
    destruct (appendLog_at execution
                (ap_memberId plan ++ js " 액션플랜 실행 실패: "
                 ++ messageOr error (js "액션플랜 실행 실패")) w1)
      as (w2 & Hlog & Hlast & Hrecords & _).
    unfold executeActionPlanFailed. rewrite Hlog.
    cbn [setExecutingPlanId modify]. cbv beta iota.
    eexists. split; [reflexivity |]. cbn [dk_office dk_executingPlanId dk_marks].
    split; [reflexivity |]. split; [by rewrite <- app_assoc |].
    destruct error as [message |]; cbn [messageOr] in Hlast;
      (split; [by rewrite Hrecords | exact Hlast]).
Qed.

Lemma isoNow_at w : isoNow env w = (Return (toISOString env (tick w)), on_tick S w).
Proof. reflexivity. Qed.

Lemma now_at w : now env w = (Return (Date_now env (tick w)), on_tick S w).
Proof. reflexivity. Qed.

Lemma upload_unsigned content filename category mimeType w :
  user r = None ->
  exists asset w',
    uploadTextAsset env r content filename category mimeType w = (Return asset, w') /\
    fa_source asset = local /\ records w' = records w /\ sent w' = sent w.
Proof.
  intros Huser. unfold uploadTextAsset, uploadFileAsset. cbv zeta. rewrite Huser.
  eexists _, _. split; [reflexivity |]. split_and!; reflexivity.
Qed.

(** With nobody signed in the [try] block gets to its end, with the
    canned reply. *)
Lemma run_unsigned member plan w :
  user r = None -> getMember (ap_memberId plan) = Some member ->
  exists w',
    executeActionPlanRun env r clock member plan w = (Return tt, w') /\
    completed r member plan (offlineReply member (executionInput plan)) w w' /\
    sent w' = sent w.
Proof.
  intros Huser Hget. unfold executeActionPlanRun.
  match goal with
  | |- context [appendLog env r execution ?message ≫= _] =>
    destruct (appendLog_at execution message w) as (w1 & Hrun1 & _ & Hrecords1 & Hsent1)
  end.
  rewrite (bind_return _ _ _ _ _ Hrun1).
  assert (forall w0, getProxyAuthToken env r w0 = (Return [], w0)) as Htoken
    by (intros w0; unfold getProxyAuthToken; by rewrite Huser).
  rewrite (bind_return _ _ _ _ _ (Htoken w1)). cbv zeta.
  change (Js.truthy []) with false. cbv iota.
  assert (runOfficerSingleReply env r (ap_memberId plan) (executionInput plan) []
            (js "CEO-HOBBY") [] w1
          = (Return (offlineReply member (executionInput plan)), w1)) as Hreply.
  { unfold runOfficerSingleReply. rewrite Hget. cbv zeta.
    rewrite (bind_return _ _ _ _ _ (Htoken w1)). reflexivity. }
  rewrite (bind_return _ _ _ _ _ Hreply).
  rewrite (bind_return _ _ _ _ _ (isoNow_at _)).
  rewrite (bind_return _ _ _ _ _ (now_at _)).
  match goal with
  | |- context [uploadTextAsset env r ?content ?filename ?category ?mimeType ≫= _] =>
    destruct (upload_unsigned content filename category mimeType
                (on_tick S (on_tick S w1)) Huser)
      as (deliverableAsset & w2 & Hrun2 & _ & Hrecords2 & Hsent2)
  end.
  rewrite (bind_return _ _ _ _ _ Hrun2).
  destruct (tail_at member plan (offlineReply member (executionInput plan))
              deliverableAsset w2) as (w' & Hrun & Hdone & Hsent).
  exists w'. split; [exact Hrun |]. split.
  - apply (completed_from _ _ _ _ w2); [| exact Hdone].
    rewrite Hrecords2. exact Hrecords1.
  - rewrite Hsent, Hsent2. exact Hsent1.
Qed.

(** X19. With nobody signed in, executing the plan of a council member
    always goes through, and entirely on the device: no request is sent
    to the generation proxy, nothing reaches the cloud collections, the
    plan is stamped with the canned reply of the member, and that reply
    is what the message and the meeting turn carry. [executingPlanId] is
    set to the id of the plan and then to the empty string. *)
Theorem unsigned_execution_stays_local (plan : ActionPlanItem) (d : Desk) :
  user r = None -> isMember (ap_memberId plan) = true ->
  exists member d',
    getMember (ap_memberId plan) = Some member /\
    executeActionPlan env r clock [] plan d = (Return tt, d') /\
    dk_marks d' = dk_marks d ++ [ap_id plan; []] /\ dk_executingPlanId d' = [] /\
    completed r member plan (offlineReply member (executionInput plan))
      (dk_office d) (dk_office d') /\
    generated (dk_office d') = generated (dk_office d) /\
    officeMessages (dk_office d') = officeMessages (dk_office d) /\
    ceoReports (dk_office d') = ceoReports (dk_office d).
Proof.
  intros Huser Hmember. unfold isMember in Hmember.
  destruct (getMember (ap_memberId plan)) as [member|] eqn:Hget; [| done].
  destruct (run_unsigned member plan (dk_office d) Huser Hget)
    as (w' & Hrun & Hdone & Hsent).
  exists member. eexists. split; [done |].
  unfold executeActionPlan. change (Js.truthy []) with false. cbv iota. rewrite Hget.
  rewrite bind_run. cbn [setExecutingPlanId modify]. cbv beta iota.
  unfold tryFinally, tryCatch, inOffice. cbn [dk_office dk_executingPlanId dk_marks].
  rewrite Hrun. cbn [setExecutingPlanId modify]. cbv beta iota.
  split; [reflexivity |]. cbn [dk_office dk_executingPlanId dk_marks].
  split; [by rewrite <- app_assoc |]. split; [reflexivity |].
  split; [exact Hdone |].
  injection Hsent as Hgenerated _. split; [exact Hgenerated |].
  destruct Hdone as (_ & (asset & Hposted) & _).
  destruct Hposted as [(visitor & Hvisitor & _) | (kept & Hcloud & _)];
    [congruence |].
  split; [exact Hcloud |].
  assert (frames (same ceoReports) (executeActionPlanRun env r clock member plan)) as Hquiet
    by frame.
  specialize (Hquiet (dk_office d)). rewrite Hrun in Hquiet. exact Hquiet.
Qed.

End Steps.

Section Desk.
#[local] Existing Instance RefHost.host.

(** A plan of DEV-TAN in the office nobody is signed in to. *)
Definition devPlan : ActionPlanItem :=
  {| ap_id := js "plan-1"; ap_threadId := js "thread-main"; ap_memberId := js "DEV-TAN";
     ap_memberName := js "DEV-TAN"; ap_plan := js "Ship the beta";
     ap_source := manual; ap_createdAt := Scenario.stamp 0;
     ap_updatedAt := Scenario.stamp 0; ap_lastExecutedAt := None;
     ap_lastExecutionSummary := None |}.

Definition deskWorld : World :=
  on_app (over_actionPlans (fun _ => [devPlan])) Scenario.anonymousOffice.

Definition desk : Desk :=
  {| dk_office := deskWorld; dk_executingPlanId := []; dk_marks := [] |}.

Lemma unsigned_execution_stays_local_witness :
  user (app deskWorld) = None /\ isMember (ap_memberId devPlan) = true /\
  exists d',
    executeActionPlan Scenario.silent (app deskWorld) (Scenario.stamp 0) [] devPlan desk
    = (Return tt, d') /\
    dk_marks d' = [js "plan-1"; []] /\
    generated (dk_office d') = [] /\ officeMessages (dk_office d') = [].
Proof.
  split; [reflexivity |]. split; [vm_compute; reflexivity |].
  destruct (unsigned_execution_stays_local Scenario.silent (app deskWorld) (Scenario.stamp 0)
              devPlan desk)
    as (member & d' & _ & Hrun & Hmarks & _ & _ & Hgenerated & Hcloud & _).
  - reflexivity.
  - vm_compute. reflexivity.
  - exists d'. split; [exact Hrun |]. split; [exact Hmarks |].
    split; [exact Hgenerated | exact Hcloud].
Defined.

End Desk.

End Execution.

(* ===================================================================== *)
(** * Images: the service and its client ([lib/gemini.ts]) *)
(* ===================================================================== *)

Module Images.
Import Effects JsFacts Dispatch.

(** ** The data *)

Record GeminiReferenceImage := { ri_mimeType : jsstring; ri_data : jsstring }.

(** [GeminiImageBody]: every field is optional. *)
Record GeminiImageBody := {
  ib_model : option jsstring;
  ib_prompt : option jsstring;
  ib_references : option (list GeminiReferenceImage);
  ib_aspectRatio : option jsstring;
  ib_imageSize : option jsstring;
  ib_useSearch : option bool
}.

(** The inline data of a part, in either spelling of its media type. *)
Record InlineData := {
  il_mimeType : option jsstring;
  il_mime_type : option jsstring;
  il_data : option jsstring
}.

Record ImagePart := {
  ip_text : option jsstring;
  ip_inlineData : option InlineData;
  ip_inline_data : option InlineData
}.

Record ImageContent := { ic_parts : option (list ImagePart) }.
Record ImageCandidate := { id_content : option ImageContent }.
Record ImagePayload := { ig_candidates : option (list ImageCandidate) }.

(** [GeminiImageResponse] of the service, [GeminiGenerateImageResult] of
    the client. *)
Record GeminiImage := {
  gi_text : jsstring;
  gi_imageBase64 : jsstring;
  gi_mimeType : jsstring
}.

(** What the service answers a request for an image. *)
Inductive ImageHttpResponse :=
| Image200 (result : GeminiImage)
| ImageError (status : N) (error : jsstring).

(** ** The service *)

(** The loop of [requestGeminiImage] over the parts of the first
    candidate, from the values [text], [imageBase64] and [mimeType] have
    when it starts; it stops at the first part with inline data. *)
Fixpoint imageOfParts (text : jsstring) (partsOut : list ImagePart) : GeminiImage :=
  match partsOut with
  | [] => {| gi_text := text; gi_imageBase64 := []; gi_mimeType := js "image/png" |}
  | part :: rest =>
    let text :=
      if negb (Js.truthy text) then
        match ip_text part with Some partText => partText | None => text end
      else text in
    let inline :=
      match ip_inlineData part with
      | Some inlineData => Some inlineData
      | None => ip_inline_data part
      end in
    match inline with
    | Some inline =>
      if Js.truthy (default [] (il_data inline)) then
        {| gi_text := text; gi_imageBase64 := default [] (il_data inline);
           gi_mimeType :=
             orElse (orElse (default [] (il_mimeType inline))
                            (default [] (il_mime_type inline)))
                    (js "image/png") |}
      else imageOfParts text rest
    | None => imageOfParts text rest
    end
  end.

Section Service.
Context `{Host} (backend : Backend)
  (geminiImageReply : nat -> BackendCall -> BackendReply ImagePayload).

Definition requestGeminiImage (body : GeminiImageBody) : D GeminiImage :=
  let apiKey := secret backend gemini in
  if negb (isConfiguredSecret apiKey) then
    throw (JsError (js "GEMINI_API_KEY is not configured."))
  else
    let endpoint :=
      GEMINI_BASE ++ js "/models/"
      ++ strOr (ib_model body) (js "gemini-3-pro-image-preview")
      ++ js ":generateContent" in
    let parts :=
      JObj [(js "text", JStr (strOr (ib_prompt body) []))]
      :: map (fun reference =>
                JObj [(js "inline_data",
                       JObj [(js "mime_type", JStr (ri_mimeType reference));
                             (js "data", JStr (ri_data reference))])])
             (default [] (ib_references body)) in
    let payload :=
      [(js "contents",
        JArr [JObj [(js "role", JStr (js "user")); (js "parts", JArr parts)]]);
       (js "generationConfig",
        JObj [(js "responseModalities", JArr [JStr (js "TEXT"); JStr (js "IMAGE")]);
              (js "imageConfig",
               JObj [(js "aspectRatio", JStr (strOr (ib_aspectRatio body) (js "16:9")));
                     (js "imageSize", JStr (strOr (ib_imageSize body) (js "2K")))])])]
      ++ (if default false (ib_useSearch body) then [(js "tools", googleSearchTool)]
          else []) in
    response ← call gemini geminiImageReply
      {| bc_endpoint := endpoint;
         bc_headers := [(js "Content-Type", js "application/json");
                        (js "x-goog-api-key", default [] apiKey)];
         bc_payload := JObj payload |};
    match response with
    | Rejected error => throw error
    | Undecodable error => throw error
    | Failure status bodyText => throw (failed "Gemini image" status bodyText)
    | Success json =>
      let partsOut :=
        match default [] (ig_candidates json) with
        | first :: _ => default [] (id_content first ≫= ic_parts)
        | [] => []
        end in
      let result := imageOfParts [] partsOut in
      if negb (Js.truthy (gi_imageBase64 result)) then
        throw (JsError (js "Gemini image response did not include image data."))
      else mret result
    end.

Definition handleGeminiImage (body : GeminiImageBody) : D ImageHttpResponse :=
  tryCatch
    (if negb (Js.truthy (default [] (ib_prompt body)))
        || negb (Js.truthy (trim (default [] (ib_prompt body)))) then
       mret (ImageError 400 (js "prompt is required"))
     else
       result ← requestGeminiImage body;
       mret (Image200 result))
    (fun error => mret (ImageError 500 (messageOr error (js "Unknown error")))).

End Service.

(** ** The client *)

(** [GeminiGenerateImageRequest]; [apiKey] is not read. *)
Record GeminiGenerateImageRequest := {
  gr_prompt : jsstring;
  gr_model : option jsstring;
  gr_references : option (list GeminiReferenceImage);
  gr_aspectRatio : option jsstring;
  gr_imageSize : option jsstring;
  gr_useSearch : option bool;
  gr_authToken : option jsstring
}.

(** [GeminiResponse]: the answer of the proxy as the client reads it. *)
Record GeminiResponse := {
  gs_text : option jsstring;
  gs_imageBase64 : option jsstring;
  gs_mimeType : option jsstring;
  gs_candidates : option (list ImageCandidate)
}.

(** One [fetch] of the proxy: the address, the headers, and the body
    that is sent as JSON. *)
Record ProxyImageCall := {
  pc_url : jsstring;
  pc_headers : list (jsstring * jsstring);
  pc_body : GeminiImageBody
}.

(** What the [fetch] comes back with, by the cases the client tells
    apart. *)
Inductive ImageProxyReply :=
| ImageFetchRejected (error : Exn)
| ImageNotOk (status : N) (errorText : jsstring)
| ImageBodyRejected (error : Exn)
| ImageAnswer (payload : GeminiResponse).

(** The loop of [generateGeminiImage] over the parts of the first
    candidate. *)
Fixpoint proxyImageOfParts (textOutput : jsstring) (partsOut : list ImagePart)
  : GeminiImage :=
  match partsOut with
  | [] => {| gi_text := textOutput; gi_imageBase64 := []; gi_mimeType := js "image/png" |}
  | part :: rest =>
    let textOutput :=
      if negb (Js.truthy textOutput) then
        match ip_text part with Some partText => partText | None => textOutput end
      else textOutput in
    (* readInlineData *)
    let inlineData :=
      match ip_inlineData part with
      | Some inlineData => Some inlineData
      | None => ip_inline_data part
      end in
    match inlineData with
    | Some inlineData =>
      match il_data inlineData with
      | Some data =>
        if Js.truthy data then
          {| gi_text := textOutput; gi_imageBase64 := data;
             gi_mimeType :=
               orElse (strOr (il_mimeType inlineData) (default [] (il_mime_type inlineData)))
                      (js "image/png") |}
        else proxyImageOfParts textOutput rest
      | None => proxyImageOfParts textOutput rest
      end
    | None => proxyImageOfParts textOutput rest
    end
  end.

Section Client.
Context (API_PROXY_BASE : jsstring) (fetchImage : ProxyImageCall -> ImageProxyReply).

Definition resolveProxyUrl (path : jsstring) : jsstring :=
  let base := trimSlash (trim API_PROXY_BASE) in
  if negb (Js.truthy base) then path else base ++ path.

Definition generateGeminiImage (request : GeminiGenerateImageRequest) : Exn + GeminiImage :=
  let response :=
    fetchImage
      {| pc_url := resolveProxyUrl (js "/api/gemini/image");
         pc_headers :=
           (js "Content-Type", js "application/json")
           :: (if Js.truthy (default [] (gr_authToken request))
               then [(js "Authorization", js "Bearer " ++ default [] (gr_authToken request))]
               else []);
         pc_body :=
           {| ib_prompt := Some (gr_prompt request);
              ib_model := Some (default (js "gemini-3-pro-image-preview") (gr_model request));
              ib_references := Some (default [] (gr_references request));
              ib_aspectRatio := Some (default (js "16:9") (gr_aspectRatio request));
              ib_imageSize := Some (default (js "2K") (gr_imageSize request));
              ib_useSearch := Some (default false (gr_useSearch request)) |} |} in
  match response with
  | ImageFetchRejected error => inl error
  | ImageNotOk status errorText =>
    inl (JsError (js "Proxy Gemini request failed (" ++ decimal status ++ js "): "
                  ++ errorText))
  | ImageBodyRejected error => inl error
  | ImageAnswer payload =>
    if Js.truthy (default [] (gs_imageBase64 payload)) then
      inr {| gi_text := strOr (gs_text payload) [];
             gi_imageBase64 := default [] (gs_imageBase64 payload);
             gi_mimeType := strOr (gs_mimeType payload) (js "image/png") |}
    else
      let partsOut :=
        match default [] (gs_candidates payload) with
        | first :: _ => default [] (id_content first ≫= ic_parts)
        | [] => []
        end in
      let result := proxyImageOfParts [] partsOut in
      if negb (Js.truthy (gi_imageBase64 result)) then
        inl (JsError (js "Gemini response did not include an image."))
      else inr result
  end.

End Client.

(** ** The loop *)

(** A part with inline data that is not empty. *)
Definition carriesImage (part : ImagePart) : bool :=
  match ip_inlineData part with
  | Some inline => Js.truthy (default [] (il_data inline))
  | None =>
    match ip_inline_data part with
    | Some inline => Js.truthy (default [] (il_data inline))
    | None => false
    end
  end.

(** The inline data the loop reads from a part. *)
Definition inlineOf (part : ImagePart) : InlineData :=
  match ip_inlineData part with
  | Some inline => inline
  | None =>
    default {| il_mimeType := None; il_mime_type := None; il_data := None |}
            (ip_inline_data part)
  end.

(** The first text of the parts that is not empty, else the empty
    string. *)
Definition firstText (partsOut : list ImagePart) : jsstring :=
  default [] (head (filter (fun text => Js.truthy text = true) (omap ip_text partsOut))).

Lemma orElse_nil a : orElse a [] = a.
Proof. unfold orElse. by destruct a. Qed.

Lemma orElse_assoc a b c : orElse a (orElse b c) = orElse (orElse a b) c.
Proof. unfold orElse. by destruct a, b. Qed.

Lemma firstText_cons part rest :
  firstText (part :: rest) =
  orElse (default [] (ip_text part)) (firstText rest).
Proof.
  unfold firstText. cbn [omap list_omap].
  destruct (ip_text part) as [text|]; cbn [default]; [| done].
  change (id text) with text.
  unfold orElse. destruct (Js.truthy text) eqn:Htext.
  - by rewrite filter_cons_True.
  - rewrite filter_cons_False; [done | by rewrite Htext].
Qed.

Lemma imageOfParts_text text partsOut :
  Js.truthy text = true -> gi_text (imageOfParts text partsOut) = text.
Proof.
  intros Htext. induction partsOut as [|part rest IH]; [done |].
  cbn [imageOfParts]. rewrite Htext. cbn [negb]. cbv iota zeta.
  destruct (ip_inlineData part) as [inline|];
    [| destruct (ip_inline_data part) as [inline|]; [| exact IH]];
    (destruct (Js.truthy (default [] (il_data inline))); [done | exact IH]).
Qed.

Lemma imageOfParts_blank before :
  (forall part, part ∈ before -> carriesImage part = false) ->
  forall text rest,
    imageOfParts text (before ++ rest) =
    imageOfParts (orElse text (firstText before)) rest.
Proof.
  induction before as [|part before IH]; intros Hblank text rest.
  - rewrite app_nil_l. unfold firstText. cbn. by rewrite orElse_nil.
  - pose proof (Hblank part ltac:(apply list_elem_of_here)) as Hpart.
    assert (forall p, p ∈ before -> carriesImage p = false) as Hrest
      by (intros p Hp; by apply Hblank, list_elem_of_further).
    change ((part :: before) ++ rest) with (part :: before ++ rest).
    rewrite firstText_cons. cbn [imageOfParts]. cbv zeta.
    unfold carriesImage in Hpart.
    set (stepped := if negb (Js.truthy text)
                    then match ip_text part with Some partText => partText | None => text end
                    else text).
    assert (orElse stepped (firstText before)
            = orElse text (orElse (default [] (ip_text part)) (firstText before))) as Htexts.
    { unfold stepped, orElse. destruct text as [|c text]; cbn [Js.truthy negb]; [| done].
      by destruct (ip_text part). }
    destruct (ip_inlineData part) as [inline|].
    + rewrite Hpart. rewrite (IH Hrest). by rewrite Htexts.
    + destruct (ip_inline_data part) as [inline|].
      * rewrite Hpart. rewrite (IH Hrest). by rewrite Htexts.
      * rewrite (IH Hrest). by rewrite Htexts.
Qed.

(** X21. Of the parts the provider answers with, the service takes the
    image of the first part that carries one, with the media type of
    that part (or image/png), together with the first text that is not
    empty among the parts up to and including that one. Every part after
    it is ignored, so a text that follows the image is lost. When no part
    carries an image the loop ends without one. *)
Theorem first_inline_image_wins (before after : list ImagePart) (part : ImagePart) :
  existsb carriesImage before = false ->
  carriesImage part = true ->
  imageOfParts [] (before ++ part :: after) =
    {| gi_text := firstText (before ++ [part]);
       gi_imageBase64 := default [] (il_data (inlineOf part));
       gi_mimeType :=
         orElse (orElse (default [] (il_mimeType (inlineOf part)))
                        (default [] (il_mime_type (inlineOf part))))
                (js "image/png") |} /\
  gi_imageBase64 (imageOfParts [] before) = [].
Proof.
  intros Hnone Hpart.
  assert (forall earlier, earlier ∈ before -> carriesImage earlier = false) as Hblank.
  { intros earlier Hin. destruct (carriesImage earlier) eqn:Hcarries; [| done].
    rewrite <- Hnone. symmetry. apply existsb_exists. exists earlier.
    split; [by apply list_elem_of_In | done]. }
  split.
  - rewrite (imageOfParts_blank before Hblank).
    assert (firstText (before ++ [part])
            = orElse (firstText before) (default [] (ip_text part))) as ->.
    { clear. induction before as [|p before IH].
      - rewrite app_nil_l, firstText_cons. unfold firstText. cbn.
        by rewrite orElse_nil.
      - change ((p :: before) ++ [part]) with (p :: (before ++ [part])).
        rewrite !firstText_cons, IH. apply orElse_assoc. }
    change (orElse [] (firstText before)) with (firstText before).
    cbn [imageOfParts]. cbv zeta. unfold carriesImage in Hpart. unfold inlineOf.
    assert ((if negb (Js.truthy (firstText before))
             then match ip_text part with
                  | Some partText => partText
                  | None => firstText before
                  end
             else firstText before)
            = orElse (firstText before) (default [] (ip_text part))) as ->.
    { unfold orElse. destruct (firstText before) as [|c text]; cbn [Js.truthy negb]; [| done].
      by destruct (ip_text part). }
    destruct (ip_inlineData part) as [inline|].
    + by rewrite Hpart.
    + destruct (ip_inline_data part) as [inline|]; [| done]. by rewrite Hpart.
  - rewrite <- (app_nil_r before). rewrite (imageOfParts_blank before Hblank). done.
Qed.

(** The two loops give the same text, image and media type. *)
Lemma loops_agree text partsOut :
  proxyImageOfParts text partsOut = imageOfParts text partsOut.
Proof.
  revert text. induction partsOut as [|part rest IH]; intros text; [done |].
  cbn [proxyImageOfParts imageOfParts]. cbv zeta.
  destruct (ip_inlineData part) as [inline|];
    [| destruct (ip_inline_data part) as [inline|]; [| apply IH]];
    (destruct (il_data inline) as [data|]; unfold strOr; simpl;
     [destruct (Js.truthy data); [reflexivity | apply IH] | apply IH]).
Qed.

Lemma imageOfParts_mime text partsOut :
  Js.truthy (gi_mimeType (imageOfParts text partsOut)) = true.
Proof.
  assert (Js.truthy (js "image/png") = true) as Hpng by (vm_compute; reflexivity).
  revert text. induction partsOut as [|part rest IH]; intros text; [exact Hpng |].
  cbn [imageOfParts]. cbv zeta.
  destruct (ip_inlineData part) as [inline|];
    [| destruct (ip_inline_data part) as [inline|]; [| apply IH]];
    (destruct (Js.truthy (default [] (il_data inline))); [| apply IH]);
    cbn [gi_mimeType]; unfold orElse at 1;
    match goal with |- context [if Js.truthy ?x then _ else _] =>
      destruct (Js.truthy x) eqn:Hx end; done.
Qed.

Section Facts.
Context `{Host} (backend : Backend)
  (geminiImageReply : nat -> BackendCall -> BackendReply ImagePayload).

Lemma trim_blank prompt :
  Js.truthy (trim prompt) = true -> Js.truthy prompt = true.
Proof. by destruct prompt. Qed.

(** What [requestGeminiImage] returns has an image and a media type,
    and took exactly one call; without a configured secret it throws
    before any call. *)
Lemma requestGeminiImage_outcome body w :
  (forall result w',
     requestGeminiImage backend geminiImageReply body w = (Return result, w') ->
     Js.truthy (gi_imageBase64 result) = true /\ Js.truthy (gi_mimeType result) = true /\
     exists request, calls w' = calls w ++ [(gemini, request)]) /\
  (forall error w',
     requestGeminiImage backend geminiImageReply body w = (Throw error, w') ->
     length (calls w') <= S (length (calls w))) /\
  (isConfiguredSecret (secret backend gemini) = false ->
     requestGeminiImage backend geminiImageReply body w
     = (Throw (JsError (js "GEMINI_API_KEY is not configured.")), w)).
Proof.
  unfold requestGeminiImage. cbv zeta.
  destruct (isConfiguredSecret (secret backend gemini)); cbn [negb]; cbv iota.
  2: { split; [intros ? ? [=] |]. split; [intros ? ? [= _ <-]; lia | done]. }
  split; [| split; [| done]].
  - intros result w'. rewrite bind_run. unfold call at 1. cbv beta iota.
    match goal with |- context [geminiImageReply (wireTick w) ?c] =>
      destruct (geminiImageReply (wireTick w) c) as [error | status bodyText | error | json]
    end; [done | done | done |].
    match goal with |- context [imageOfParts [] ?parts] =>
      set (result0 := imageOfParts [] parts) end.
    destruct (Js.truthy (gi_imageBase64 result0)) eqn:Himage; cbn [negb]; cbv iota; [| done].
    intros [= <- <-]. split; [exact Himage |]. split; [| by eexists].
    apply imageOfParts_mime.
  - intros error w'. rewrite bind_run. unfold call at 1. cbv beta iota.
    match goal with |- context [geminiImageReply (wireTick w) ?c] =>
      destruct (geminiImageReply (wireTick w) c) as [error' | status bodyText | error' | json]
    end.
    1-3: intros [= _ <-]; cbn; rewrite length_app; cbn; lia.
    match goal with |- context [if ?b then _ else _] => destruct b end;
      intros [= _ <-]; cbn; rewrite length_app; cbn; lia.
Qed.

(** X20. [handleGeminiImage] always answers, and never throws. A request
    whose prompt is missing or blank is answered 400 before the provider
    is called. A 200 answer carries an image and a media type that are
    not empty, and exactly one provider call was made for it. Every
    other answer is a 500 with the message of the error, after one call
    at most; when the secret is not configured no call is made. *)
Theorem image_handler_always_answers (body : GeminiImageBody) (w : Wire) :
  exists response w',
    handleGeminiImage backend geminiImageReply body w = (Return response, w') /\
    (Js.truthy (trim (default [] (ib_prompt body))) = false ->
       response = ImageError 400 (js "prompt is required") /\ w' = w) /\
    (forall result, response = Image200 result ->
       Js.truthy (gi_imageBase64 result) = true /\ Js.truthy (gi_mimeType result) = true /\
       exists request, calls w' = calls w ++ [(gemini, request)]) /\
    (forall status message, response = ImageError status message ->
       (status = 400%N \/ status = 500%N) /\ length (calls w') <= S (length (calls w))) /\
    (Js.truthy (trim (default [] (ib_prompt body))) = true ->
     isConfiguredSecret (secret backend gemini) = false ->
       response = ImageError 500 (js "GEMINI_API_KEY is not configured.") /\ w' = w).
Proof.
  unfold handleGeminiImage, tryCatch.
  destruct (Js.truthy (trim (default [] (ib_prompt body)))) eqn:Hprompt.
  - rewrite (trim_blank _ Hprompt). cbn [negb orb]. cbv iota. rewrite bind_run.
    destruct (requestGeminiImage_outcome body w) as (Hreturned & Hthrown & Hsecret).
    destruct (requestGeminiImage backend geminiImageReply body w)
      as [[result | error] w1] eqn:Hrun.
    + exists (Image200 result), w1. split; [reflexivity |].
      split; [intros [=] |].
      split; [intros ? [= <-]; by apply Hreturned |].
      split; [intros ? ? [=] |].
      intros _ Hnot. specialize (Hsecret Hnot). discriminate Hsecret.
    + exists (ImageError 500 (messageOr error (js "Unknown error"))), w1.
      split; [reflexivity |]. split; [intros [=] |].
      split; [intros ? [=] |].
      split; [intros ? ? [= <- _]; split; [by right | by eapply Hthrown] |].
      intros _ Hnot. specialize (Hsecret Hnot). injection Hsecret as -> ->.
      split; reflexivity.
  - rewrite orb_true_r. cbv iota.
    exists (ImageError 400 (js "prompt is required")), w. split; [reflexivity |].
    split; [done |]. split; [intros ? [=] |].
    split; [intros ? ? [= <- _]; split; [by left | lia] |]. intros [=].
Qed.

(** X23. The client hands on what the service answers. Whatever
    [handleGeminiImage] answers 200 with, [generateGeminiImage] returns
    unchanged when it receives these three fields: it takes the image
    from the top of the payload and never looks for candidates. *)
Theorem service_image_passes_through (body : GeminiImageBody) (w w' : Wire)
    (result : GeminiImage) (base : jsstring) (request : GeminiGenerateImageRequest) :
  handleGeminiImage backend geminiImageReply body w = (Return (Image200 result), w') ->
  generateGeminiImage base
    (fun _ => ImageAnswer {| gs_text := Some (gi_text result);
                             gs_imageBase64 := Some (gi_imageBase64 result);
                             gs_mimeType := Some (gi_mimeType result);
                             gs_candidates := None |})
    request
  = inr result.
Proof.
  intros Hrun.
  assert (Js.truthy (gi_imageBase64 result) = true /\ Js.truthy (gi_mimeType result) = true)
    as [Himage Hmime].
  { revert Hrun. unfold handleGeminiImage, tryCatch.
    destruct (negb (Js.truthy (default [] (ib_prompt body)))
              || negb (Js.truthy (trim (default [] (ib_prompt body))))); [done |].
    rewrite bind_run.
    destruct (requestGeminiImage_outcome body w) as (Hreturned & _ & _).
    destruct (requestGeminiImage backend geminiImageReply body w)
      as [[result' | error] w1] eqn:Hrequest; [| done].
    intros [= -> ->]. destruct (Hreturned result w' eq_refl) as (Himage & Hmime & _).
    by split. }
  unfold generateGeminiImage, strOr. simpl.
  rewrite Himage, orElse_nil, (orElse_truthy _ _ Hmime).
  by destruct result.
Qed.

End Facts.

(** X22. Where the answer of the proxy has no image at its top, the
    client reads the candidates exactly as the service reads the answer
    of the provider: it returns what the loop of the service gives for
    these parts, and throws where that has no image. *)
Theorem client_reads_like_service (base : jsstring) (request : GeminiGenerateImageRequest)
    (text mime : option jsstring) (found : option (list ImageCandidate)) :
  generateGeminiImage base
    (fun _ => ImageAnswer {| gs_text := text; gs_imageBase64 := None;
                             gs_mimeType := mime; gs_candidates := found |})
    request
  = let result :=
      imageOfParts []
        match default [] found with
        | first :: _ => default [] (id_content first ≫= ic_parts)
        | [] => []
        end in
    if Js.truthy (gi_imageBase64 result) then inr result
    else inl (JsError (js "Gemini response did not include an image.")).
Proof.
  unfold generateGeminiImage. simpl. rewrite loops_agree.
  by destruct (Js.truthy (gi_imageBase64 _)).
Qed.

Section Studio.
#[local] Existing Instance RefHost.host.

Definition caption : ImagePart :=
  {| ip_text := Some (js "a cat"); ip_inlineData := None; ip_inline_data := None |}.

Definition picture : ImagePart :=
  {| ip_text := None; ip_inlineData := None;
     ip_inline_data :=
       Some {| il_mimeType := None; il_mime_type := Some (js "image/webp");
               il_data := Some (js "QUJD") |} |}.

Definition afterword : ImagePart :=
  {| ip_text := Some (js "drawn in ink"); ip_inlineData := None; ip_inline_data := None |}.

Definition cat : GeminiImage :=
  {| gi_text := js "a cat"; gi_imageBase64 := js "QUJD"; gi_mimeType := js "image/webp" |}.

Lemma first_inline_image_wins_witness :
  existsb carriesImage [caption] = false /\ carriesImage picture = true /\
  imageOfParts [] ([caption] ++ picture :: [afterword]) = cat.
Proof.
  split; [reflexivity |]. split; [reflexivity |].
  destruct (first_inline_image_wins [caption] [afterword] picture) as [Hread _].
  - reflexivity.
  - reflexivity.
  - rewrite Hread. vm_compute. reflexivity.
Defined.

(** The provider answers with a caption, a picture and an afterword. *)
Definition studio : Backend :=
  {| secret := fun _ => Some (js "key-1");
     openaiReply := fun _ _ => Failure 400 (js "{}");
     anthropicReply := fun _ _ => Failure 400 (js "{}");
     xaiReply := fun _ _ => Failure 400 (js "{}");
     geminiReply := fun _ _ => Failure 400 (js "{}");
     verifyIdToken := fun _ _ => None |}.

Definition drawing (n : nat) (request : BackendCall) : BackendReply ImagePayload :=
  Success
    {| ig_candidates :=
         Some [{| id_content :=
                    Some {| ic_parts := Some [caption; picture; afterword] |} |}] |}.

Definition order : GeminiImageBody :=
  {| ib_model := None; ib_prompt := Some (js "draw a cat"); ib_references := None;
     ib_aspectRatio := None; ib_imageSize := None; ib_useSearch := None |}.

Definition wish : GeminiGenerateImageRequest :=
  {| gr_prompt := js "draw a cat"; gr_model := None; gr_references := None;
     gr_aspectRatio := None; gr_imageSize := None; gr_useSearch := None;
     gr_authToken := Some (js "token") |}.

Lemma service_image_passes_through_witness :
  (handleGeminiImage studio drawing order idleWire).1 = Return (Image200 cat) /\
  generateGeminiImage []
    (fun _ => ImageAnswer {| gs_text := Some (gi_text cat);
                             gs_imageBase64 := Some (gi_imageBase64 cat);
                             gs_mimeType := Some (gi_mimeType cat);
                             gs_candidates := None |})
    wish
  = inr cat.
Proof.
  split; [vm_compute; reflexivity |].
  apply (service_image_passes_through studio drawing order idleWire
           (handleGeminiImage studio drawing order idleWire).2 cat [] wish).
  vm_compute. reflexivity.
Defined.

End Studio.

End Images.

(* ===================================================================== *)
(** * The team of a collaboration, and moving the agents *)
(* ===================================================================== *)

Module TeamMore.
Import Effects OfficeFacts JsFacts.

(** ** [Array.from(new Set(xs))] *)

Lemma uniqueFrom_spec seen xs :
  NoDup (uniqueFrom seen xs) /\
  forall x, x ∈ uniqueFrom seen xs <-> x ∈ xs /\ x ∉ seen.
Proof.
  revert seen. induction xs as [|y xs IH]; intros seen.
  - split; [constructor |]. intros x. cbn. split; [intros Hx; inversion Hx |].
    intros [Hx _]. inversion Hx.
  - cbn [uniqueFrom]. destruct (bool_decide (y ∈ seen)) eqn:Hseen.
    + apply bool_decide_eq_true in Hseen. destruct (IH seen) as [Hnodup Hin].
      split; [exact Hnodup |]. intros x. rewrite Hin, elem_of_cons.
      split; [intros [Hx Hnot]; by split; [right |] |].
      intros [[-> | Hx] Hnot]; [done | by split].
    + apply bool_decide_eq_false in Hseen. destruct (IH (y :: seen)) as [Hnodup Hin].
      split.
      * constructor; [| exact Hnodup]. rewrite Hin. intros [_ Hnot].
        apply Hnot, list_elem_of_here.
      * intros x. rewrite !elem_of_cons, Hin, not_elem_of_cons.
        split.
        -- intros [-> | [Hx [Hne Hnot]]]; [split; [by left | done] |].
           split; [by right | done].
        -- intros [[-> | Hx] Hnot]; [by left |].
           destruct (decide (x = y)) as [-> | Hne]; [by left |]. right. done.
Qed.

Section Team.
Context `{Host}.

Lemma default_team_sound :
  (filter (fun memberId => isMember memberId = true) DEFAULT_COLLABORATION_TEAM
   = DEFAULT_COLLABORATION_TEAM) /\
  NoDup DEFAULT_COLLABORATION_TEAM /\
  (js "CEO-HOBBY" ∉ DEFAULT_COLLABORATION_TEAM) /\
  length DEFAULT_COLLABORATION_TEAM = 11.
Proof.
  split; [vm_compute; reflexivity |].
  split; [apply (bool_decide_unpack _); vm_compute; exact I |].
  split; [apply (bool_decide_unpack _); vm_compute; exact I | reflexivity].
Qed.

(** The participants of a plan the team can take: council members other
    than the CEO, by their upper-cased id. *)
Definition eligible (brainstorm : BrainstormPlan) : list jsstring :=
  filter (fun memberId => isMember memberId = true)
    (filter (fun memberId => memberId ≠ js "CEO-HOBBY")
       (map toUpperCase (bp_participants brainstorm))).

(** X24. Whatever the brainstorm plan names, the team of the collaboration is
    never empty, has no member twice, and consists of council members
    other than the CEO. It is the default team of eleven exactly when the
    plan names no eligible member; otherwise it is made of exactly the
    eligible members the plan names, each once. *)
Theorem team_is_sound (brainstorm : BrainstormPlan) :
  let team := collaborationMembersOf brainstorm in
  team <> [] /\ NoDup team /\
  (forall memberId, memberId ∈ team ->
     isMember memberId = true /\ memberId <> js "CEO-HOBBY") /\
  (eligible brainstorm = [] -> team = DEFAULT_COLLABORATION_TEAM) /\
  (eligible brainstorm <> [] ->
     forall memberId, memberId ∈ team <-> memberId ∈ eligible brainstorm).
Proof.
  cbv zeta. unfold collaborationMembersOf. fold (eligible brainstorm). cbv zeta.
  destruct default_team_sound as (Hfilter & Hnodup & Hceo & Hlength).
  destruct (uniqueFrom_spec [] (eligible brainstorm)) as [Hunique Hin].
  fold (unique (eligible brainstorm)) in Hunique, Hin.
  assert (forall memberId, memberId ∈ unique (eligible brainstorm)
                           <-> memberId ∈ eligible brainstorm) as Hsame.
  { intros memberId. rewrite Hin. split; [by intros [? _] |].
    intros Hm. split; [done | apply not_elem_of_nil]. }
  destruct (unique (eligible brainstorm)) as [|first rest] eqn:Hteam.
  - rewrite Hfilter.
    assert (eligible brainstorm = []) as Hnone.
    { destruct (eligible brainstorm) as [|x l]; [done |].
      exfalso. apply (not_elem_of_nil x). apply Hsame, list_elem_of_here. }
    split_and!.
    + intros Hempty. rewrite Hempty in Hlength. discriminate Hlength.
    + exact Hnodup.
    + intros memberId Hm. split.
      * rewrite <- Hfilter in Hm. apply list_elem_of_filter in Hm as [Hm _]. exact Hm.
      * intros ->. by apply Hceo.
    + done.
    + intros Hsome. by destruct Hsome.
  - split_and!.
    + done.
    + exact Hunique.
    + intros memberId Hm. apply Hsame in Hm. unfold eligible in Hm.
      apply list_elem_of_filter in Hm as [Hmember Hm].
      apply list_elem_of_filter in Hm as [Hne _]. by split.
    + intros Hnone. rewrite Hnone in Hsame.
      exfalso. apply (not_elem_of_nil first). apply Hsame, list_elem_of_here.
    + intros _. exact Hsame.
Qed.

End Team.

(** ** Moving the agents *)

(** The shape of the updaters of [moveMembersToRoom] and
    [moveReportersToCEO]: an id with an agent gets the state made for
    its position in the list. *)
Definition place (make : nat -> AgentState) (previous : gmap jsstring AgentState)
    (entries : list (nat * jsstring)) (start : gmap jsstring AgentState)
  : gmap jsstring AgentState :=
  foldl (fun next '(index, memberId) =>
    match previous !! memberId with
    | None => next
    | Some _ => <[memberId := make index]> next
    end) start entries.

Lemma place_spec make previous entries start :
  (forall memberId, memberId ∉ entries.*2 ->
     place make previous entries start !! memberId = start !! memberId) /\
  (forall memberId, memberId ∈ entries.*2 -> is_Some (previous !! memberId) ->
     exists index, (index, memberId) ∈ entries /\
                   place make previous entries start !! memberId = Some (make index)) /\
  (forall memberId, is_Some (place make previous entries start !! memberId) ->
     is_Some (start !! memberId) \/ is_Some (previous !! memberId)).
Proof.
  revert start. induction entries as [|[index memberId] entries IH]; intros start.
  - split_and!; [done | intros ? Hin; inversion Hin | by left].
  - cbn [place foldl].
    set (next := match previous !! memberId with
                 | None => start
                 | Some _ => <[memberId := make index]> start
                 end).
    fold (place make previous entries next).
    destruct (IH next) as (Hout & Hin & Hdom). split_and!.
    + intros other Hnot. cbn [fmap list_fmap snd] in Hnot.
      apply not_elem_of_cons in Hnot as [Hne Hnot]. rewrite (Hout _ Hnot).
      unfold next. destruct (previous !! memberId); [by rewrite lookup_insert_ne | done].
    + intros other Hother Hsome. cbn [fmap list_fmap snd] in Hother.
      destruct (decide (other ∈ entries.*2)) as [Hlater | Hlater].
      * destruct (Hin other Hlater Hsome) as (k & Hk & Hlook).
        exists k. split; [by apply list_elem_of_further | exact Hlook].
      * apply elem_of_cons in Hother as [-> | Hother]; [| done].
        exists index. split; [apply list_elem_of_here |].
        rewrite (Hout _ Hlater). unfold next. destruct Hsome as [a ->].
        by rewrite lookup_insert_eq.
    + intros other Hsome. destruct (Hdom other Hsome) as [Hnext | Hprev]; [| by right].
      unfold next in Hnext. destruct (previous !! memberId) eqn:Hprev; [| by left].
      destruct (decide (other = memberId)) as [-> | Hne]; [right; by eexists |].
      rewrite lookup_insert_ne in Hnext by done. by left.
Qed.

Lemma snd_numbered (memberIds : list jsstring) :
  (zip (seq 0 (length memberIds)) memberIds).*2 = memberIds.
Proof. apply snd_zip. by rewrite length_seq. Qed.

Section Moves.
Context `{Host}.

(** X25. Moving members to a meeting room, or to the CEO, never adds or
    removes an agent and leaves every agent that is not named as it was;
    an id without an agent is skipped. Every named agent ends up active,
    in the room (or at the CEO) and with the status of the move. *)
Theorem moves_keep_the_agents (memberIds : list jsstring) (room : Room) (status : jsstring)
    (previous : gmap jsstring AgentState) :
  (forall memberId : jsstring,
     (is_Some (roomUpdater memberIds room status previous !! memberId)
      <-> is_Some (previous !! memberId)) /\
     (is_Some (reportersUpdater memberIds previous !! memberId)
      <-> is_Some (previous !! memberId))) /\
  (forall memberId : jsstring, memberId ∉ memberIds ->
     roomUpdater memberIds room status previous !! memberId = previous !! memberId /\
     reportersUpdater memberIds previous !! memberId = previous !! memberId) /\
  (forall memberId : jsstring, memberId ∈ memberIds -> is_Some (previous !! memberId) ->
     (exists agent,
        roomUpdater memberIds room status previous !! memberId = Some agent /\
        ag_zone agent = zoneRoom room /\ ag_status agent = status /\
        ag_active agent = true) /\
     (exists agent,
        reportersUpdater memberIds previous !! memberId = Some agent /\
        ag_zone agent = zoneCeo /\ ag_active agent = true)).
Proof.
  cbv zeta.
  set (entries := zip (seq 0 (length memberIds)) memberIds).
  assert (exists make,
            roomUpdater memberIds room status previous = place make previous entries previous /\
            forall index, ag_zone (make index) = zoneRoom room /\
                          ag_status (make index) = status /\ ag_active (make index) = true)
    as (toRoom & -> & HtoRoom).
  { eexists (fun index => _). split; [reflexivity |]. intros index. by cbn. }
  assert (exists make,
            reportersUpdater memberIds previous = place make previous entries previous /\
            forall index, ag_zone (make index) = zoneCeo /\ ag_active (make index) = true)
    as (toCeo & -> & HtoCeo).
  { eexists (fun index => _). split; [reflexivity |]. intros index. by cbn. }
  destruct (place_spec toRoom previous entries previous) as (Hout1 & Hin1 & Hdom1).
  destruct (place_spec toCeo previous entries previous) as (Hout2 & Hin2 & Hdom2).
  unfold entries in *. rewrite snd_numbered in *.
  split_and!.
  - intros memberId. split.
    + split; [intros Hsome; by destruct (Hdom1 _ Hsome) |].
      intros Hsome. destruct (decide (memberId ∈ memberIds)) as [Hnamed | Hnamed].
      * destruct (Hin1 _ Hnamed Hsome) as (index & _ & ->). by eexists.
      * by rewrite Hout1.
    + split; [intros Hsome; by destruct (Hdom2 _ Hsome) |].
      intros Hsome. destruct (decide (memberId ∈ memberIds)) as [Hnamed | Hnamed].
      * destruct (Hin2 _ Hnamed Hsome) as (index & _ & ->). by eexists.
      * by rewrite Hout2.
  - intros memberId Hnot. split; [by apply Hout1 | by apply Hout2].
  - intros memberId Hnamed Hsome. split.
    + destruct (Hin1 _ Hnamed Hsome) as (index & _ & Hlook).
      exists (toRoom index). split; [exact Hlook | apply HtoRoom].
    + destruct (Hin2 _ Hnamed Hsome) as (index & _ & Hlook).
      exists (toCeo index). split; [exact Hlook | apply HtoCeo].
Qed.

End Moves.

End TeamMore.
